(** * Expense ingestion and renewal lifecycle: a shallow embedding

    The development follows three source files of the backend:
    - [controllers/bulkUploadController.js]  (bulk ingestion, the
      template, the export and its filters),
    - [controllers/expenseController.js]     (single-record validation,
      the filters of the list, approval links),
    - [services/cronJobs.js] and the cron router (scheduled jobs).

    JavaScript values are modelled as follows.
    - Strings are [string]s of the characters below U+0100; [trim]
      removes the white space among them, the no-break space included,
      and [toLowerCase] folds the capital letters among them.
    - Numbers are doubles: [NaN], the two infinities, and the finite
      ones, each held as the rational it denotes; sums, differences and
      products are rounded to the nearest double, ties to even, and
      overflow to an infinity. The sign of zero is not kept: no operation
      of these files tells the two zeros apart.
    - A [Date] is either invalid or a time value in milliseconds, clipped
      to the ECMAScript range.
    - Lookups in object literals see [Object.prototype].
    - Conversions that the language leaves to the host, and the
      collaborators that are not part of these files, are fields of the
      record [Host].
    - Local time is UTC plus the offset the host gives for the instant,
      which may change over the year.
    - The record store is a list of records with distinct identifiers. It
      is reachable; of its operations [create] and the [save] of the
      upload can refuse. Sending an e-mail and persisting a notification
      succeed and are recorded in the list of what a job sent. *)

From Stdlib Require Import ZArith QArith Qround Qpower Qabs Lqa Ascii String Sorted.
From stdpp Require Import gmap strings list pretty.

Local Open Scope string_scope.
Local Open Scope Z_scope.

(** ** Numbers *)

Module Num.

(** A Number: [NaN], an infinity, or a finite double, held as the
    rational it denotes. *)
Inductive num := NaN | Fin (q : Q) | Inf (negative : bool).

Definition isNaN (n : num) : bool :=
  match n with NaN => true | _ => false end.

(** *** Rounding to the nearest double

    A double has 53 significant bits and an exponent such that the last
    bit is worth at least [2^-1074]; the largest one is
    [(2^53 - 1) * 2^971]. *)

Definition pow2 (e : Z) : Q := (2 ^ e)%Q.

(** The nearest integer, the even one of two that are equally near. *)
Definition roundEven (x : Q) : Z :=
  let f := Qfloor x in
  match Qcompare (x - inject_Z f) (1 # 2) with
  | Lt => f
  | Gt => f + 1
  | Eq => if Z.even f then f else f + 1
  end.

(** The exponent of the highest bit of a positive rational. *)
Definition ilog2 (x : Q) : Z :=
  let k := Z.log2 (Qnum x) - Z.log2 (Z.pos (Qden x)) in
  if Qle_bool (pow2 k) x then k else k - 1.

(** The exponent of the last bit kept. *)
Definition ulpExp (x : Q) : Z := Z.max (ilog2 x - 52) (-1074).

Definition roundPos (x : Q) : Q :=
  (inject_Z (roundEven (x / pow2 (ulpExp x))) * pow2 (ulpExp x))%Q.

(** Round to nearest, ties to even, with an exponent that is not bounded
    above. *)
Definition roundQ (x : Q) : Q :=
  match Qcompare x 0 with
  | Eq => 0%Q
  | Gt => roundPos x
  | Lt => (- roundPos (- x))%Q
  end.

Definition maxFinite : Q := inject_Z ((2 ^ 53 - 1) * 2 ^ 971).

(** The double nearest to a rational: what rounds beyond the largest
    double is an infinity. *)
Definition round64 (x : Q) : num :=
  let r := roundQ x in
  if Qle_bool (Qabs r) maxFinite then Fin (Qred r)
  else Inf (negb (Qle_bool 0 r)).

(** *** Comparisons

    [a > b] and [a >= b]; every comparison with [NaN] is false. *)
Definition gt (a b : num) : bool :=
  match a, b with
  | Fin x, Fin y => negb (Qle_bool x y)
  | Inf false, Fin _ | Inf false, Inf true | Fin _, Inf true => true
  | _, _ => false
  end.

Definition ge (a b : num) : bool :=
  match a, b with
  | Fin x, Fin y => Qle_bool y x
  | Inf false, Fin _ | Inf false, Inf _ | Fin _, Inf true | Inf true, Inf true => true
  | _, _ => false
  end.

(** [a === b] on numbers. *)
Definition eqb (a b : num) : bool :=
  match a, b with
  | Fin x, Fin y => Qeq_bool x y
  | Inf s, Inf s' => Bool.eqb s s'
  | _, _ => false
  end.

(** *** Arithmetic: the exact result, rounded *)

Definition isNegative (q : Q) : bool := negb (Qle_bool 0 q).

(** [a + b] *)
Definition add (a b : num) : num :=
  match a, b with
  | Fin x, Fin y => round64 (x + y)
  | Inf s, Fin _ | Fin _, Inf s => Inf s
  | Inf s, Inf s' => if Bool.eqb s s' then Inf s else NaN
  | _, _ => NaN
  end.

(** [a - b] *)
Definition sub (a b : num) : num :=
  match a, b with
  | Fin x, Fin y => round64 (x - y)
  | Inf s, Fin _ => Inf s
  | Fin _, Inf s => Inf (negb s)
  | Inf s, Inf s' => if Bool.eqb s s' then NaN else Inf s
  | _, _ => NaN
  end.

(** [a * b] *)
Definition mul (a b : num) : num :=
  match a, b with
  | Fin x, Fin y => round64 (x * y)
  | Inf s, Fin y | Fin y, Inf s =>
      if Qeq_bool y 0 then NaN else Inf (xorb s (isNegative y))
  | Inf s, Inf s' => Inf (xorb s s')
  | _, _ => NaN
  end.

(** [Math.floor(a)] *)
Definition floor (a : num) : num :=
  match a with
  | Fin x => Fin (inject_Z (Qfloor x))
  | _ => a
  end.

(** [Math.round(a)]: halves go up. *)
Definition round (a : num) : num :=
  match a with
  | Fin x => Fin (inject_Z (Qfloor (x + (1 # 2))))
  | _ => a
  end.

(** ToBoolean on a number: [NaN] and zero are falsy. *)
Definition truthy (n : num) : bool :=
  match n with
  | NaN => false
  | Fin q => negb (Qeq_bool q 0)
  | Inf _ => true
  end.

(** A number that is not below, or not above, a rational. *)
Definition atLeast (b : Q) (n : num) : Prop :=
  match n with
  | Fin q => (b <= q)%Q
  | Inf negative => negative = false
  | NaN => False
  end.

Definition atMost (b : Q) (n : num) : Prop :=
  match n with
  | Fin q => (q <= b)%Q
  | Inf negative => negative = true
  | NaN => False
  end.

Definition ofZ (z : Z) : num := Fin (inject_Z z).

(** [n || 0] on numbers. *)
Definition orZero (n : num) : num := if truthy n then n else ofZ 0.

End Num.

Abbreviation num := Num.num.
Abbreviation NaN := Num.NaN.
Abbreviation Fin := Num.Fin.
Abbreviation Inf := Num.Inf.

(** ** Strings *)

Module Str.

Definition code (c : ascii) : N := N_of_ascii c.

(** White space as removed by [String.prototype.trim] and skipped by
    [parseInt] and [parseFloat], and as matched by [\s]: the characters
    U+0009 to U+000D, the space and the no-break space U+00A0. *)
Definition isWhiteSpace (c : ascii) : bool :=
  let n := code c in
  ((9 <=? n) && (n <=? 13))%N || (n =? 32)%N || (n =? 160)%N.

Definition isDigit (c : ascii) : bool :=
  let n := code c in ((48 <=? n) && (n <=? 57))%N.

Definition isUpper (c : ascii) : bool :=
  let n := code c in ((65 <=? n) && (n <=? 90))%N.

Definition isLower (c : ascii) : bool :=
  let n := code c in ((97 <=? n) && (n <=? 122))%N.

Definition isAlpha (c : ascii) : bool := isUpper c || isLower c.

Definition digitVal (c : ascii) : Z := Z.of_N (code c) - 48.

(** The capital letters U+00C0 to U+00DE, which leaves out the
    multiplication sign U+00D7. *)
Definition isLatinUpper (c : ascii) : bool :=
  let n := code c in ((192 <=? n) && (n <=? 222))%N && negb (n =? 215)%N.

Definition lowerChar (c : ascii) : ascii :=
  if isUpper c || isLatinUpper c then ascii_of_N (code c + 32) else c.

Fixpoint toLowerCase (s : string) : string :=
  match s with
  | EmptyString => EmptyString
  | String c r => String (lowerChar c) (toLowerCase r)
  end.

Fixpoint trimStart (s : string) : string :=
  match s with
  | String c r => if isWhiteSpace c then trimStart r else s
  | EmptyString => EmptyString
  end.

(** [trimEnd s] drops the trailing white space: a character is kept when
    something that is not white space follows it or it is not white space
    itself. *)
Fixpoint trimEnd (s : string) : string :=
  match s with
  | EmptyString => EmptyString
  | String c r =>
      match trimEnd r with
      | EmptyString => if isWhiteSpace c then EmptyString else String c EmptyString
      | r' => String c r'
      end
  end.

Definition trim (s : string) : string := trimEnd (trimStart s).

(** The empty string is the only falsy string. *)
Definition nonEmpty (s : string) : bool :=
  match s with EmptyString => false | _ => true end.

(** [s.split(sep)] for a separator that matches exactly one character of
    the class [sep]: the pieces between the separators, empty pieces
    included. *)
Fixpoint splitOn (sep : ascii -> bool) (s : string) : list string :=
  match s with
  | EmptyString => [EmptyString]
  | String c r =>
      if sep c then EmptyString :: splitOn sep r
      else match splitOn sep r with
           | p :: ps => String c p :: ps
           | [] => [String c EmptyString]
           end
  end.

(** [s.replace(/c/g, d)] for single characters. *)
Fixpoint replaceChar (from to : ascii) (s : string) : string :=
  match s with
  | EmptyString => EmptyString
  | String c r =>
      String (if Ascii.eqb c from then to else c) (replaceChar from to r)
  end.

(** [s.replace(/[class]/g, '')]. *)
Fixpoint removeChars (drop : ascii -> bool) (s : string) : string :=
  match s with
  | EmptyString => EmptyString
  | String c r =>
      if drop c then removeChars drop r else String c (removeChars drop r)
  end.

Fixpoint isPrefix (p s : string) : bool :=
  match p, s with
  | EmptyString, _ => true
  | String a p', String b s' => Ascii.eqb a b && isPrefix p' s'
  | String _ _, EmptyString => false
  end.

(** [s] contains [p] as a substring. *)
Fixpoint contains (p s : string) : bool :=
  isPrefix p s ||
  match s with
  | EmptyString => false
  | String _ r => contains p r
  end.

(** The longest prefix of [s] made of characters of the class, and the
    rest. *)
Fixpoint span (cls : ascii -> bool) (s : string) : string * string :=
  match s with
  | String c r =>
      if cls c then let '(a, b) := span cls r in (String c a, b)
      else (EmptyString, s)
  | EmptyString => (EmptyString, EmptyString)
  end.

Definition allChars (cls : ascii -> bool) (s : string) : bool :=
  match span cls s with
  | (_, EmptyString) => true
  | _ => false
  end.

(** The value of a run of decimal digits, most significant first. *)
Fixpoint digitsValue (acc : Z) (s : string) : Z :=
  match s with
  | EmptyString => acc
  | String c r => digitsValue (10 * acc + digitVal c) r
  end.

(** The sign prefix shared by [parseInt] and [parseFloat]. *)
Definition takeSign (s : string) : bool * string :=
  match s with
  | String "-" r => (true, r)
  | String "+" r => (false, r)
  | _ => (false, s)
  end.

(** [parseInt(s, 10)]: leading white space, an optional sign, then the
    longest run of digits; [None] is [NaN]. *)
Definition parseInt (s : string) : option Z :=
  let '(neg, r) := takeSign (trimStart s) in
  let '(ds, _) := span isDigit r in
  if nonEmpty ds
  then Some (if neg then - digitsValue 0 ds else digitsValue 0 ds)
  else None.

(** The exponent part [e[+-]ddd] of a decimal literal, when complete. *)
Definition takeExponent (s : string) : Z :=
  match s with
  | String c r =>
      if Ascii.eqb c "e" || Ascii.eqb c "E" then
        let '(neg, r') := takeSign r in
        let '(ds, _) := span isDigit r' in
        if nonEmpty ds
        then (if neg then - digitsValue 0 ds else digitsValue 0 ds)
        else 0
      else 0
  | EmptyString => 0
  end.

Definition pow10 (e : Z) : Q :=
  if 0 <=? e then inject_Z (10 ^ e) else / inject_Z (10 ^ (- e)).

(** [parseFloat(s)]: leading white space, an optional sign, and then
    [Infinity] or the longest prefix that is a decimal literal (digits, a
    fraction, an exponent), whose value is rounded to the nearest
    double. *)
Definition parseFloat (s : string) : num :=
  let '(neg, r) := takeSign (trimStart s) in
  if String.prefix "Infinity" r then Inf neg
  else
    let '(ip, r1) := span isDigit r in
    let '(fp, r2) :=
      match r1 with
      | String "." r' => span isDigit r'
      | _ => (EmptyString, r1)
      end in
    if nonEmpty ip || nonEmpty fp then
      let mant := digitsValue 0 (ip +:+ fp) in
      let e := takeExponent r2 - Z.of_nat (String.length fp) in
      let q := (inject_Z mant * pow10 e)%Q in
      Num.round64 (if neg then - q else q)
    else NaN.

End Str.

(** ** Dates *)

Module JsDate.

Inductive jsdate := Invalid | At (t : Z).

Definition msPerDay : Z := 86400000.
Definition maxTime : Z := 8640000000000000.

(** TimeClip: time values beyond 8.64e15 ms make the date invalid. *)
Definition timeClip (t : Z) : jsdate :=
  if Z.abs t <=? maxTime then At t else Invalid.

Definition isValid (d : jsdate) : bool :=
  match d with Invalid => false | At _ => true end.

(** The integer part of a rational. *)
Definition truncate (q : Q) : Z :=
  if Qle_bool 0 q then Qfloor q else Qceiling q.

(** [new Date(value)] on a number: the time value is the integer part of
    a finite number within the range. *)
Definition ofNum (n : num) : jsdate :=
  match n with
  | Fin q =>
      if Qle_bool (Qabs q) (inject_Z maxTime) then At (truncate q) else Invalid
  | _ => Invalid
  end.

(** *** The proleptic Gregorian calendar

    Days are counted from 1970-01-01; a year is cut into a 400-year era
    and the year of the era, with the year starting in March so that the
    leap day comes last. *)

Definition daysPerEra : Z := 146097.
Definition eraShift : Z := 719468.

(** Day of the era of the date (year of era, month 1..12, day). *)
Definition doeOf (yoe m d : Z) : Z :=
  let mp := if m <=? 2 then m + 9 else m - 3 in
  let doy := (153 * mp + 2) / 5 + d - 1 in
  yoe * 365 + yoe / 4 - yoe / 100 + doy.

Definition daysFromCivil (y m d : Z) : Z :=
  let y' := if m <=? 2 then y - 1 else y in
  (y' / 400) * daysPerEra + doeOf (y' mod 400) m d - eraShift.

(** Year of era, month 1..12 and day of month of a day of the era. *)
Definition civilOfDoe (doe : Z) : Z * Z * Z :=
  let yoe := (doe - doe / 1460 + doe / 36524 - doe / 146096) / 365 in
  let doy := doe - (365 * yoe + yoe / 4 - yoe / 100) in
  let mp := (5 * doy + 2) / 153 in
  let d := doy - (153 * mp + 2) / 5 + 1 in
  let m := if mp <? 10 then mp + 3 else mp - 9 in
  (yoe, m, d).

Definition civilFromDays (z : Z) : Z * Z * Z :=
  let z' := z + eraShift in
  let '(yoe, m, d) := civilOfDoe (z' mod daysPerEra) in
  let y := yoe + (z' / daysPerEra) * 400 in
  (if m <=? 2 then y + 1 else y, m, d).

(** Day(t) and TimeWithinDay(t). *)
Definition day (t : Z) : Z := t / msPerDay.
Definition timeWithinDay (t : Z) : Z := t mod msPerDay.

Definition yearFromTime (t : Z) : Z := fst (fst (civilFromDays (day t))).
(** MonthFromTime is zero-based. *)
Definition monthFromTime (t : Z) : Z := snd (fst (civilFromDays (day t))) - 1.
Definition dateFromTime (t : Z) : Z := snd (civilFromDays (day t)).

(** MakeDay(year, month, date) with a zero-based month that may lie
    outside 0..11 and a day of month that may overflow. *)
Definition makeDay (year month date : Z) : Z :=
  daysFromCivil (year + month / 12) (month mod 12 + 1) 1 + date - 1.

Definition makeTime (h m s ms : Z) : Z :=
  h * 3600000 + m * 60000 + s * 1000 + ms.

Definition makeDate (d time : Z) : Z := d * msPerDay + time.

(** [Date.UTC(year, month, day)]: years 0..99 denote 1900..1999. *)
Definition UTC (year month date : Z) : jsdate :=
  let yr := if (0 <=? year) && (year <=? 99) then 1900 + year else year in
  timeClip (makeDate (makeDay yr month date) 0).

(** The days from the first of month [m] (1..12) of year [y] to the first
    of the next month, and to the first of the same month a year later. *)
Definition monthLength (y m : Z) : Z :=
  daysFromCivil (y + m / 12) (m mod 12 + 1) 1 - daysFromCivil y m 1.


Section Local.
(** LocalTZA(t, isUTC): the offset of local time from UTC in
    milliseconds, at the instant [t] when [isUTC] holds and at the local
    time [t] otherwise. It depends on [t] where the zone changes its
    offset, as with daylight saving. *)
Variable localTZA : Z -> bool -> Z.

(** LocalTime(t) and UTC(t). *)
Definition localTime (t : Z) : Z := t + localTZA t true.
Definition utcOf (t : Z) : Z := t - localTZA t false.

Definition getMonth (t : Z) : Z := monthFromTime (localTime t).
Definition getFullYear (t : Z) : Z := yearFromTime (localTime t).
Definition getDate (t : Z) : Z := dateFromTime (localTime t).

(** [d.setMonth(m)] *)
Definition setMonth (d : jsdate) (m : Z) : jsdate :=
  match d with
  | Invalid => Invalid
  | At t =>
      let l := localTime t in
      timeClip (utcOf (makeDate (makeDay (yearFromTime l) m (dateFromTime l))
                                (timeWithinDay l)))
  end.

(** [d.setFullYear(y)]; an invalid date is treated as time value 0. *)
Definition setFullYear (d : jsdate) (y : Z) : jsdate :=
  let l := match d with Invalid => 0 | At t => localTime t end in
  timeClip (utcOf (makeDate (makeDay y (monthFromTime l) (dateFromTime l))
                            (timeWithinDay l))).

(** [d.setDate(dt)] *)
Definition setDate (d : jsdate) (dt : Z) : jsdate :=
  match d with
  | Invalid => Invalid
  | At t =>
      let l := localTime t in
      timeClip (utcOf (makeDate (makeDay (yearFromTime l) (monthFromTime l) dt)
                                (timeWithinDay l)))
  end.

(** [d.setHours(h, m, s, ms)] *)
Definition setHours (d : jsdate) (h m s ms : Z) : jsdate :=
  match d with
  | Invalid => Invalid
  | At t =>
      timeClip (utcOf (makeDate (day (localTime t)) (makeTime h m s ms)))
  end.

(** [d.setMonth(d.getMonth() + 1)] and [d.setFullYear(d.getFullYear() + 1)]
    on a valid date. *)
Definition plusOneMonth (t : Z) : jsdate := setMonth (At t) (getMonth t + 1).
Definition plusOneYear (t : Z) : jsdate := setFullYear (At t) (getFullYear t + 1).
End Local.

End JsDate.

Abbreviation jsdate := JsDate.jsdate.

(** ** Values, rows and the host *)

(** The values a cell of a parsed file or a field of a request body can
    hold. [VObj s] is an object other than a date, known by the string
    that [toString()] returns on it. *)
Inductive jsval :=
| VUndef
| VNull
| VBool (b : bool)
| VNum (n : num)
| VStr (s : string)
| VDate (d : jsdate)
| VObj (s : string).

(** The result of reading an object literal used as a table: one of its
    strings, or a member of [Object.prototype] found under the key. *)
Inductive enumv :=
| EStr (s : string)
| EProto (key : string).

Global Instance enumv_eq_dec : EqDecision enumv.
Proof. solve_decision. Defined.

Definition enumEqb (a b : enumv) : bool := bool_decide (a = b).

(** A value that is not [null]. *)
Definition isSet {A} (o : option A) : bool :=
  match o with Some _ => true | None => false end.

(** One share of a cost split, [{ businessUnit, amount }]. *)
Module Alloc.
Record t (B : Type) := make { businessUnit : B; amount : num }.
Arguments make {B} _ _.
Arguments businessUnit {B} _.
Arguments amount {B} _.
End Alloc.

(** Modelled from the spec: the record type of [models/ExpenseEntry.js],
    which is not among the sources. The fields are those of the data
    model and of the documents the controllers create; the text fields
    hold strings, so the controller's values reach the store through
    [String(.)], and the two notification flags start unset. *)
Module Entry.
Record t := make {
  _id : nat;
  cardNumber : string;
  cardAssignedTo : string;
  date : jsdate;
  month : string;
  status : enumv;
  particulars : string;
  narration : string;
  currency : string;
  billStatus : string;
  amount : num;
  xeRate : num;
  amountInINR : num;
  typeOfService : enumv;
  businessUnit : enumv;
  costCenter : enumv;
  approvedBy : enumv;
  serviceHandler : string;
  recurring : enumv;
  entryStatus : string;
  duplicateStatus : option string;
  createdBy : nat;
  nextRenewalDate : option jsdate;
  isShared : bool;
  sharedAllocations : list (Alloc.t (option enumv));
  renewalNotificationSent : bool;
  autoCancellationNotificationSent : bool;
}.
End Entry.

(** An element of a parsed JSON array: [null], on which a property access
    throws, or a value with its own properties. *)
Inductive jitem :=
| JNull
| JProps (props : list (string * jsval)).

(** A row of the uploaded file: its own properties in enumeration order. *)
Definition Row := list (string * jsval).

(** What is left to the host or lives outside these source files. *)
Record Host := {
  (** the offset of local time from UTC in milliseconds at an instant
      ([true]) or at a local time ([false]), as the time zone of the
      process has it *)
  localTZA : Z -> bool -> Z;
  (** [String(x)] on a finite number *)
  numberToString : Q -> string;
  (** [String(d)] on a date *)
  dateToString : jsdate -> string;
  (** [new Date(str)] *)
  dateParse : string -> jsdate;
  (** [Number(str)] *)
  stringToNumber : string -> num;
  (** [JSON.parse(text)] when it succeeds with an array *)
  jsonParseArray : string -> option (list jitem);
  (** the rate of [convertToINR(amount, currency)], or the message of the
      error it throws *)
  convertToINR : num -> string -> string + num;
  (** the message of the error [ExpenseEntry.create(doc)] throws when the
      schema refuses the document *)
  createError : Entry.t -> option string;
  (** the message of the error [doc.save()] throws when the store refuses
      the changed document *)
  saveError : Entry.t -> option string;
  (** [d.toLocaleString('default', {month: 'short', year: 'numeric'})] *)
  monthLabel : jsdate -> string;
  (** whether the store drops a filter field that is [undefined] (the
      filter then constrains nothing) or reads it as [null] *)
  dropsUndefinedFilter : bool;
}.

Module Val.

(** ToBoolean *)
Definition truthy (v : jsval) : bool :=
  match v with
  | VUndef | VNull => false
  | VBool b => b
  | VNum n => Num.truthy n
  | VStr s => Str.nonEmpty s
  | VDate _ | VObj _ => true
  end.

(** [a || b] *)
Definition or (a b : jsval) : jsval := if truthy a then a else b.

(** [a ?? b] *)
Definition nullish (a b : jsval) : jsval :=
  match a with VUndef | VNull => b | _ => a end.

Section WithHost.
Variable h : Host.

(** [v.toString()], [String(v)] and the conversion to a property key. *)
Definition toStr (v : jsval) : string :=
  match v with
  | VUndef => "undefined"
  | VNull => "null"
  | VBool true => "true"
  | VBool false => "false"
  | VNum NaN => "NaN"
  | VNum (Fin q) => numberToString h q
  | VNum (Inf false) => "Infinity"
  | VNum (Inf true) => "-Infinity"
  | VStr s => s
  | VDate d => dateToString h d
  | VObj s => s
  end.

(** [Number(v)] *)
Definition toNumber (v : jsval) : num :=
  match v with
  | VUndef => NaN
  | VNull => Num.ofZ 0
  | VBool b => Num.ofZ (if b then 1 else 0)
  | VNum n => n
  | VStr s => stringToNumber h s
  | VDate JsDate.Invalid => NaN
  | VDate (JsDate.At t) => Num.ofZ t
  | VObj s => stringToNumber h s
  end.

(** [parseFloat(v)]. On a number it is the number itself, since
    [parseFloat(String(x))] is [x]. *)
Definition parseFloatOf (v : jsval) : num :=
  match v with
  | VNum n => n
  | _ => Str.parseFloat (toStr v)
  end.
End WithHost.

End Val.

(** [row[key]] for a key that is not a property of [Object.prototype]. *)
Fixpoint rowGet (row : Row) (key : string) : jsval :=
  match row with
  | [] => VUndef
  | (k, v) :: rest => if String.eqb k key then v else rowGet rest key
  end.

(** The lookup map of [getField]: the row's values under their trimmed,
    lower-cased headers, a later header overwriting an earlier one.
    Assigning to ["__proto__"] creates no own property; it sets the
    prototype of the map when the value is [null] or an object
    ([protoNulled] below). *)
Definition normalizedMap (row : Row) : gmap string jsval :=
  fold_left
    (fun acc kv =>
       let norm := Str.toLowerCase (Str.trim (fst kv)) in
       if Str.nonEmpty norm && negb (String.eqb norm "__proto__")
       then <[norm := snd kv]> acc else acc)
    row ∅.

Fixpoint getFieldIn (m : gmap string jsval) (aliases : list string) : jsval :=
  match aliases with
  | [] => VUndef
  | alias :: rest =>
      let norm := Str.toLowerCase (Str.trim alias) in
      if Str.nonEmpty alias && Str.nonEmpty norm then
        match m !! norm with
        | Some v => v
        | None => getFieldIn m rest
        end
      else getFieldIn m rest
  end.

Definition getField (row : Row) (aliases : list string) : jsval :=
  getFieldIn (normalizedMap row) aliases.

(** Whether the lookup map of the row is left without a prototype: the
    last value assigned under ["__proto__"] that is [null] or an object is
    [null]. An object brings [Object.prototype] along; a value of another
    kind is ignored by the assignment. On such a map
    [normalizedMap.hasOwnProperty] is [undefined], and the call of it in
    [getField] throws a TypeError. *)
Definition protoNulled (row : Row) : bool :=
  fold_left
    (fun nulled kv =>
       if String.eqb (Str.toLowerCase (Str.trim (fst kv))) "__proto__" then
         match snd kv with
         | VNull => true
         | VDate _ | VObj _ => false
         | _ => nulled
         end
       else nulled)
    row false.

(** The message of that TypeError, as V8 words it. *)
Definition notAFunctionMessage : string :=
  "normalizedMap.hasOwnProperty is not a function".

(** ** Enumerations *)

Definition objectPrototypeKeys : list string :=
  [ "constructor"; "__defineGetter__"; "__defineSetter__"; "hasOwnProperty";
    "__lookupGetter__"; "__lookupSetter__"; "isPrototypeOf";
    "propertyIsEnumerable"; "toString"; "valueOf"; "__proto__";
    "toLocaleString" ].

Definition isPrototypeKey (k : string) : bool :=
  existsb (String.eqb k) objectPrototypeKeys.

(** [table[key]] when it is truthy. *)
Definition objGet (table : gmap string string) (key : string) : option enumv :=
  match table !! key with
  | Some v => if Str.nonEmpty v then Some (EStr v) else None
  | None => if isPrototypeKey key then Some (EProto key) else None
  end.

Fixpoint matchAllowed (norm : string) (allowedSet : list string) : option enumv :=
  match allowedSet with
  | [] => None
  | a :: rest =>
      if String.eqb (Str.toLowerCase a) norm then Some (EStr a)
      else matchAllowed norm rest
  end.

Definition normalizeEnum (h : Host) (value : jsval)
    (table : gmap string string) (allowedSet : list string) : option enumv :=
  if negb (Val.truthy value) then None
  else
    let norm := Str.toLowerCase (Str.trim (Val.toStr h value)) in
    match objGet table norm with
    | Some v => Some v
    | None => matchAllowed norm allowedSet
    end.

Definition parseBoolean (h : Host) (value : jsval) : bool :=
  match value with
  | VUndef | VNull => false
  | _ =>
      let norm := Str.toLowerCase (Str.trim (Val.toStr h value)) in
      if negb (Str.nonEmpty norm) then false
      else existsb (String.eqb norm) ["true"; "yes"; "y"; "1"; "shared"; "checked"]
  end.

(** The tables of [bulkUploadExpenses]. *)
Module Tables.

Definition typeMap : gmap string string :=
  list_to_map
    [ ("tool & service", "Service"); ("tools & service", "Service");
      ("tool & services", "Service"); ("tools & services", "Service");
      ("tool", "Tool"); ("service", "Service");
      ("google adwords expenses", "Google Adwords Expense");
      ("google adwords expense", "Google Adwords Expense") ].

Definition allowedTypes : list string :=
  [ "Domain"; "Google"; "Google Adwords Expense"; "Hosting"; "Proxy";
    "Server"; "Service"; "Tool" ].

Definition costCenterMap : gmap string string :=
  list_to_map
    [ ("ops", "Ops"); ("oh exps", "OH Exps"); ("oh exps.", "OH Exps");
      ("fe", "FE"); ("support", "Support");
      ("management exps", "Management EXPS");
      ("management exps.", "Management EXPS") ].

Definition allowedCostCenters : list string :=
  [ "Ops"; "FE"; "OH Exps"; "Support"; "Management EXPS" ].

Definition businessUnitMap : gmap string string :=
  list_to_map
    [ ("dws g", "DWSG"); ("dwsg", "DWSG"); ("signature", "Signature");
      ("collabx", "Collabx"); ("wytlabs", "Wytlabs"); ("smegoweb", "Smegoweb");
      ("shared", "Wytlabs"); ("excel forum", "Wytlabs");
      ("excel fourm", "Wytlabs"); ("wytlabs and dws", "Wytlabs") ].

Definition allowedBusinessUnits : list string :=
  [ "DWSG"; "Signature"; "Collabx"; "Wytlabs"; "Smegoweb" ].

Definition statusMap : gmap string string :=
  list_to_map
    [ ("deactive-nextmonth", "Deactive"); ("deactivate-nextmonth", "Deactive") ].

Definition allowedStatus : list string := [ "Active"; "Deactive"; "Declined" ].

Definition approvedByMap : gmap string string :=
  list_to_map
    [ ("vaibhav", "Vaibhav"); ("marc", "Marc"); ("dawood", "Dawood");
      ("raghav", "Raghav"); ("tarun", "Tarun"); ("yulia", "Yulia");
      ("sarthak", "Sarthak"); ("harshit", "Harshit"); ("suspense", "Tarun") ].

Definition allowedApprovedBy : list string :=
  [ "Vaibhav"; "Marc"; "Dawood"; "Raghav"; "Tarun"; "Yulia"; "Sarthak";
    "Harshit" ].

Definition recurringPairs : list (string * string) :=
  [ ("Recurring_M", "Monthly"); ("Recurring_Y", "Yearly");
    ("OneTime", "One-time"); ("One Time", "One-time");
    ("One-time", "One-time"); ("Monthly", "Monthly"); ("Yearly", "Yearly") ].

Definition recurringMap : gmap string string := list_to_map recurringPairs.

End Tables.

(** The raw recurring value of a row and its canonical form. *)
Definition recurringRawOf (row : Row) : jsval :=
  Val.or (rowGet row "Recurring/One-time")
    (Val.or (rowGet row "Recurring/One time")
       (Val.or (rowGet row "recurring")
          (Val.or (rowGet row "Recurring") (VStr "One-time")))).

Definition recurringOfRaw (h : Host) (recurringRaw : jsval) : enumv :=
  match objGet Tables.recurringMap (Val.toStr h recurringRaw) with
  | Some v => v
  | None => EStr "One-time"
  end.

(** ** Date resolution ([excelSerialToDate], [parseDateValue]) *)

(** [excelSerialToDate(serial)]; [None] is [null]. *)
Definition excelSerialToDate (serial : jsval) : option jsdate :=
  match serial with
  | VNum serial =>
      let excelEpoch :=
        match JsDate.UTC 1899 11 30 with
        | JsDate.At t => Num.ofZ t
        | JsDate.Invalid => NaN
        end in
      let days := Num.floor serial in
      let milliseconds := Num.mul days (Num.ofZ 86400000) in
      let fractionalDay := Num.sub serial days in
      let seconds := Num.round (Num.mul fractionalDay (Num.ofZ 86400)) in
      Some (JsDate.ofNum
              (Num.add (Num.add excelEpoch milliseconds)
                 (Num.mul seconds (Num.ofZ 1000))))
  | _ => None
  end.

Definition isDash (c : ascii) : bool := Ascii.eqb c "-".

(** [if (!isNaN(d.getTime())) return d], else [null] once every later step
    has failed as well. *)
Definition validOrNull (d : jsdate) : option jsdate :=
  match d with
  | JsDate.At t => Some (JsDate.At t)
  | JsDate.Invalid => None
  end.

(** [/^\d{1,2}-[A-Za-z]{3}-\d{2,4}$/.test(s)] *)
Definition isDayMonYear (s : string) : bool :=
  let '(d, r1) := Str.span Str.isDigit s in
  let nd := String.length d in
  ((1 <=? nd) && (nd <=? 2))%nat &&
  match r1 with
  | String "-" r2 =>
      let '(a, r3) := Str.span Str.isAlpha r2 in
      (String.length a =? 3)%nat &&
      match r3 with
      | String "-" r4 =>
          let ny := String.length r4 in
          Str.allChars Str.isDigit r4 && ((2 <=? ny) && (ny <=? 4))%nat
      | _ => false
      end
  | _ => false
  end.

(** The branch of [parseDateValue] for three parts separated by dashes. *)
Definition parseNumericParts (p1 p2 p3 : string) : option jsdate :=
  let p3' := if (String.length p3 =? 2)%nat then "20" +:+ p3 else p3 in
  match Str.parseInt p1, Str.parseInt p2, Str.parseInt p3' with
  | Some n1, Some n2, Some year =>
      let '(month, day) :=
        if 12 <? n1 then (n2, n1)
        else if 12 <? n2 then (n1, n2)
        else (n1, n2) in
      validOrNull (JsDate.UTC year (month - 1) day)
  | _, _, _ => None
  end.

Definition parseDateString (h : Host) (str : string) : option jsdate :=
  if negb (Str.nonEmpty str) then None
  else
    match dateParse h str with
    | JsDate.At t => Some (JsDate.At t)
    | JsDate.Invalid =>
        let normalized := Str.replaceChar "/" "-" str in
        let named :=
          if isDayMonYear normalized then validOrNull (dateParse h normalized)
          else None in
        match named with
        | Some d => Some d
        | None =>
            match Str.splitOn isDash normalized with
            | [p1; p2; p3] => parseNumericParts p1 p2 p3
            | _ => None
            end
        end
    end.

(** [parseDateValue(value)]; [None] is [null]. *)
Definition parseDateValue (h : Host) (value : jsval) : option jsdate :=
  if negb (Val.truthy value) then None
  else
    match value with
    | VDate d => Some d
    | VNum _ => excelSerialToDate value
    | _ => parseDateString h (Str.trim (Val.toStr h value))
    end.

(** ** Shared allocations ([parseSharedAllocations]) *)

Definition Share := Alloc.t (option enumv).

Definition isSepChar (c : ascii) : bool :=
  Str.isWhiteSpace c || Ascii.eqb c ":" || Ascii.eqb c "=" || Ascii.eqb c "-".

Definition isNumChar (c : ascii) : bool :=
  Str.isDigit c || Ascii.eqb c "." || Ascii.eqb c ",".

Definition isLineTerminator (c : ascii) : bool :=
  (Str.code c =? 10)%N || (Str.code c =? 13)%N.

(** [[\s:=\-]+([\d.,]+)] at the start of [s]: the digits group. *)
Definition sepThenNumber (s : string) : option string :=
  let '(sp, r) := Str.span isSepChar s in
  let '(nm, _) := Str.span isNumChar r in
  if Str.nonEmpty sp && Str.nonEmpty nm then Some nm else None.

(** The match of [(.+?)[\s:=\-]+([\d.,]+)] that starts at the first
    character of [s], with the shortest label. *)
Fixpoint lazyLabel (s : string) : option (string * string) :=
  match s with
  | EmptyString => None
  | String c r =>
      if isLineTerminator c then None
      else
        match sepThenNumber r with
        | Some nm => Some (String c EmptyString, nm)
        | None =>
            match lazyLabel r with
            | Some (lab, nm) => Some (String c lab, nm)
            | None => None
            end
        end
  end.

(** [part.match(/(.+?)[\s:=\-]+([\d.,]+)/)]: the leftmost match, as the
    pair of its two groups. *)
Fixpoint matchAlloc (s : string) : option (string * string) :=
  match lazyLabel s with
  | Some m => Some m
  | None =>
      match s with
      | EmptyString => None
      | String _ r => matchAlloc r
      end
  end.

Definition isPartSep (c : ascii) : bool :=
  Ascii.eqb c "," || Ascii.eqb c ";" || Ascii.eqb c "|".

(** The characters removed by [replace(/[^0-9.-]/g, '')]. *)
Definition notNumeric (c : ascii) : bool :=
  negb (Str.isDigit c || Ascii.eqb c "." || Ascii.eqb c "-").

Fixpoint propGet (props : list (string * jsval)) (key : string) : jsval :=
  match props with
  | [] => VUndef
  | (k, v) :: rest => if String.eqb k key then v else propGet rest key
  end.

Section SharedAllocations.
Variable h : Host.

Definition normalizeBU (val : jsval) : option enumv :=
  normalizeEnum h val Tables.businessUnitMap Tables.allowedBusinessUnits.

(** The callback of the array branch; [None] when it throws. *)
Definition shareOfItem (item : jitem) : option (option Share) :=
  match item with
  | JNull => None
  | JProps props =>
      let bu :=
        normalizeBU (Val.or (propGet props "businessUnit")
                       (Val.or (propGet props "bu") (propGet props "unit"))) in
      let amount :=
        Val.toNumber h
          (Val.nullish (propGet props "amount")
             (Val.nullish (propGet props "value") (propGet props "share"))) in
      Some (match bu with
            | Some b =>
                if Num.gt amount (Num.ofZ 0)
                then Some (Alloc.make (Some b) amount) else None
            | None => None
            end)
  end.

(** [raw.map(...).filter(Boolean)]; [None] when the callback throws. *)
Fixpoint sharesOfItems (items : list jitem) : option (list Share) :=
  match items with
  | [] => Some []
  | item :: rest =>
      match shareOfItem item with
      | None => None
      | Some o =>
          match sharesOfItems rest with
          | None => None
          | Some l => Some (match o with Some a => a :: l | None => l end)
          end
      end
  end.

Definition shareOfPart (part : string) : option Share :=
  match matchAlloc part with
  | None => None
  | Some (label, number) =>
      let bu := normalizeBU (VStr label) in
      let amt := Str.parseFloat (Str.removeChars notNumeric number) in
      match bu with
      | Some b =>
          if negb (Num.isNaN amt) && Num.gt amt (Num.ofZ 0)
          then Some (Alloc.make (Some b) amt) else None
      | None => None
      end
  end.

Definition sharesOfText (text : string) : list Share :=
  if negb (Str.nonEmpty (Str.trim text)) then []
  else
    let parts :=
      List.filter Str.nonEmpty (map Str.trim (Str.splitOn isPartSep text)) in
    omap shareOfPart parts.

Definition parseSharedAllocations (raw : jsval) : list Share :=
  if negb (Val.truthy raw) then []
  else
    let fromJson :=
      match jsonParseArray h (Val.toStr h raw) with
      | Some items => sharesOfItems items
      | None => None
      end in
    match fromJson with
    | Some l => l
    | None => sharesOfText (Val.toStr h raw)
    end.
End SharedAllocations.

(** [items.reduce((sum, item) => sum + item.amount, 0)] *)
Definition totalOf {B} (items : list (Alloc.t B)) : num :=
  fold_left (fun sum item => Num.add sum (Alloc.amount item)) items (Num.ofZ 0).

(** ** The record store *)

Definition Store := list Entry.t.

(** The six fields of the duplicate key, as passed to [findOne]. *)
Record DuplicateKey := {
  keyCardNumber : string;
  keyDate : jsdate;
  keyParticulars : string;
  keyBusinessUnit : enumv;
  keyAmount : num;
  keyCurrency : string;
}.

Definition dateEqb (a b : jsdate) : bool :=
  match a, b with
  | JsDate.At x, JsDate.At y => x =? y
  | _, _ => false
  end.

Definition matchesKey (k : DuplicateKey) (e : Entry.t) : bool :=
  String.eqb (Entry.cardNumber e) (keyCardNumber k)
  && dateEqb (Entry.date e) (keyDate k)
  && String.eqb (Entry.particulars e) (keyParticulars k)
  && enumEqb (Entry.businessUnit e) (keyBusinessUnit k)
  && Num.eqb (Entry.amount e) (keyAmount k)
  && String.eqb (Entry.currency e) (keyCurrency k).

(** [ExpenseEntry.findOne(key)]: the first record that matches. *)
Definition findOne (store : Store) (k : DuplicateKey) : option Entry.t :=
  List.find (matchesKey k) store.

(** A write to the record with the given [_id]. *)
Definition updateById (id : nat) (f : Entry.t -> Entry.t) (store : Store) : Store :=
  map (fun e => if Nat.eqb (Entry._id e) id then f e else e) store.

Definition setDuplicateStatus (v : option string) (e : Entry.t) : Entry.t :=
  Entry.make (Entry._id e) (Entry.cardNumber e) (Entry.cardAssignedTo e)
    (Entry.date e) (Entry.month e) (Entry.status e) (Entry.particulars e)
    (Entry.narration e) (Entry.currency e) (Entry.billStatus e)
    (Entry.amount e) (Entry.xeRate e) (Entry.amountInINR e)
    (Entry.typeOfService e) (Entry.businessUnit e) (Entry.costCenter e)
    (Entry.approvedBy e) (Entry.serviceHandler e) (Entry.recurring e)
    (Entry.entryStatus e) v (Entry.createdBy e) (Entry.nextRenewalDate e)
    (Entry.isShared e) (Entry.sharedAllocations e)
    (Entry.renewalNotificationSent e) (Entry.autoCancellationNotificationSent e).

Definition setRenewalNotificationSent (b : bool) (e : Entry.t) : Entry.t :=
  Entry.make (Entry._id e) (Entry.cardNumber e) (Entry.cardAssignedTo e)
    (Entry.date e) (Entry.month e) (Entry.status e) (Entry.particulars e)
    (Entry.narration e) (Entry.currency e) (Entry.billStatus e)
    (Entry.amount e) (Entry.xeRate e) (Entry.amountInINR e)
    (Entry.typeOfService e) (Entry.businessUnit e) (Entry.costCenter e)
    (Entry.approvedBy e) (Entry.serviceHandler e) (Entry.recurring e)
    (Entry.entryStatus e) (Entry.duplicateStatus e) (Entry.createdBy e)
    (Entry.nextRenewalDate e) (Entry.isShared e) (Entry.sharedAllocations e)
    b (Entry.autoCancellationNotificationSent e).

Definition setNextRenewalDate (d : option jsdate) (e : Entry.t) : Entry.t :=
  Entry.make (Entry._id e) (Entry.cardNumber e) (Entry.cardAssignedTo e)
    (Entry.date e) (Entry.month e) (Entry.status e) (Entry.particulars e)
    (Entry.narration e) (Entry.currency e) (Entry.billStatus e)
    (Entry.amount e) (Entry.xeRate e) (Entry.amountInINR e)
    (Entry.typeOfService e) (Entry.businessUnit e) (Entry.costCenter e)
    (Entry.approvedBy e) (Entry.serviceHandler e) (Entry.recurring e)
    (Entry.entryStatus e) (Entry.duplicateStatus e) (Entry.createdBy e)
    d (Entry.isShared e) (Entry.sharedAllocations e)
    (Entry.renewalNotificationSent e) (Entry.autoCancellationNotificationSent e).

(** The identifier given to a new record: one not in the store. *)
Definition freshId (store : Store) : nat :=
  S (fold_right Nat.max 0%nat (map Entry._id store)).

Definition isMerged (e : Entry.t) : bool :=
  match Entry.duplicateStatus e with
  | Some s => String.eqb s "Merged"
  | None => false
  end.

(** ** Bulk ingestion ([bulkUploadExpenses]) *)

Module Results.
Record rowError := mkError { row : nat; error : string; data : Row }.
Record t := make {
  total : nat;
  success : nat;
  failed : nat;
  merged : nat;
  unique : nat;
  errors : list rowError;
}.

Definition initial (n : nat) : t := make n 0 0 0 0 [].

Definition incSuccess (r : t) : t :=
  make (total r) (S (success r)) (failed r) (merged r) (unique r) (errors r).
Definition incFailed (r : t) : t :=
  make (total r) (success r) (S (failed r)) (merged r) (unique r) (errors r).
Definition incMerged (r : t) : t :=
  make (total r) (success r) (failed r) (S (merged r)) (unique r) (errors r).
Definition incUnique (r : t) : t :=
  make (total r) (success r) (failed r) (merged r) (S (unique r)) (errors r).
Definition pushError (e : rowError) (r : t) : t :=
  make (total r) (success r) (failed r) (merged r) (unique r) (errors r ++ [e]).
End Results.

(** [results.failed++; results.errors.push({ row: i + 2, error, data })] *)
Definition failRow (i : nat) (message : string) (row : Row) (r : Results.t) : Results.t :=
  Results.pushError (Results.mkError (i + 2) message row) (Results.incFailed r).

Fixpoint joinWith (sep : string) (l : list string) : string :=
  match l with
  | [] => ""
  | [x] => x
  | x :: rest => x +:+ sep +:+ joinWith sep rest
  end.

Definition allocationsExceedMessage : string :=
  "Shared allocations exceed total amount".

(** The values a row resolves to once it has passed every check. *)
Record Prepared := {
  pCardNumber : string;
  pCardAssignedTo : string;
  pDate : Z;
  pMonth : option string;
  pStatus : enumv;
  pParticulars : jsval;
  pNarration : string;
  pCurrency : string;
  pBillStatus : string;
  pAmount : num;
  pTypeOfService : enumv;
  pBusinessUnit : enumv;
  pCostCenter : enumv;
  pApprovedBy : enumv;
  pServiceHandler : jsval;
  pRecurring : enumv;
  pIsShared : bool;
  pSharedAllocations : list Share;
}.

Section BulkUpload.
Variable h : Host.

(** [raw?.toString().trim()] *)
Definition optTrim (raw : jsval) : option string :=
  match raw with
  | VUndef | VNull => None
  | _ => Some (Str.trim (Val.toStr h raw))
  end.

Definition strTruthy (o : option string) : bool :=
  match o with Some s => Str.nonEmpty s | None => false end.

Definition cardNumberOf (row : Row) : option string :=
  optTrim (getField row
    [ "Card Number/Payment from"; "Card Number/Payment From";
      "Card Number/Pavment from"; "Card Number"; "cardNumber"; "Card No" ]).

Definition cardAssignedToOf (row : Row) : option string :=
  optTrim (getField row ["Card Assigned To"; "cardAssignedTo"; "Card assigned to"]).

Definition dateOf (row : Row) : jsval := getField row ["Date"; "date"].

Definition monthOf (row : Row) : option string :=
  let s := Str.trim (Val.toStr h (Val.or (getField row ["Month"; "month"]) (VStr ""))) in
  if Str.nonEmpty s then Some s else None.

Definition statusRawOf (row : Row) : string :=
  Str.trim (Val.toStr h (Val.or (getField row ["Status"; "status"]) (VStr "Active"))).

Definition statusOf (row : Row) : enumv :=
  match normalizeEnum h (VStr (statusRawOf row)) Tables.statusMap Tables.allowedStatus with
  | Some v => v
  | None => EStr "Active"
  end.

Definition particularsOf (row : Row) : jsval :=
  Val.or (getField row
            [ "Particulars"; "particulars"; "Particulars - from cc statement";
              "Particulars - from the statement" ])
         (VStr "").

Definition narrationOf (row : Row) : string :=
  let narrationRaw :=
    getField row [ "Narration"; "narration"; "Narration - from statement";
                   "Narration - from the statement" ] in
  if Val.truthy narrationRaw then Str.trim (Val.toStr h narrationRaw) else "".

Definition currencyOf (row : Row) : string :=
  Str.trim (Val.toStr h (Val.or (getField row ["Currency"; "currency"]) (VStr "USD"))).

Definition billStatusOf (row : Row) : string :=
  Str.trim (Val.toStr h (Val.or (getField row ["Bill Status"; "billStatus"]) (VStr ""))).

Definition isComma (c : ascii) : bool := Ascii.eqb c ",".

(** [parseFloat(amountRaw ? amountRaw.toString().replace(/,/g, '') : '')].
    On a number the text has no comma and parses back to the number. *)
Definition amountOf (row : Row) : num :=
  let amountRaw :=
    getField row [ "Amount"; "amount"; "Amount (USD/Euro/Any)"; "Amt";
                   "Amt (USD/Euro/Any)" ] in
  if Val.truthy amountRaw then
    match amountRaw with
    | VNum n => n
    | _ => Str.parseFloat (Str.removeChars isComma (Val.toStr h amountRaw))
    end
  else NaN.

Definition typeOfServiceRawOf (row : Row) : jsval :=
  Val.or (getField row
            [ "Types of Tools or Service"; "Type of Tool or Service";
              "typeOfService"; "Type"; "Type of Tool or Service*" ])
         (VStr "").

Definition typeOfServiceOf (row : Row) : option enumv :=
  normalizeEnum h (typeOfServiceRawOf row) Tables.typeMap Tables.allowedTypes.

Definition businessUnitRawOf (row : Row) : string :=
  Str.trim (Val.toStr h (Val.or (getField row ["Business Unit"; "businessUnit"]) (VStr ""))).

Definition businessUnitOf (row : Row) : option enumv :=
  normalizeEnum h (VStr (businessUnitRawOf row))
    Tables.businessUnitMap Tables.allowedBusinessUnits.

Definition costCenterRawOf (row : Row) : jsval :=
  getField row ["Cost Center"; "costCenter"].

Definition costCenterOf (row : Row) : option enumv :=
  normalizeEnum h (costCenterRawOf row) Tables.costCenterMap Tables.allowedCostCenters.

Definition approvedByRawOf (row : Row) : jsval :=
  getField row ["Approved By"; "approvedBy"].

Definition approvedByOf (row : Row) : option enumv :=
  normalizeEnum h (approvedByRawOf row) Tables.approvedByMap Tables.allowedApprovedBy.

Definition serviceHandlerOf (row : Row) : jsval :=
  Val.or (getField row
            [ "Tool or Service Handler"; "Tool or Service Handler (User Name)";
              "serviceHandler"; "Service Handler" ])
         (VStr "").

Definition recurringOf (row : Row) : enumv :=
  recurringOfRaw h (recurringRawOf row).

Definition isSharedRawOf (row : Row) : jsval :=
  Val.nullish
    (getField row ["Is Shared"; "isShared"; "Shared"; "shared"; "Shared Bill?"])
    (VBool false).

Definition sharedAllocRawOf (row : Row) : jsval :=
  Val.nullish
    (getField row [ "Shared Bill"; "Shared Bills"; "sharedBill";
                    "sharedAllocation"; "sharedAllocations" ])
    (VStr "").

(** [item.businessUnit === businessUnit] *)
Definition sameUnit (a b : option enumv) : bool :=
  match a, b with
  | Some x, Some y => enumEqb x y
  | None, None => true
  | _, _ => false
  end.

(** The primary business unit is added with amount 0 when no share
    names it. *)
Definition withPrimary (businessUnit : option enumv) (shares : list Share) : list Share :=
  if existsb (fun item => sameUnit (Alloc.businessUnit item) businessUnit) shares
  then shares
  else shares ++ [Alloc.make businessUnit (Num.ofZ 0)].

Definition keepShare (item : Share) : bool :=
  match Alloc.businessUnit item with
  | Some _ => negb (Num.isNaN (Alloc.amount item)) && Num.ge (Alloc.amount item) (Num.ofZ 0)
  | None => false
  end.

(** The shared block: the message of the failure, or the final
    [isShared] flag and allocation list. *)
Definition sharedBlock (row : Row) : string + (bool * list Share) :=
  let sharedAllocations := parseSharedAllocations h (sharedAllocRawOf row) in
  let isShared :=
    parseBoolean h (isSharedRawOf row) || (0 <? length sharedAllocations)%nat in
  if isShared then
    let sharedAllocations := withPrimary (businessUnitOf row) sharedAllocations in
    let totalShared := totalOf sharedAllocations in
    if Num.gt totalShared (amountOf row) then inl allocationsExceedMessage
    else
      let sharedAllocations := List.filter keepShare sharedAllocations in
      inr ((0 <? length sharedAllocations)%nat, sharedAllocations)
  else inr (false, []).

Definition missingFields (row : Row) : list string :=
  (if strTruthy (cardNumberOf row) then [] else ["Card Number"])
  ++ (if strTruthy (cardAssignedToOf row) then [] else ["Card Assigned To"])
  ++ (if Val.truthy (dateOf row) then [] else ["Date"])
  ++ (if Val.truthy (particularsOf row) then [] else ["Particulars"])
  ++ (if Num.isNaN (amountOf row) then ["Amount"] else [])
  ++ (if isSet (businessUnitOf row) then [] else ["Business Unit"]).

Definition valueOrEmpty (raw : jsval) : string :=
  Val.toStr h (Val.or raw (VStr "empty")).

Definition enumErrors (row : Row) : list string :=
  (if isSet (typeOfServiceOf row) then []
   else ["Type of Service (value: " +:+ valueOrEmpty (typeOfServiceRawOf row) +:+ ")"])
  ++ (if isSet (businessUnitOf row) then []
      else ["Business Unit (value: " +:+ valueOrEmpty (VStr (businessUnitRawOf row)) +:+ ")"])
  ++ (if isSet (costCenterOf row) then []
      else ["Cost Center (value: " +:+ valueOrEmpty (costCenterRawOf row) +:+ ")"])
  ++ (if isSet (approvedByOf row) then []
      else ["Approved By (value: " +:+ valueOrEmpty (approvedByRawOf row) +:+ ")"]).

(** The checks of one row, in the order of the source: the message of
    the first failing check, or the resolved values. The first call of
    [getField] throws when the lookup map has no prototype. The card
    number, the assignee and the four enumerations are set once the
    checks have passed. *)
Definition validateRow (row : Row) : string + Prepared :=
  if protoNulled row then inl notAFunctionMessage else
  match sharedBlock row with
  | inl message => inl message
  | inr (isShared, sharedAllocations) =>
      match missingFields row with
      | (_ :: _) as missing =>
          inl ("Missing required fields: " +:+ joinWith ", " missing)
      | [] =>
          match enumErrors row with
          | (_ :: _) as errs => inl ("Invalid enum: " +:+ joinWith ", " errs)
          | [] =>
              match parseDateValue h (dateOf row) with
              | Some (JsDate.At parsedDate) =>
                  inr {| pCardNumber := default "" (cardNumberOf row);
                         pCardAssignedTo := default "" (cardAssignedToOf row);
                         pDate := parsedDate;
                         pMonth := monthOf row;
                         pStatus := statusOf row;
                         pParticulars := particularsOf row;
                         pNarration := narrationOf row;
                         pCurrency := currencyOf row;
                         pBillStatus := billStatusOf row;
                         pAmount := amountOf row;
                         pTypeOfService := default (EStr "") (typeOfServiceOf row);
                         pBusinessUnit := default (EStr "") (businessUnitOf row);
                         pCostCenter := default (EStr "") (costCenterOf row);
                         pApprovedBy := default (EStr "") (approvedByOf row);
                         pServiceHandler := serviceHandlerOf row;
                         pRecurring := recurringOf row;
                         pIsShared := isShared;
                         pSharedAllocations := sharedAllocations |}
              | _ => inl "Invalid date"
              end
          end
      end
  end.

(** [row[k1] || row[k2] || ...]: the first truthy value, else the last
    one. *)
Fixpoint orChain (row : Row) (keys : list string) : jsval :=
  match keys with
  | [] => VUndef
  | [k] => rowGet row k
  | k :: rest => Val.or (rowGet row k) (orChain row rest)
  end.

(** The exchange rate and the amount in INR: the provided ones when
    usable, else fetched and computed. [inl] when the fetch throws. *)
Definition exchange (row : Row) (p : Prepared) : string + (num * num) :=
  let providedRate :=
    Val.parseFloatOf h (orChain row ["XE"; "xe"; "XE Rate"; "xeRate"]) in
  let fetched :=
    if negb (Num.truthy providedRate) || Num.isNaN providedRate
    then convertToINR h (pAmount p) (pCurrency p)
    else inr providedRate in
  match fetched with
  | inl message => inl message
  | inr rate =>
      let providedInINR :=
        Val.parseFloatOf h
          (orChain row ["Amt INR"; "Amount in INR"; "amountInINR"; "Amount (INR)"]) in
      inr (rate,
           if Num.truthy providedInINR && negb (Num.isNaN providedInINR)
           then providedInINR else Num.mul (pAmount p) rate)
  end.

Definition nextRenewalDateOf (p : Prepared) : option jsdate :=
  if enumEqb (pRecurring p) (EStr "Monthly")
  then Some (JsDate.plusOneMonth (localTZA h) (pDate p))
  else if enumEqb (pRecurring p) (EStr "Yearly")
  then Some (JsDate.plusOneYear (localTZA h) (pDate p))
  else None.

Definition keyOf (p : Prepared) : DuplicateKey :=
  {| keyCardNumber := pCardNumber p;
     keyDate := JsDate.At (pDate p);
     keyParticulars := Val.toStr h (pParticulars p);
     keyBusinessUnit := pBusinessUnit p;
     keyAmount := pAmount p;
     keyCurrency := pCurrency p |}.

(** The document handed to [ExpenseEntry.create]. *)
Definition newEntry (user : nat) (id : nat) (p : Prepared) (rate amountInINR : num) : Entry.t :=
  Entry.make id (pCardNumber p) (pCardAssignedTo p) (JsDate.At (pDate p))
    (match pMonth p with
     | Some m => m
     | None => monthLabel h (JsDate.At (pDate p))
     end)
    (pStatus p)
    (Val.toStr h (pParticulars p))
    (if Str.nonEmpty (pNarration p) then pNarration p else Val.toStr h (pParticulars p))
    (pCurrency p) (pBillStatus p) (pAmount p) rate amountInINR
    (pTypeOfService p) (pBusinessUnit p) (pCostCenter p) (pApprovedBy p)
    (Val.toStr h (pServiceHandler p)) (pRecurring p)
    "Accepted" (Some "Unique") user (nextRenewalDateOf p)
    (pIsShared p) (pSharedAllocations p) false false.

(** One iteration of the loop over the rows. *)
Definition processRow (user : nat) (i : nat) (row : Row)
    (st : Store * Results.t) : Store * Results.t :=
  let '(store, results) := st in
  match validateRow row with
  | inl message => (store, failRow i message row results)
  | inr p =>
      match exchange row p with
      | inl message => (store, failRow i message row results)
      | inr (rate, amountInINR) =>
          match findOne store (keyOf p) with
          | Some duplicateEntry =>
              let results := Results.incMerged results in
              if isMerged duplicateEntry then (store, Results.incSuccess results)
              else
                match saveError h (setDuplicateStatus (Some "Merged") duplicateEntry) with
                | Some message => (store, failRow i message row results)
                | None =>
                    (updateById (Entry._id duplicateEntry)
                       (setDuplicateStatus (Some "Merged")) store,
                     Results.incSuccess results)
                end
          | None =>
              let results := Results.incUnique results in
              let doc := newEntry user (freshId store) p rate amountInINR in
              match createError h doc with
              | Some message => (store, failRow i message row results)
              | None => ((store ++ [doc])%list, Results.incSuccess results)
              end
          end
      end
  end.

Fixpoint processRows (user : nat) (i : nat) (data : list Row)
    (st : Store * Results.t) : Store * Results.t :=
  match data with
  | [] => st
  | row :: rest => processRows user (S i) rest (processRow user i row st)
  end.

Inductive bulkResponse :=
| NoData
| Completed (results : Results.t).

(** The handler once the file has been read into [data]. *)
Definition bulkUploadExpenses (user : nat) (data : list Row) (store : Store)
    : bulkResponse * Store :=
  match data with
  | [] => (NoData, store)
  | _ :: _ =>
      let '(store', results) :=
        processRows user 0 data (store, Results.initial (length data)) in
      (Completed results, store')
  end.
End BulkUpload.

Arguments processRow : simpl never.

(** ** Single-record validation ([validateSharedAllocations]) *)

(** The [sharedAllocations] argument: falsy, an array, or another truthy
    value, on which [.map] is not a function. *)
Inductive allocArg :=
| ArgFalsy
| ArgArray (items : list jitem)
| ArgOther.

Inductive validationError :=
| ExceedsTotal   (* Error('Shared allocations exceed total amount') *)
| TypeError.     (* a property of null, or map of a non-array *)

(** [a === b]; two objects read from a request body are never the same
    object. *)
Definition strictEq (a b : jsval) : bool :=
  match a, b with
  | VUndef, VUndef | VNull, VNull => true
  | VBool x, VBool y => Bool.eqb x y
  | VNum x, VNum y => Num.eqb x y
  | VStr x, VStr y => String.eqb x y
  | _, _ => false
  end.

Section SingleRecord.
Variable h : Host.

(** [{ businessUnit: item.businessUnit, amount: Number(item.amount) || 0 }];
    [None] when the item is [null]. *)
Definition cleanItem (item : jitem) : option (Alloc.t jsval) :=
  match item with
  | JNull => None
  | JProps props =>
      Some (Alloc.make (propGet props "businessUnit")
              (Num.orZero (Val.toNumber h (propGet props "amount"))))
  end.

Fixpoint cleanItems (items : list jitem) : option (list (Alloc.t jsval)) :=
  match items with
  | [] => Some []
  | item :: rest =>
      match cleanItem item, cleanItems rest with
      | Some a, Some l => Some (a :: l)
      | _, _ => None
      end
  end.

Definition keepCleaned (item : Alloc.t jsval) : bool :=
  Val.truthy (Alloc.businessUnit item) && Num.gt (Alloc.amount item) (Num.ofZ 0).

Definition withPrimaryBU (primaryBU : jsval) (cleaned : list (Alloc.t jsval))
    : list (Alloc.t jsval) :=
  if existsb (fun item => strictEq (Alloc.businessUnit item) primaryBU) cleaned
  then cleaned
  else cleaned ++ [Alloc.make primaryBU (Num.ofZ 0)].

Definition validateSharedAllocations (isShared : jsval) (sharedAllocations : allocArg)
    (totalAmount primaryBU : jsval)
    : validationError + (bool * list (Alloc.t jsval)) :=
  if negb (Val.truthy isShared) then inr (false, [])
  else
    let mapped :=
      match sharedAllocations with
      | ArgFalsy => Some []
      | ArgArray items => cleanItems items
      | ArgOther => None
      end in
    match mapped with
    | None => inl TypeError
    | Some l =>
        let cleaned := withPrimaryBU primaryBU (List.filter keepCleaned l) in
        let total := totalOf cleaned in
        if Num.gt total (Val.toNumber h (Val.or totalAmount (VNum (Num.ofZ 0))))
        then inl ExceedsTotal
        else inr (true, cleaned)
    end.



Section Create.
(** The handler after the validation: duplicate check, creation and
    notices, given the validated payload. *)
Variable rest : bool * list (Alloc.t jsval) -> Store -> nat * Store.


End Create.
End SingleRecord.

(** ** Scheduled jobs ([cronJobs.js]) *)

(** Modelled from the spec: the users of [models/User.js], which is not
    among the sources, with the fields the jobs read. *)
Record User := {
  userId : nat;
  userName : string;
  userEmail : string;
  userRole : string;
  userBusinessUnit : enumv;
}.


(** What a job sends out. *)
Inductive outbound :=
| Email (kind : string) (to : string) (entry : nat)
| Notification (user : nat) (kind : string) (entry : nat).


Definition isSpace (c : ascii) : bool := Ascii.eqb c " ".

(** [buildNamePattern(name)]: the alternatives of the pattern, the full
    name first and then its tokens; [None] is [undefined]. Every
    alternative is matched literally, anywhere, ignoring case. *)
Definition buildNamePattern (name : string) : option (list string) :=
  if negb (Str.nonEmpty name) then None
  else
    Some (name :: List.filter Str.nonEmpty (map Str.trim (Str.splitOn isSpace name))).

Definition patternTest (pattern : list string) (s : string) : bool :=
  existsb (fun alt => Str.contains (Str.toLowerCase alt) (Str.toLowerCase s)) pattern.



Section Jobs.
Variable h : Host.



(** The first and the last millisecond of the local day that lies
    [days] days after [now]; [None] when either falls outside the range
    of a date. *)
Definition dayWindow (now days : Z) : option (Z * Z) :=
  let targetDate :=
    JsDate.setDate (localTZA h) (JsDate.At now) (JsDate.getDate (localTZA h) now + days) in
  match JsDate.setHours (localTZA h) targetDate 0 0 0 0 with
  | JsDate.Invalid => None
  | JsDate.At start =>
      match JsDate.setHours (localTZA h) (JsDate.At start) 23 59 59 999 with
      | JsDate.Invalid => None
      | JsDate.At finish => Some (start, finish)
      end
  end.





(** The filter of the rollover job. *)
Definition resetCandidate (now : Z) (e : Entry.t) : bool :=
  match Entry.nextRenewalDate e with
  | Some (JsDate.At d) => (d <? now) && Entry.renewalNotificationSent e
  | _ => false
  end.

Definition advance (step : Z -> jsdate) (d : jsdate) : jsdate :=
  match d with
  | JsDate.At t => step t
  | JsDate.Invalid => JsDate.Invalid
  end.

(** The next renewal date written by the rollover job. *)
Definition rolledDate (e : Entry.t) : option jsdate :=
  match Entry.nextRenewalDate e with
  | None => None
  | Some nextDate =>
      if enumEqb (Entry.recurring e) (EStr "Monthly")
      then Some (advance (JsDate.plusOneMonth (localTZA h)) nextDate)
      else if enumEqb (Entry.recurring e) (EStr "Yearly")
      then Some (advance (JsDate.plusOneYear (localTZA h)) nextDate)
      else Some nextDate
  end.

(** One [updateOne] of the bulk write. *)
Definition applyReset (store : Store) (entry : Entry.t) : Store :=
  updateById (Entry._id entry)
    (fun e => setRenewalNotificationSent false (setNextRenewalDate (rolledDate entry) e))
    store.

(** [runRenewalFlagResetOnce] *)
Definition runRenewalFlagResetOnce (now : Z) (store : Store) : Store :=
  let candidates := List.filter (resetCandidate now) store in
  match candidates with
  | [] => store
  | _ :: _ => fold_left applyReset candidates store
  end.
End Jobs.

(** ** The trigger endpoints (cron router) *)

Inductive cronJob :=
| RenewalReminders
| RejectedCleanup
| RenewalFlagReset
| ExchangeRefresh
| AutoCancel.

Definition cronPath (j : cronJob) : string :=
  match j with
  | RenewalReminders => "/renewal-reminders"
  | RejectedCleanup => "/rejected-cleanup"
  | RenewalFlagReset => "/renewal-flag-reset"
  | ExchangeRefresh => "/exchange-refresh"
  | AutoCancel => "/auto-cancel"
  end.

Inductive cronResponse :=
| Unauthorized   (* 401 { success: false, message: 'Unauthorized cron caller' } *)
| NoContent      (* 204 *)
| HandlerFailed. (* 500 { success: false, message: 'Cron handler failed' } *)

Definition statusCode (r : cronResponse) : nat :=
  match r with
  | Unauthorized => 401
  | NoContent => 204
  | HandlerFailed => 500
  end.

(** [verifyCronAuth]: [true] when the request goes on to the handler.
    [secret] is [process.env.CRON_SECRET] and [token] the [x-cron-token]
    header. *)
Definition verifyCronAuth (secret token : option string) : bool :=
  match secret with
  | Some s =>
      if Str.nonEmpty s then
        match token with
        | Some t => String.eqb t s
        | None => false
        end
      else true
  | None => true
  end.

Section CronRouter.
(** The state the jobs work on, and a run of a job: the state it leaves
    and whether it returned ([true]) or threw ([false]). *)
Variable World : Type.
Variable run : cronJob -> World -> World * bool.

(** [wrap(fn)] *)
Definition wrap (j : cronJob) (w : World) : cronResponse * World :=
  let '(w', completed) := run j w in
  (if completed then NoContent else HandlerFailed, w').

(** [router.post(path, verifyCronAuth, wrap(job))] *)
Definition trigger (secret token : option string) (j : cronJob) (w : World)
    : cronResponse * World :=
  if verifyCronAuth secret token then wrap j w else (Unauthorized, w).
End CronRouter.

(** ** Reference definitions and sample data *)

(** The recurring canonicalization as the specification words it: the
    alias table under lower-cased keys, read through [normalizeEnum], then
    the members of the enumeration, then the default. *)
Definition allowedRecurring : list string := ["One-time"; "Monthly"; "Yearly"].

Definition specRecurringTable : gmap string string :=
  list_to_map (map (fun kv => (Str.toLowerCase (fst kv), snd kv)) Tables.recurringPairs).

Definition specRecurring (h : Host) (raw : jsval) : enumv :=
  match normalizeEnum h raw specRecurringTable allowedRecurring with
  | Some v => v
  | None => EStr "One-time"
  end.

(** The spreadsheet epoch 1899-12-30T00:00:00Z as a time value, and the
    serial that encodes a time value. *)
Definition excelEpoch : Z := -2209161600000.

Definition serialOfTime (t : Z) : Q := (t - excelEpoch) # 86400000.

(** The seconds the decoder adds to the whole days of a serial: the
    fraction of the day and its product with 86400, each rounded to a
    double, then the nearest integer. *)
Definition serialSeconds (q : Q) : Z :=
  Qfloor (Num.roundQ (Num.roundQ (q - inject_Z (Qfloor q)) * 86400) + (1 # 2))%Q.



(** The amounts of a list of shares are the whole numbers [ns]. *)
Definition wholeAmounts {B} (items : list (Alloc.t B)) (ns : list Z) : Prop :=
  map Alloc.amount items = map Num.ofZ ns.

Definition sumZ (ns : list Z) : Z := fold_right Z.add 0 ns.


(** A host for the examples: local time is UTC, no text is a date or a
    JSON array for the host, the rate is 83 and the schema accepts every
    document. *)
Definition demoHost : Host :=
  {| localTZA := fun _ _ => 0;
     numberToString := fun _ => "0";
     dateToString := fun _ => "Invalid Date";
     dateParse := fun s =>
       if String.eqb s "05-Jan-25" then JsDate.At 1736035200000
       else JsDate.Invalid;
     stringToNumber := Str.parseFloat;
     jsonParseArray := fun _ => None;
     convertToINR := fun _ _ => inr (Num.ofZ 83);
     createError := fun _ => None;
     saveError := fun _ => None;
     monthLabel := fun _ => "Jan 2025";
     dropsUndefinedFilter := false |}.

(** Modelled from the spec: the schema of the records
    ([models/ExpenseEntry.js] is not among the sources) admits One-time,
    Monthly and Yearly for [recurring]; [create] throws a validation
    error on any other value. *)
Definition recurringValidationMessage : string :=
  "ExpenseEntry validation failed: recurring".

Definition schemaCreateError (e : Entry.t) : option string :=
  if existsb (enumEqb (Entry.recurring e)) (map EStr allowedRecurring)
  then None else Some recurringValidationMessage.

(** The example host with that schema. *)
Definition strictHost : Host :=
  {| localTZA := localTZA demoHost;
     numberToString := numberToString demoHost;
     dateToString := dateToString demoHost;
     dateParse := dateParse demoHost;
     stringToNumber := stringToNumber demoHost;
     jsonParseArray := jsonParseArray demoHost;
     convertToINR := convertToINR demoHost;
     createError := schemaCreateError;
     saveError := saveError demoHost;
     monthLabel := monthLabel demoHost;
     dropsUndefinedFilter := dropsUndefinedFilter demoHost |}.

(** The row of the scenario of the specification. *)
Definition scenarioRow : Row :=
  [ ("Card Number", VStr "M003"); ("Card Assigned To", VStr "John Doe");
    ("Date", VStr "05-Jan-25"); ("Particulars", VStr "ChatGPT");
    ("Amount", VNum (Fin 200)); ("Currency", VStr "USD");
    ("Types of Tools or Service", VStr "Tool");
    ("Business Unit", VStr "Wytlabs"); ("Cost Center", VStr "Ops");
    ("Approved By", VStr "Raghav"); ("Recurring", VStr "Yearly") ].

(** The same row with a recurring value that names a member of
    [Object.prototype]. *)
Definition inheritedRecurringRow : Row :=
  [ ("Card Number", VStr "M003"); ("Card Assigned To", VStr "John Doe");
    ("Date", VStr "05-Jan-25"); ("Particulars", VStr "ChatGPT");
    ("Amount", VNum (Fin 200)); ("Currency", VStr "USD");
    ("Types of Tools or Service", VStr "Tool");
    ("Business Unit", VStr "Wytlabs"); ("Cost Center", VStr "Ops");
    ("Approved By", VStr "Raghav"); ("Recurring", VStr "constructor") ].

(** A host whose local time has the same offset [z] all year. *)
Definition fixedOffset (h : Host) (z : Z) : Prop :=
  forall t isUTC, localTZA h t isUTC = z.





(** Central European time in 2025: one hour ahead of UTC, and two from
    30 March 01:00 UTC to 26 October 01:00 UTC. A local time that the
    change skips or repeats is read with the offset before the change. *)
Definition berlinTZA (t : Z) (isUTC : bool) : Z :=
  let u := if isUTC then t else t - 7200000 in
  if (1743296400000 <=? u) && (u <? 1761440400000) then 7200000 else 3600000.

Definition berlinHost : Host :=
  {| localTZA := berlinTZA;
     numberToString := numberToString demoHost;
     dateToString := dateToString demoHost;
     dateParse := dateParse demoHost;
     stringToNumber := stringToNumber demoHost;
     jsonParseArray := jsonParseArray demoHost;
     convertToINR := convertToINR demoHost;
     createError := createError demoHost;
     saveError := saveError demoHost;
     monthLabel := monthLabel demoHost;
     dropsUndefinedFilter := dropsUndefinedFilter demoHost |}.

(** What the rollover job writes to a candidate. *)
Definition resetEntry (h : Host) (e : Entry.t) : Entry.t :=
  setRenewalNotificationSent false (setNextRenewalDate (rolledDate h e) e).




(** Sample data for the jobs: a monthly subscription handled by Raghav,
    due on 2025-01-10, seen from 2025-01-05 14:00 UTC. *)
Definition demoEntry : Entry.t :=
  Entry.make 1 "M003" "John Doe" (JsDate.At 1733788800000) "Dec 2024"
    (EStr "Active") "ChatGPT" "ChatGPT" "USD" "" (Fin 200) (Fin 83) (Fin 16600)
    (EStr "Tool") (EStr "Wytlabs") (EStr "Ops") (EStr "Raghav") "Raghav"
    (EStr "Monthly") "Accepted" (Some "Unique") 7
    (Some (JsDate.At 1736467200000)) false [] false false.



Definition demoNow : Z := 1736085600000.



Definition readOnlyHost : Host :=
  {| localTZA := localTZA demoHost;
     numberToString := numberToString demoHost;
     dateToString := dateToString demoHost;
     dateParse := dateParse demoHost;
     stringToNumber := stringToNumber demoHost;
     jsonParseArray := jsonParseArray demoHost;
     convertToINR := convertToINR demoHost;
     createError := createError demoHost;
     saveError := fun _ => Some "save refused";
     monthLabel := monthLabel demoHost;
     dropsUndefinedFilter := dropsUndefinedFilter demoHost |}.

(** The record the example host creates for the row of the scenario. *)
Definition scenarioStore : Store :=
  fst (processRow demoHost 7 0 scenarioRow ([], Results.initial 1)).



(** The counters of a summary after [n] rows. *)
Definition summaryAfter (n : nat) (r : Results.t) : Prop :=
  (Results.success r + Results.failed r = n)%nat
  /\ length (Results.errors r) = Results.failed r
  /\ (Results.success r <= Results.merged r + Results.unique r)%nat.

(** A row that is not flagged as shared but carries an allocation. *)
Definition unflaggedSharedRow : Row :=
  [ ("Card Number", VStr "M003"); ("Card Assigned To", VStr "John Doe");
    ("Date", VStr "13-05-2024"); ("Particulars", VStr "ChatGPT");
    ("Amount", VStr "100"); ("Currency", VStr "USD");
    ("Types of Tools or Service", VStr "Tool");
    ("Business Unit", VStr "Wytlabs"); ("Cost Center", VStr "Ops");
    ("Approved By", VStr "Raghav"); ("Is Shared", VStr "No");
    ("Shared Bill", VStr "Collabx: 50") ].

(** The scenario of the specification: 200 for Wytlabs and 150 for
    Collabx on an entry of 300 that belongs to Wytlabs. *)
Definition overAllocatedRow : Row :=
  [ ("Card Number", VStr "M003"); ("Card Assigned To", VStr "John Doe");
    ("Date", VStr "13-05-2024"); ("Particulars", VStr "ChatGPT");
    ("Amount", VStr "300"); ("Currency", VStr "USD");
    ("Types of Tools or Service", VStr "Tool");
    ("Business Unit", VStr "Wytlabs"); ("Cost Center", VStr "Ops");
    ("Approved By", VStr "Raghav"); ("Is Shared", VStr "Yes");
    ("Shared Bill", VStr "Wytlabs: 200, Collabx: 150") ].




Definition overAllocatedItems : list jitem :=
  [ JProps [("businessUnit", VStr "Wytlabs"); ("amount", VNum (Fin 200))];
    JProps [("businessUnit", VStr "Collabx"); ("amount", VNum (Fin 150))] ].



(** A job runner for the examples: the state counts the runs, and the
    exchange refresh is the one job that throws. *)
Definition countingRun (j : cronJob) (w : nat) : nat * bool :=
  (S w, match j with ExchangeRefresh => false | _ => true end).

(** * The rest of the three files *)

(** ** Vocabulary for the upload *)

(** The form under which [getField] compares a header and an alias. *)
Definition headerKey (s : string) : string := Str.toLowerCase (Str.trim s).

(** The value of the last column of the row whose header has the given
    normal form, if there is one. *)
Fixpoint lastColumn (row : Row) (n : string) : option jsval :=
  match row with
  | [] => None
  | (k, v) :: rest =>
      match lastColumn rest n with
      | Some v' => Some v'
      | None => if String.eqb (headerKey k) n then Some v else None
      end
  end.

(** The first alias, in the order given, for which the row has a column;
    [undefined] when there is none. *)
Fixpoint firstAliasValue (row : Row) (aliases : list string) : jsval :=
  match aliases with
  | [] => VUndef
  | alias :: rest =>
      match (if Str.nonEmpty (headerKey alias)
             then lastColumn row (headerKey alias) else None) with
      | Some v => v
      | None => firstAliasValue row rest
      end
  end.

(** The five enumerations of the upload that go through [normalizeEnum],
    each an alias table with its allowed values. *)
Definition enumTables : list (gmap string string * list string) :=
  [ (Tables.typeMap, Tables.allowedTypes);
    (Tables.costCenterMap, Tables.allowedCostCenters);
    (Tables.businessUnitMap, Tables.allowedBusinessUnits);
    (Tables.statusMap, Tables.allowedStatus);
    (Tables.approvedByMap, Tables.allowedApprovedBy) ].

(** A result of a lookup in an enumeration: one of its allowed values, or
    a member of [Object.prototype]. *)
Definition canonicalResult (allowedSet : list string) (r : enumv) : Prop :=
  match r with
  | EStr a => In a allowedSet
  | EProto k => isPrototypeKey k = true
  end.

(** A number greater than 0: a positive double or [Infinity]; and a
    number that is not less than 0. *)
Definition positiveNum (n : num) : Prop :=
  match n with
  | Fin q => (0 < q)%Q
  | Inf negative => negative = false
  | NaN => False
  end.

Definition nonNegativeNum (n : num) : Prop :=
  match n with
  | Fin q => (0 <= q)%Q
  | Inf negative => negative = false
  | NaN => False
  end.

(** A share read from an upload: a resolved business unit and a positive
    amount. *)
Definition positiveShare (s : Share) : Prop :=
  exists b, Alloc.businessUnit s = Some b
            /\ positiveNum (Alloc.amount s)
            /\ canonicalResult Tables.allowedBusinessUnits b.

(** A share of a record the upload creates: a business unit and an
    amount that is not negative. *)
Definition storedShare (s : Share) : Prop :=
  exists b, Alloc.businessUnit s = Some b /\ nonNegativeNum (Alloc.amount s).

(** What the upload may do to a record that is already stored: nothing,
    or mark it as merged. *)
Definition keptOrMerged (e e' : Entry.t) : Prop :=
  e' = e \/ e' = setDuplicateStatus (Some "Merged") e.

(** A record the upload has created for [user], possibly marked as merged
    by a later row of the same file. *)
Definition uploadedBy (h : Host) (user : nat) (e : Entry.t) : Prop :=
  exists id p rate amountInINR, keptOrMerged (newEntry h user id p rate amountInINR) e.

(** How the counters of a summary move from [r] to [r'] over rows that
    add [n] records: each record was counted as unique, and each success
    as merged or as a record, the merged rows that the store refused to
    write being counted as merged without being a success. *)
Definition countsAdded (h : Host) (n : nat) (r r' : Results.t) : Prop :=
  (n + Results.unique r <= Results.unique r')%nat
  /\ (Results.merged r + Results.success r'
      <= n + Results.merged r' + Results.success r)%nat
  /\ ((forall e, saveError h e = None) ->
      (n + Results.merged r' + Results.success r
       = Results.merged r + Results.success r')%nat)
  /\ ((forall e, createError h e = None) ->
      (n + Results.unique r = Results.unique r')%nat).

(** A share of a validated payload: a named unit with a positive amount,
    or the primary business unit with amount 0. *)
Definition validShare (primaryBU : jsval) (item : Alloc.t jsval) : Prop :=
  (Val.truthy (Alloc.businessUnit item) = true /\ positiveNum (Alloc.amount item))
  \/ item = Alloc.make primaryBU (Num.ofZ 0).

(** ** Vocabulary for texts *)

(** The words of a name: [name.split(' ').map(trim).filter(Boolean)]. *)
Definition nameTokens (name : string) : list string :=
  List.filter Str.nonEmpty (map Str.trim (Str.splitOn isSpace name)).

(** [t] occurs in [s]. *)
Definition occursIn (t s : string) : Prop := exists a b, s = a +:+ t +:+ b.

(** A text with no white space at either end. *)
Definition trimmed (s : string) : Prop := Str.trim s = s.

(** No character of the class occurs in the text. *)
Fixpoint free (cls : ascii -> bool) (s : string) : bool :=
  match s with
  | EmptyString => true
  | String c r => negb (cls c) && free cls r
  end.

(** ** Filters of the list and export endpoints *)

(** [/^\d{2}-\d{2}-\d{4}$/.test(value)] *)
Definition isDayMonthYear (value : string) : bool :=
  let '(dd, r1) := Str.span Str.isDigit value in
  (String.length dd =? 2)%nat &&
  match r1 with
  | String "-" r2 =>
      let '(mm, r3) := Str.span Str.isDigit r2 in
      (String.length mm =? 2)%nat &&
      match r3 with
      | String "-" yyyy =>
          Str.allChars Str.isDigit yyyy && (String.length yyyy =? 4)%nat
      | _ => false
      end
  | _ => false
  end.

(** A day, a month and a year written with two, two and four digits. *)
Definition dayMonthYear (dd mm yyyy : string) : Prop :=
  Str.allChars Str.isDigit dd = true /\ String.length dd = 2%nat
  /\ Str.allChars Str.isDigit mm = true /\ String.length mm = 2%nat
  /\ Str.allChars Str.isDigit yyyy = true /\ String.length yyyy = 4%nat.

(** An element of a destructured array inside a template literal: a
    missing element reads ["undefined"]. *)
Definition element (parts : list string) (i : nat) : string :=
  match parts !! i with
  | Some s => s
  | None => "undefined"
  end.

(** [parseFilterDate(value, endOfDay)] on the text of a query parameter;
    [None] is [undefined]. The two controllers declare the same
    function. *)
Definition parseFilterDate (h : Host) (value : string) (endOfDay : bool)
    : option jsdate :=
  if negb (Str.nonEmpty value) then None
  else if isDayMonthYear value then
    let parts := Str.splitOn isDash value in
    let dd := element parts 0 in
    let mm := element parts 1 in
    let yyyy := element parts 2 in
    let iso :=
      yyyy +:+ "-" +:+ mm +:+ "-" +:+ dd +:+ "T"
      +:+ (if endOfDay then "23:59:59.999" else "00:00:00.000") +:+ "Z" in
    Some (dateParse h iso)
  else Some (dateParse h value).

(** The characters of [/[.*+?^${}()|[\]\\]/]. *)
Definition isRegexSpecial (c : ascii) : bool :=
  existsb (Ascii.eqb c)
    [ "."; "*"; "+"; "?"; "^"; "$"; "{"; "}"; "("; ")"; "|"; "["; "]"; "\" ]%char.

(** [value.replace(/[.*+?^${}()|[\]\\]/g, '\\$&')] *)
Fixpoint escapeRegex (value : string) : string :=
  match value with
  | EmptyString => EmptyString
  | String c r =>
      if isRegexSpecial c then String "\" (String c (escapeRegex r))
      else String c (escapeRegex r)
  end.

(** [parseMultiValues(value)] on a parameter that is absent or a text. *)
Definition parseMultiValues (value : option string) : list string :=
  match value with
  | None => []
  | Some s => List.filter Str.nonEmpty (map Str.trim (Str.splitOn isComma s))
  end.

(** A [RegExp] object. *)
Record RegExp := { source : string; flags : string }.

Definition buildRegexList (values : list string) : list RegExp :=
  map (fun val => {| source := escapeRegex val; flags := "i" |}) values.

(** An end of a range: a date or a number. *)
Inductive bound :=
| BDate (d : jsdate)
| BNum (n : num).

(** The conditions a query holds under a key. *)
#[warnings="-register-all"]
Inductive qvalue :=
| QVal (v : jsval)                                (* a value to equal *)
| QRegExp (r : RegExp)                            (* a RegExp object *)
| QIn (rs : list RegExp)                          (* { $in: [...] } *)
| QRegex (pattern options : string)               (* { $regex, $options } *)
| QRange (gte lte : option bound)                 (* { $gte, $lte } *)
| QClauses (cs : list (list (string * qvalue))).  (* an array of objects *)

(** A query object, and an object literal inside one. *)
Abbreviation Query := (gmap string qvalue).
Abbreviation Clause := (list (string * qvalue)).

Definition qTruthy (v : qvalue) : bool :=
  match v with
  | QVal v => Val.truthy v
  | _ => true
  end.

(** The elements of the array under a key, none when the key is unset. *)
Definition clausesAt (query : Query) (key : string) : list Clause :=
  match query !! key with
  | Some (QClauses cs) => cs
  | _ => []
  end.

(** [regexes.length === 1 ? regexes[0] : { $in: regexes }] *)
Definition singleOrIn (regexes : list RegExp) : qvalue :=
  match regexes with
  | [r] => QRegExp r
  | _ => QIn regexes
  end.

(** [applyMultiValueFilter(query, field, rawValue)]: the query it leaves,
    for a field that [Object.prototype] has no member of (the export
    passes [serviceHandler] and [cardAssignedTo]). *)
Definition applyMultiValueFilter (query : Query) (field : string)
    (rawValue : option string) : Query :=
  let values := parseMultiValues rawValue in
  match values with
  | [] => query
  | _ :: _ =>
      let regexes := buildRegexList values in
      let clause := singleOrIn regexes in
      match query !! field with
      | Some existing =>
          if qTruthy existing then
            <["$and" := QClauses (clausesAt (delete field query) "$and"
                                  ++ [[(field, existing)]; [(field, clause)]])%list]>
              (delete field query)
          else <[field := clause]> query
      | None => <[field := clause]> query
      end
  end.

(** A condition is in force in a query when it stands under its key or as
    an element of the conjunction under [$and]. *)
Definition inForce (query : Query) (k : string) (v : qvalue) : Prop :=
  query !! k = Some v \/ In [(k, v)] (clausesAt query "$and").

(** The clause [applyMultiValueFilter] builds from the values. *)
Definition multiValueClause (values : list string) : qvalue :=
  singleOrIn (buildRegexList values).

(** [req.query]: the parameters given once, as texts. *)
Abbreviation Params := (gmap string string).

(** A parameter when it is truthy. *)
Definition param (params : Params) (name : string) : option string :=
  match params !! name with
  | Some s => if Str.nonEmpty s then Some s else None
  | None => None
  end.

(** [if (value) query[name] = value] for the parameter of that name. *)
Definition setParam (params : Params) (name : string) (query : Query) : Query :=
  match param params name with
  | Some s => <[name := QVal (VStr s)]> query
  | None => query
  end.

(** The pattern of a service handler's own entries:
    [[escapedName, ...tokens].join('|')]. *)
Definition namePatternSource (name : string) : string :=
  joinWith "|" (escapeRegex name :: map escapeRegex (nameTokens name)).

Section Queries.
Variable h : Host.

(** The range [{ $gte: parseFilterDate(from), $lte: parseFilterDate(to, true) }]
    with each end set when its parameter is. *)
Definition dateRange (from to : option string) : qvalue :=
  QRange (match from with
          | Some s => BDate <$> parseFilterDate h s false
          | None => None
          end)
         (match to with
          | Some s => BDate <$> parseFilterDate h s true
          | None => None
          end).

Definition setIsShared (params : Params) (query : Query) : Query :=
  match params !! "isShared" with
  | Some "true" => <["isShared" := QVal (VBool true)]> query
  | Some "false" => <["isShared" := QVal (VBool false)]> query
  | _ => query
  end.

Definition setDuplicateStatusFilter (params : Params) (query : Query) : Query :=
  match param params "duplicateStatus" with
  | Some s =>
      if existsb (String.eqb s) ["Merged"; "Unique"]
      then <["duplicateStatus" := QVal (VStr s)]> query else query
  | None => query
  end.

Definition setDateRange (params : Params) (query : Query) : Query :=
  let startDate := param params "startDate" in
  let endDate := param params "endDate" in
  if isSet startDate || isSet endDate
  then <["date" := dateRange startDate endDate]> query else query.

(** The filter on the date of deactivation. *)
Definition setDisableRange (params : Params) (query : Query) : Query :=
  let disableStartDate := param params "disableStartDate" in
  let disableEndDate := param params "disableEndDate" in
  if isSet disableStartDate || isSet disableEndDate then
    let range := dateRange disableStartDate disableEndDate in
    let query :=
      if isSet (param params "status") then query
      else <["status" := QVal (VStr "Deactive")]> query in
    let disableClauses : list Clause :=
      [ [("disabledAt", range)];
        [("$and", QClauses [ [("status", QVal (VStr "Deactive"))];
                             [("updatedAt", range)] ])] ] in
    <["$or" := QClauses (clausesAt query "$or" ++ disableClauses)%list]> query
  else query.

Definition setAmountRange (params : Params) (query : Query) : Query :=
  let minAmount := param params "minAmount" in
  let maxAmount := param params "maxAmount" in
  if isSet minAmount || isSet maxAmount then
    <["amountInINR" :=
        QRange ((fun s => BNum (Str.parseFloat s)) <$> minAmount)
               ((fun s => BNum (Str.parseFloat s)) <$> maxAmount)]> query
  else query.

Definition setSearch (fields : list string) (params : Params) (query : Query) : Query :=
  match param params "search" with
  | Some search =>
      let searchClause : list Clause :=
        map (fun field => [(field, QRegex search "i")]) fields in
      <["$or" := QClauses (clausesAt query "$or" ++ searchClause)%list]> query
  | None => query
  end.

(** Entries that are not accepted are shown to a SPOC only, unless the
    filter on the date of deactivation is in use. *)
Definition setVisibility (role : string) (params : Params) (query : Query) : Query :=
  if negb (String.eqb role "spoc")
     && negb (isSet (param params "disableStartDate")
              || isSet (param params "disableEndDate"))
  then <["entryStatus" := QVal (VStr "Accepted")]> query else query.

(** The query of [getExpenseEntries] for a user with the given role, name
    and business unit. *)
Definition listQuery (role name : string) (userBusinessUnit : jsval)
    (params : Params) : Query :=
  let query : Query := ∅ in
  let query :=
    if String.eqb role "business_unit_admin" || String.eqb role "spoc"
    then <["businessUnit" := QVal userBusinessUnit]> query else query in
  let query :=
    if String.eqb role "service_handler"
    then <["serviceHandler" := QRegex (namePatternSource name) "i"]>
           (<["businessUnit" := QVal userBusinessUnit]> query)
    else query in
  let query := setParam params "businessUnit" query in
  let query := setParam params "cardNumber" query in
  let query := setParam params "status" query in
  let query := setParam params "month" query in
  let query := setParam params "typeOfService" query in
  let query := setParam params "serviceHandler" query in
  let query := setParam params "costCenter" query in
  let query := setParam params "approvedBy" query in
  let query := setParam params "recurring" query in
  let query := setIsShared params query in
  let query := setDuplicateStatusFilter params query in
  let query := setDateRange params query in
  let query := setDisableRange params query in
  let query := setAmountRange params query in
  let query :=
    setSearch ["particulars"; "narration"; "cardNumber"; "serviceHandler"]
      params query in
  setVisibility role params query.

Definition scopedRoles : list string :=
  ["business_unit_admin"; "spoc"; "service_handler"].

(** The query of [exportExpenses]. *)
Definition exportQuery (role name : string) (userBusinessUnit : jsval)
    (params : Params) : Query :=
  let query : Query := ∅ in
  let scoped := existsb (String.eqb role) scopedRoles in
  let query :=
    if scoped then <["businessUnit" := QVal userBusinessUnit]> query else query in
  let query :=
    if String.eqb role "service_handler"
    then <["serviceHandler" := QRegex (namePatternSource name) "i"]> query
    else query in
  let query := if scoped then query else setParam params "businessUnit" query in
  let query := setParam params "cardNumber" query in
  let query := setParam params "status" query in
  let query := setParam params "month" query in
  let query := setParam params "typeOfService" query in
  let query :=
    if isSet (param params "serviceHandler")
    then applyMultiValueFilter query "serviceHandler" (param params "serviceHandler")
    else query in
  let query :=
    if isSet (param params "cardAssignedTo")
    then applyMultiValueFilter query "cardAssignedTo" (param params "cardAssignedTo")
    else query in
  let query := setParam params "costCenter" query in
  let query := setParam params "approvedBy" query in
  let query := setParam params "recurring" query in
  let query := setIsShared params query in
  let query := setDuplicateStatusFilter params query in
  let query := setDateRange params query in
  let query := setDisableRange params query in
  let query := setAmountRange params query in
  let query :=
    setSearch ["particulars"; "narration"; "cardNumber"; "serviceHandler";
               "cardAssignedTo"] params query in
  setVisibility role params query.
End Queries.

(** ** The sheets: template and export *)

(** The columns of [downloadTemplate], each a header and a key. *)
Definition templateColumns : list (string * string) :=
  [ ("Card Number", "cardNumber"); ("Card Assigned To", "cardAssignedTo");
    ("Date", "date"); ("Month", "month"); ("Status", "status");
    ("Particulars", "particulars"); ("Narration", "narration");
    ("Currency", "currency"); ("Bill Status", "billStatus");
    ("Amount", "amount"); ("Types of Tools or Service", "typeOfService");
    ("Business Unit", "businessUnit"); ("Cost Center", "costCenter");
    ("Approved By", "approvedBy"); ("Tool or Service Handler", "serviceHandler");
    ("Recurring/One-time", "recurring"); ("Is Shared (Yes/No)", "isShared");
    ("Shared Bill (BU:Amount, ...)", "sharedBill") ].

(** The cells of the row [downloadTemplate] writes under its headers. *)
Definition templateSample : list jsval :=
  [ VStr "M003"; VStr "John Doe"; VStr "2025-01-05"; VStr "Jan-2025"; VStr "Active";
    VStr "ChatGPT"; VStr "ChatGPT Subscription"; VStr "USD"; VStr "";
    VNum (Fin 200); VStr "Tool"; VStr "Wytlabs"; VStr "Ops"; VStr "Raghav";
    VStr "Raghav"; VStr "Yearly"; VStr "Yes"; VStr "Wytlabs: 200, Collabx: 100" ].

(** The columns of [exportExpenses]. *)
Definition exportColumns (shouldIncludeDuplicateColumn : bool) : list (string * string) :=
  [ ("Card Number", "cardNumber"); ("Card Assigned To", "cardAssignedTo");
    ("Date", "date"); ("Month", "month"); ("Status", "status");
    ("Particulars", "particulars"); ("Narration", "narration");
    ("Currency", "currency"); ("Bill Status", "billStatus");
    ("Amount", "amount"); ("XE Rate", "xeRate"); ("Amount in INR", "amountInINR");
    ("Types of Tools or Service", "typeOfService");
    ("Business Unit", "businessUnit"); ("Cost Center", "costCenter");
    ("Approved By", "approvedBy"); ("Service Handler", "serviceHandler");
    ("Recurring", "recurring"); ("Disable Date", "disabledAt");
    ("Shared Bill", "sharedBill") ]
  ++ (if shouldIncludeDuplicateColumn
      then [("Duplicate Status", "duplicateStatus")] else []).

(** A row of a sheet with the given columns as [parseExcelFile] keys it:
    each cell of the row, up to its last one, under the header of its
    column. *)
Definition sheetRow (columns : list (string * string)) (cells : list jsval) : Row :=
  zip (map fst columns) cells.

(** The cell of a row of cells at a column, [undefined] beyond the row. *)
Definition cellAt (cells : list jsval) (i : nat) : jsval :=
  match cells !! i with
  | Some v => v
  | None => VUndef
  end.

Section ExportSheet.
Variable h : Host.
(** The text of a member of [Object.prototype] in a template literal. *)
Variable memberText : string -> string.

(** [alloc.businessUnit] as a condition and inside a template literal. *)
Definition unitTruthy (businessUnit : option enumv) : bool :=
  match businessUnit with
  | Some (EStr s) => Str.nonEmpty s
  | Some (EProto _) => true
  | None => false
  end.

Definition unitText (businessUnit : option enumv) : string :=
  match businessUnit with
  | Some (EStr s) => s
  | Some (EProto k) => memberText k
  | None => "null"
  end.

(** [formatShared(expense)] of [exportExpenses] *)
Definition formatShared (expense : Entry.t) : string :=
  if negb (Entry.isShared expense)
     || (length (Entry.sharedAllocations expense) =? 0)%nat
  then ""
  else
    joinWith ", "
      (map (fun alloc =>
              unitText (Alloc.businessUnit alloc) +:+ ": "
              +:+ Val.toStr h (VNum (Alloc.amount alloc)))
           (List.filter (fun alloc => unitTruthy (Alloc.businessUnit alloc))
              (Entry.sharedAllocations expense))).
End ExportSheet.

(** The characters of a number written in plain decimal notation. *)
Definition isPlainNumChar (c : ascii) : bool := Str.isDigit c || Ascii.eqb c ".".

(** An amount the host writes in plain decimal notation, as it does for a
    number that is not negative and needs no exponent: the text is made
    of digits and a dot and reads back as the amount. *)
Definition plainAmount (h : Host) (n : num) : Prop :=
  exists q, n = Fin q
            /\ Str.nonEmpty (numberToString h q) = true
            /\ Str.allChars isPlainNumChar (numberToString h q) = true
            /\ Str.parseFloat (numberToString h q) = Fin q.

(** A share as the export can write it and the upload read it back: a
    canonical business unit and a plain amount. *)
Definition exportableShare (h : Host) (s : Share) : Prop :=
  (exists name, In name Tables.allowedBusinessUnits
                /\ Alloc.businessUnit s = Some (EStr name))
  /\ plainAmount h (Alloc.amount s).

(** The text the export writes for a share. *)
Definition shareText (name text : string) : string := name +:+ ": " +:+ text.

(** ** The other scheduled jobs ([cronJobs.js]) *)


(** [{ $set: { xeRate: rate, amountInINR: { $multiply: ['$amount', rate] } } }] *)
Definition setRate (rate : num) (e : Entry.t) : Entry.t :=
  Entry.make (Entry._id e) (Entry.cardNumber e) (Entry.cardAssignedTo e)
    (Entry.date e) (Entry.month e) (Entry.status e) (Entry.particulars e)
    (Entry.narration e) (Entry.currency e) (Entry.billStatus e)
    (Entry.amount e) rate (Num.mul (Entry.amount e) rate)
    (Entry.typeOfService e) (Entry.businessUnit e) (Entry.costCenter e)
    (Entry.approvedBy e) (Entry.serviceHandler e) (Entry.recurring e)
    (Entry.entryStatus e) (Entry.duplicateStatus e) (Entry.createdBy e)
    (Entry.nextRenewalDate e) (Entry.isShared e) (Entry.sharedAllocations e)
    (Entry.renewalNotificationSent e) (Entry.autoCancellationNotificationSent e).

Section AutoCancel.
Variable h : Host.

(** The first and the last millisecond of the local day [days] days after
    [now], each taken from a copy of the target date; [None] when either
    falls outside the range of a date. *)
Definition noticeWindow (now days : Z) : option (Z * Z) :=
  let target :=
    JsDate.setDate (localTZA h) (JsDate.At now) (JsDate.getDate (localTZA h) now + days) in
  match JsDate.setHours (localTZA h) target 0 0 0 0,
        JsDate.setHours (localTZA h) target 23 59 59 999 with
  | JsDate.At start, JsDate.At finish => Some (start, finish)
  | _, _ => None
  end.





End AutoCancel.


Section ExchangeRefresh.
(** [getExchangeRate(from, to)] of the currency service: the rate, or the
    message of the error it throws. *)
Variable getExchangeRate : string -> string -> string + num.

(** [ExpenseEntry.distinct('currency')]: every currency of the store
    once. *)
Definition distinctCurrencies (store : Store) : list string :=
  remove_dups (map Entry.currency store).

(** [ExpenseEntry.updateMany({ currency }, [{ $set: ... }])] *)
Definition refreshCurrency (currency : string) (rate : num) (store : Store) : Store :=
  map (fun e => if String.eqb (Entry.currency e) currency then setRate rate e else e)
    store.

(** The loop over the currencies: the store it leaves, and the message
    of the error that ended it, if any. *)
Fixpoint refreshAll (currencies : list string) (store : Store)
    : Store * option string :=
  match currencies with
  | [] => (store, None)
  | currency :: rest =>
      match getExchangeRate currency "INR" with
      | inl message => (store, Some message)
      | inr rate => refreshAll rest (refreshCurrency currency rate store)
      end
  end.

(** [runExchangeRateRefreshOnce] *)
Definition runExchangeRateRefreshOnce (store : Store) : Store * option string :=
  let currencies := distinctCurrencies store in
  match currencies with
  | [] => (store, None)
  | _ :: _ => refreshAll currencies store
  end.

(** The record after a refresh with the rate of its own currency. *)
Definition refreshed (e : Entry.t) : Entry.t :=
  match getExchangeRate (Entry.currency e) "INR" with
  | inr rate => setRate rate e
  | inl _ => e
  end.
End ExchangeRefresh.

(** ** Approval links ([approveExpenseEntry], [rejectExpenseEntry]) *)

Definition setEntryStatus (s : string) (e : Entry.t) : Entry.t :=
  Entry.make (Entry._id e) (Entry.cardNumber e) (Entry.cardAssignedTo e)
    (Entry.date e) (Entry.month e) (Entry.status e) (Entry.particulars e)
    (Entry.narration e) (Entry.currency e) (Entry.billStatus e)
    (Entry.amount e) (Entry.xeRate e) (Entry.amountInINR e)
    (Entry.typeOfService e) (Entry.businessUnit e) (Entry.costCenter e)
    (Entry.approvedBy e) (Entry.serviceHandler e) (Entry.recurring e)
    s (Entry.duplicateStatus e) (Entry.createdBy e)
    (Entry.nextRenewalDate e) (Entry.isShared e) (Entry.sharedAllocations e)
    (Entry.renewalNotificationSent e) (Entry.autoCancellationNotificationSent e).

Inductive linkResponse :=
| LinkNotFound          (* 404 'Invalid or expired approval link' *)
| AlreadyProcessed      (* 400 'This entry has already been processed' *)
| LinkDone.             (* 200 *)

Section ApprovalLinks.
(** The [approvalToken] of the record with a given identifier, a field
    the record type leaves out; the two handlers only read it. *)
Variable approvalToken : nat -> option string.

(** [ExpenseEntry.findOne({ approvalToken: token })] *)
Definition findByToken (store : Store) (token : string) : option Entry.t :=
  List.find (fun e => bool_decide (approvalToken (Entry._id e) = Some token)) store.

(** [approveExpenseEntry]: the response, the store, and the notice to the
    first MIS manager, which is sent when one exists and the creator of
    the entry is found. *)
Definition approveExpenseEntry (token : string) (users : list User) (store : Store)
    : linkResponse * Store * list outbound :=
  match findByToken store token with
  | None => (LinkNotFound, store, [])
  | Some expenseEntry =>
      if negb (String.eqb (Entry.entryStatus expenseEntry) "Pending")
      then (AlreadyProcessed, store, [])
      else
        let store' :=
          updateById (Entry._id expenseEntry) (setEntryStatus "Accepted") store in
        let misManager :=
          List.find (fun u => String.eqb (userRole u) "mis_manager") users in
        let spoc :=
          List.find (fun u => Nat.eqb (userId u) (Entry.createdBy expenseEntry)) users in
        (LinkDone, store',
         match misManager, spoc with
         | Some mis, Some _ =>
             [Email "mis_notification" (userEmail mis) (Entry._id expenseEntry)]
         | _, _ => []
         end)
  end.

(** [rejectExpenseEntry] *)
Definition rejectExpenseEntry (token : string) (store : Store) : linkResponse * Store :=
  match findByToken store token with
  | None => (LinkNotFound, store)
  | Some expenseEntry =>
      if negb (String.eqb (Entry.entryStatus expenseEntry) "Pending")
      then (AlreadyProcessed, store)
      else (LinkDone,
            updateById (Entry._id expenseEntry) (setEntryStatus "Rejected") store)
  end.
End ApprovalLinks.

(** ** More sample data *)

(** The cells of an exported record. *)
Definition exportSample : list jsval :=
  [ VStr "M003"; VStr "John Doe"; VStr "1/5/2025"; VStr "Jan 2025"; VStr "Active";
    VStr "ChatGPT"; VStr "ChatGPT"; VStr "USD"; VStr "";
    VNum (Fin 200); VNum (Fin 83); VNum (Fin 16600); VStr "Tool"; VStr "Wytlabs";
    VStr "Ops"; VStr "Raghav"; VStr "Raghav"; VStr "Monthly"; VStr "";
    VStr "Wytlabs: 150, Collabx: 50" ].

(** The example host, writing a whole number in decimal notation. *)
Definition plainHost : Host :=
  {| localTZA := localTZA demoHost;
     numberToString := fun q => pretty (Qfloor q);
     dateToString := dateToString demoHost;
     dateParse := dateParse demoHost;
     stringToNumber := stringToNumber demoHost;
     jsonParseArray := jsonParseArray demoHost;
     convertToINR := convertToINR demoHost;
     createError := createError demoHost;
     saveError := saveError demoHost;
     monthLabel := monthLabel demoHost;
     dropsUndefinedFilter := dropsUndefinedFilter demoHost |}.

(** A record of 200 shared between two units. *)
Definition sharedEntry : Entry.t :=
  Entry.make 2 "M003" "John Doe" (JsDate.At 1733788800000) "Dec 2024"
    (EStr "Active") "ChatGPT" "ChatGPT" "USD" "" (Fin 200) (Fin 83) (Fin 16600)
    (EStr "Tool") (EStr "Wytlabs") (EStr "Ops") (EStr "Raghav") "Raghav"
    (EStr "Monthly") "Accepted" (Some "Unique") 7
    (Some (JsDate.At 1736467200000)) true
    [ Alloc.make (Some (EStr "Wytlabs")) (Fin 150);
      Alloc.make (Some (EStr "Collabx")) (Fin 50) ] false false.

(** A subscription billed in euros. *)
Definition euroEntry : Entry.t :=
  Entry.make 2 "M004" "Jane Doe" (JsDate.At 1733788800000) "Dec 2024"
    (EStr "Active") "Figma" "Figma" "EUR" "" (Fin 100) (Fin 90) (Fin 9000)
    (EStr "Tool") (EStr "Wytlabs") (EStr "Ops") (EStr "Raghav") "Raghav"
    (EStr "Monthly") "Accepted" (Some "Unique") 7
    (Some (JsDate.At 1736467200000)) false [] false false.

(** A currency service that knows the dollar only. *)
Definition dollarRates (from to : string) : string + num :=
  if String.eqb from "USD" then inr (Fin 84) else inl "rate unavailable".


(** * Properties *)

(** ** Rounding to the nearest double *)

Lemma pow2_pos (e : Z) : (0 < Num.pow2 e)%Q.
Proof. apply Qpower_0_lt. reflexivity. Qed.

Lemma pow2_plus (a b : Z) : (Num.pow2 (a + b) == Num.pow2 a * Num.pow2 b)%Q.
Proof. apply Qpower_plus. discriminate. Qed.

Lemma pow2_le (a b : Z) : a <= b -> (Num.pow2 a <= Num.pow2 b)%Q.
Proof. intros H. apply Qpower_le_compat_l; [exact H|]. unfold Qle; simpl; lia. Qed.

Lemma pow2_lt (a b : Z) : a < b -> (Num.pow2 a < Num.pow2 b)%Q.
Proof. intros H. apply Qpower_lt_compat_l; [exact H|]. reflexivity. Qed.

Lemma pow2_Z (e : Z) : 0 <= e -> (Num.pow2 e == inject_Z (2 ^ e))%Q.
Proof. intros H. symmetry. apply (Zpower_Qpower 2 e H). Qed.

Lemma pow2_0 : (Num.pow2 0 == 1)%Q.
Proof. reflexivity. Qed.

Lemma frac_lt_pow2 (n : Z) (d : positive) (a b : Z) :
  0 <= a -> 0 <= b -> n < 2 ^ a -> 2 ^ b <= Z.pos d -> (n # d < Num.pow2 (a - b))%Q.
Proof.
  intros Ha Hb Hn Hd.
  assert (E : (n # d == inject_Z n / inject_Z (Z.pos d))%Q) by apply Qmake_Qdiv.
  rewrite E. clear E.
  apply Qlt_shift_div_r; [reflexivity|].
  assert (H1 : (Num.pow2 (a - b) * Num.pow2 b == Num.pow2 a)%Q).
  { rewrite <- pow2_plus. replace (a - b + b) with a by lia. reflexivity. }
  assert (H2 : (inject_Z n < Num.pow2 a)%Q).
  { rewrite (pow2_Z a Ha). by rewrite <- Zlt_Qlt. }
  assert (H3 : (Num.pow2 b <= inject_Z (Z.pos d))%Q).
  { rewrite (pow2_Z b Hb). by rewrite <- Zle_Qle. }
  pose proof (pow2_pos (a - b)) as Hp.
  apply (Qlt_le_trans _ (Num.pow2 a)); [exact H2|].
  rewrite <- H1. apply Qmult_le_l; assumption.
Qed.

Lemma frac_gt_pow2 (n : Z) (d : positive) (a b : Z) :
  0 <= a -> 0 <= b -> 2 ^ a <= n -> Z.pos d < 2 ^ b -> (Num.pow2 (a - b) < n # d)%Q.
Proof.
  intros Ha Hb Hn Hd.
  assert (E : (n # d == inject_Z n / inject_Z (Z.pos d))%Q) by apply Qmake_Qdiv.
  rewrite E. clear E.
  apply Qlt_shift_div_l; [reflexivity|].
  assert (H1 : (Num.pow2 (a - b) * Num.pow2 b == Num.pow2 a)%Q).
  { rewrite <- pow2_plus. replace (a - b + b) with a by lia. reflexivity. }
  assert (H2 : (Num.pow2 a <= inject_Z n)%Q).
  { rewrite (pow2_Z a Ha). by rewrite <- Zle_Qle. }
  assert (H3 : (inject_Z (Z.pos d) < Num.pow2 b)%Q).
  { rewrite (pow2_Z b Hb). by rewrite <- Zlt_Qlt. }
  pose proof (pow2_pos (a - b)) as Hp.
  apply (Qlt_le_trans _ (Num.pow2 a)); [|exact H2].
  rewrite <- H1. apply Qmult_lt_l; assumption.
Qed.

Lemma ilog2_spec (x : Q) :
  (0 < x)%Q -> (Num.pow2 (Num.ilog2 x) <= x < Num.pow2 (Num.ilog2 x + 1))%Q.
Proof.
  intros Hx. destruct x as [n d].
  assert (Hn : 0 < n) by (unfold Qlt in Hx; simpl in Hx; lia).
  unfold Num.ilog2. cbn [Qnum Qden].
  pose proof (Z.log2_spec n Hn) as [Hn1 Hn2].
  pose proof (Z.log2_spec (Z.pos d) (Pos2Z.is_pos d)) as [Hd1 Hd2].
  pose proof (Z.log2_nonneg n) as Ln. pose proof (Z.log2_nonneg (Z.pos d)) as Ld.
  set (ln := Z.log2 n) in *. set (ld := Z.log2 (Z.pos d)) in *.
  assert (Hup : (n # d < Num.pow2 (ln - ld + 1))%Q).
  { replace (ln - ld + 1) with (Z.succ ln - ld) by lia.
    apply frac_lt_pow2; lia. }
  assert (Hlo : (Num.pow2 (ln - ld - 1) < n # d)%Q).
  { replace (ln - ld - 1) with (ln - Z.succ ld) by lia.
    apply frac_gt_pow2; lia. }
  destruct (Qle_bool (Num.pow2 (ln - ld)) (n # d)) eqn:E.
  - apply Qle_bool_iff in E. split; assumption.
  - split; [apply Qlt_le_weak; exact Hlo|].
    replace (ln - ld - 1 + 1) with (ln - ld) by lia.
    apply Qnot_le_lt. intros H. apply Qle_bool_iff in H. congruence.
Qed.

Lemma ilog2_unique (x : Q) (k : Z) :
  (Num.pow2 k <= x)%Q -> (x < Num.pow2 (k + 1))%Q -> Num.ilog2 x = k.
Proof.
  intros H1 H2.
  assert (Hx : (0 < x)%Q) by (pose proof (pow2_pos k); lra).
  destruct (ilog2_spec x Hx) as [H3 H4].
  destruct (Z.lt_trichotomy (Num.ilog2 x) k) as [Hlt|[Heq|Hgt]]; [|exact Heq|].
  - pose proof (pow2_le (Num.ilog2 x + 1) k ltac:(lia)). lra.
  - pose proof (pow2_le (k + 1) (Num.ilog2 x) ltac:(lia)). lra.
Qed.

Lemma ilog2_mono (x y : Q) : (0 < x)%Q -> (x <= y)%Q -> Num.ilog2 x <= Num.ilog2 y.
Proof.
  intros Hx Hxy.
  destruct (ilog2_spec x Hx) as [H1 H2].
  destruct (ilog2_spec y ltac:(lra)) as [H3 H4].
  destruct (Z_le_gt_dec (Num.ilog2 x) (Num.ilog2 y)) as [H|H]; [exact H|].
  pose proof (pow2_le (Num.ilog2 y + 1) (Num.ilog2 x) ltac:(lia)). lra.
Qed.

Lemma ilog2_compat (x y : Q) : (0 < x)%Q -> (x == y)%Q -> Num.ilog2 x = Num.ilog2 y.
Proof.
  intros Hx Hxy. destruct (ilog2_spec x Hx) as [H1 H2].
  symmetry. apply ilog2_unique; lra.
Qed.

(** Num.roundEven *)

Lemma roundEven_cases (x : Q) :
  let f := Qfloor x in
  (inject_Z f <= x < inject_Z f + 1)%Q
  /\ ((Num.roundEven x = f /\ (x - inject_Z f <= 1 # 2)%Q
       /\ ((x - inject_Z f == 1 # 2)%Q -> Z.even f = true))
      \/ (Num.roundEven x = f + 1 /\ (1 # 2 <= x - inject_Z f)%Q
          /\ ((x - inject_Z f == 1 # 2)%Q -> Z.even f = false))).
Proof.
  cbv zeta. pose proof (Qfloor_le x) as H1. pose proof (Qlt_floor x) as H2.
  rewrite inject_Z_plus in H2. change (inject_Z 1) with 1%Q in H2.
  split; [split; assumption|].
  unfold Num.roundEven.
  destruct (Qcompare (x - inject_Z (Qfloor x)) (1 # 2)) eqn:E.
  - apply Qeq_alt in E. destruct (Z.even (Qfloor x)) eqn:Ev.
    + left. split; [reflexivity|]. split; [lra|]. intros _. reflexivity.
    + right. split; [reflexivity|]. split; [lra|]. intros _. reflexivity.
  - apply Qlt_alt in E. left. split; [reflexivity|]. split; [lra|]. intros H. lra.
  - apply Qgt_alt in E. right. split; [reflexivity|]. split; [lra|]. intros H. lra.
Qed.

Lemma roundEven_Z (n : Z) : Num.roundEven (inject_Z n) = n.
Proof.
  unfold Num.roundEven. rewrite Qfloor_Z.
  assert (H : (inject_Z n - inject_Z n == 0)%Q) by ring.
  rewrite H. reflexivity.
Qed.

Lemma roundEven_compat (x y : Q) : (x == y)%Q -> Num.roundEven x = Num.roundEven y.
Proof.
  intros H. unfold Num.roundEven. rewrite (Qfloor_comp x y H).
  assert (E : (x - inject_Z (Qfloor y) == y - inject_Z (Qfloor y))%Q) by (rewrite H; reflexivity).
  rewrite E. reflexivity.
Qed.

Lemma roundEven_mono (x y : Q) : (x <= y)%Q -> Num.roundEven x <= Num.roundEven y.
Proof.
  intros Hxy.
  pose proof (Qfloor_resp_le x y Hxy) as Hf.
  destruct (roundEven_cases x) as [Bx Cx]. destruct (roundEven_cases y) as [By Cy].
  cbv zeta in *.
  destruct (Z.eq_dec (Qfloor x) (Qfloor y)) as [E|NE].
  - rewrite E in *.
    destruct Cx as [(-> & _ & _)|(-> & Hx1 & Hx2)];
      destruct Cy as [(-> & Hy1 & Hy2)|(-> & _ & _)]; try lia.
    exfalso.
    assert (Hx : (x - inject_Z (Qfloor y) == 1 # 2)%Q) by lra.
    assert (Hy : (y - inject_Z (Qfloor y) == 1 # 2)%Q) by lra.
    rewrite (Hx2 Hx) in Hy2. specialize (Hy2 Hy). discriminate.
  - assert (Hlt : Qfloor x + 1 <= Qfloor y) by lia.
    destruct Cx as [(-> & _)|(-> & _)]; destruct Cy as [(-> & _)|(-> & _)]; lia.
Qed.

Lemma roundEven_nonneg (x : Q) : (0 <= x)%Q -> 0 <= Num.roundEven x.
Proof.
  intros H. pose proof (roundEven_mono 0 x H) as M.
  change 0%Q with (inject_Z 0) in M. by rewrite roundEven_Z in M.
Qed.

(** Num.roundPos *)

Lemma ulpExp_le (x : Q) (j : Z) :
  (0 < x)%Q -> -1074 <= j -> (x <= Num.pow2 j)%Q -> Num.ulpExp x <= j.
Proof.
  intros Hx Hj Hle. unfold Num.ulpExp.
  destruct (ilog2_spec x Hx) as [H1 _].
  assert (Num.ilog2 x <= j).
  { destruct (Z_le_gt_dec (Num.ilog2 x) j) as [H|H]; [exact H|].
    pose proof (pow2_lt j (Num.ilog2 x) ltac:(lia)). lra. }
  lia.
Qed.


Lemma scale_pow2 (j e : Z) : (Num.pow2 j / Num.pow2 e == Num.pow2 (j - e))%Q.
Proof.
  pose proof (pow2_pos e) as He.
  assert (H : (Num.pow2 j == Num.pow2 (j - e) * Num.pow2 e)%Q).
  { rewrite <- pow2_plus. replace (j - e + e) with j by lia. reflexivity. }
  rewrite H. field. lra.
Qed.

Lemma scale_le (x y : Q) (e : Z) : (x <= y)%Q -> (x / Num.pow2 e <= y / Num.pow2 e)%Q.
Proof.
  intros H. pose proof (pow2_pos e) as He.
  apply Qle_shift_div_l; [exact He|].
  assert (E : (x / Num.pow2 e * Num.pow2 e == x)%Q) by (field; lra).
  lra.
Qed.

Lemma unscale (x : Q) (e : Z) : (x / Num.pow2 e * Num.pow2 e == x)%Q.
Proof. pose proof (pow2_pos e). field. lra. Qed.

Lemma roundPos_upper (x : Q) (j : Z) :
  (0 < x)%Q -> -1074 <= j -> (x <= Num.pow2 j)%Q -> (Num.roundPos x <= Num.pow2 j)%Q.
Proof.
  intros Hx Hj Hle. unfold Num.roundPos.
  pose proof (ulpExp_le x j Hx Hj Hle) as He.
  set (e := Num.ulpExp x) in *.
  pose proof (pow2_pos e) as Hp.
  assert (Hs : (x / Num.pow2 e <= inject_Z (2 ^ (j - e)))%Q).
  { rewrite <- (pow2_Z (j - e)) by lia. rewrite <- scale_pow2. by apply scale_le. }
  apply roundEven_mono in Hs. rewrite roundEven_Z in Hs.
  apply (Qle_trans _ (inject_Z (2 ^ (j - e)) * Num.pow2 e)).
  - apply Qmult_le_compat_r; [|lra]. by rewrite <- Zle_Qle.
  - rewrite <- (pow2_Z (j - e)) by lia. rewrite <- pow2_plus.
    replace (j - e + e) with j by lia. lra.
Qed.

Lemma ilog2_ge (x : Q) (j : Z) : (Num.pow2 j <= x)%Q -> j <= Num.ilog2 x.
Proof.
  intros H. assert (Hx : (0 < x)%Q) by (pose proof (pow2_pos j); lra).
  destruct (ilog2_spec x Hx) as [_ H2].
  destruct (Z_le_gt_dec j (Num.ilog2 x)) as [L|G]; [exact L|].
  pose proof (pow2_le (Num.ilog2 x + 1) j ltac:(lia)). lra.
Qed.

Lemma roundPos_lower (x : Q) (j : Z) :
  -1074 <= j -> (Num.pow2 j <= x)%Q -> (Num.pow2 j <= Num.roundPos x)%Q.
Proof.
  intros Hj Hle.
  assert (Hx : (0 < x)%Q) by (pose proof (pow2_pos j); lra).
  pose proof (ilog2_ge x j Hle) as Hk.
  destruct (ilog2_spec x Hx) as [Hb _].
  unfold Num.roundPos. set (k := Num.ilog2 x) in *.
  assert (He : Num.ulpExp x <= k) by (unfold Num.ulpExp; fold k; lia).
  set (e := Num.ulpExp x) in *.
  pose proof (pow2_pos e) as Hp.
  assert (Hs : (inject_Z (2 ^ (k - e)) <= x / Num.pow2 e)%Q).
  { rewrite <- (pow2_Z (k - e)) by lia. rewrite <- scale_pow2. by apply scale_le. }
  apply roundEven_mono in Hs. rewrite roundEven_Z in Hs.
  apply (Qle_trans _ (Num.pow2 k)); [by apply pow2_le|].
  apply (Qle_trans _ (inject_Z (2 ^ (k - e)) * Num.pow2 e)).
  - rewrite <- (pow2_Z (k - e)) by lia. rewrite <- pow2_plus.
    replace (k - e + e) with k by lia. lra.
  - apply Qmult_le_compat_r; [|lra]. by rewrite <- Zle_Qle.
Qed.

Lemma roundPos_nonneg (x : Q) : (0 < x)%Q -> (0 <= Num.roundPos x)%Q.
Proof.
  intros Hx. unfold Num.roundPos. pose proof (pow2_pos (Num.ulpExp x)) as Hp.
  apply Qmult_le_0_compat; [|lra].
  change 0%Q with (inject_Z 0). rewrite <- Zle_Qle. apply roundEven_nonneg.
  apply Qle_shift_div_l; [exact Hp|]. lra.
Qed.

Lemma Qfloor_unique (x : Q) (n : Z) :
  (inject_Z n <= x)%Q -> (x < inject_Z (n + 1))%Q -> Qfloor x = n.
Proof.
  intros H1 H2. pose proof (Qfloor_le x) as F1. pose proof (Qlt_floor x) as F2.
  assert (A : (inject_Z n < inject_Z (Qfloor x + 1))%Q) by lra.
  assert (B : (inject_Z (Qfloor x) < inject_Z (n + 1))%Q) by lra.
  rewrite <- Zlt_Qlt in A, B. lia.
Qed.

Lemma roundPos_tiny (x : Q) :
  (0 < x)%Q -> Num.ilog2 x + 1 < -1074 -> (Num.roundPos x == 0)%Q.
Proof.
  intros Hx Hk. unfold Num.roundPos.
  assert (He : Num.ulpExp x = -1074) by (unfold Num.ulpExp; lia).
  rewrite He.
  destruct (ilog2_spec x Hx) as [_ Hup].
  assert (Hs : (x / Num.pow2 (-1074) < 1 # 2)%Q).
  { apply Qlt_shift_div_r; [apply pow2_pos|].
    assert (E : ((1 # 2) * Num.pow2 (-1074) == Num.pow2 (-1075))%Q).
    { change (1 # 2)%Q with (Num.pow2 (-1)). rewrite <- pow2_plus. reflexivity. }
    rewrite E. pose proof (pow2_le (Num.ilog2 x + 1) (-1075) ltac:(lia)). lra. }
  assert (H0 : (0 <= x / Num.pow2 (-1074))%Q).
  { apply Qle_shift_div_l; [apply pow2_pos|]. lra. }
  assert (Hr : Num.roundEven (x / Num.pow2 (-1074)) = 0).
  { destruct (roundEven_cases (x / Num.pow2 (-1074))) as [[B1 B2] C]. cbv zeta in *.
    assert (Hf : Qfloor (x / Num.pow2 (-1074)) = 0).
    { apply Qfloor_unique; [exact H0|]. change (inject_Z (0 + 1)) with 1%Q. lra. }
    rewrite Hf in *. change (inject_Z 0) with 0%Q in *.
    destruct C as [(-> & _)|(_ & H & _)]; [reflexivity|lra]. }
  rewrite Hr. ring.
Qed.

Lemma roundPos_mono (x y : Q) :
  (0 < x)%Q -> (x <= y)%Q -> (Num.roundPos x <= Num.roundPos y)%Q.
Proof.
  intros Hx Hxy. assert (Hy : (0 < y)%Q) by lra.
  pose proof (ilog2_mono x y Hx Hxy) as Hk.
  destruct (Z.eq_dec (Num.ulpExp x) (Num.ulpExp y)) as [E|NE].
  - unfold Num.roundPos. rewrite E.
    pose proof (pow2_pos (Num.ulpExp y)) as Hp.
    apply Qmult_le_compat_r; [|lra]. rewrite <- Zle_Qle.
    apply roundEven_mono. by apply scale_le.
  - assert (Hlt : Num.ilog2 x < Num.ilog2 y) by (unfold Num.ulpExp in NE; lia).
    destruct (ilog2_spec x Hx) as [_ Hux]. destruct (ilog2_spec y Hy) as [Hly _].
    pose proof (pow2_le (Num.ilog2 x + 1) (Num.ilog2 y) ltac:(lia)) as Hp.
    destruct (Z_le_gt_dec (-1074) (Num.ilog2 x + 1)) as [J|J].
    + apply (Qle_trans _ (Num.pow2 (Num.ilog2 x + 1))).
      * apply roundPos_upper; [exact Hx|exact J|lra].
      * apply roundPos_lower; [exact J|lra].
    + rewrite (roundPos_tiny x Hx ltac:(lia)). by apply roundPos_nonneg.
Qed.

Lemma roundPos_compat (x y : Q) : (0 < x)%Q -> (x == y)%Q -> (Num.roundPos x == Num.roundPos y)%Q.
Proof.
  intros Hx H. unfold Num.roundPos, Num.ulpExp. rewrite (ilog2_compat x y Hx H).
  set (e := Z.max _ _).
  assert (E : (x / Num.pow2 e == y / Num.pow2 e)%Q) by (rewrite H; reflexivity).
  rewrite (roundEven_compat _ _ E). reflexivity.
Qed.

Lemma roundPos_exact (m e : Z) :
  0 < m < 2 ^ 53 -> -1074 <= e ->
  (Num.roundPos (inject_Z m * Num.pow2 e) == inject_Z m * Num.pow2 e)%Q.
Proof.
  intros [Hm1 Hm2] He.
  set (x := (inject_Z m * Num.pow2 e)%Q).
  pose proof (pow2_pos e) as Hp.
  assert (Hx : (0 < x)%Q).
  { unfold x. apply Qmult_lt_0_compat; [|exact Hp].
    change 0%Q with (inject_Z 0). by rewrite <- Zlt_Qlt. }
  assert (Hlt : (x < Num.pow2 (53 + e))%Q).
  { unfold x. rewrite pow2_plus. apply Qmult_lt_compat_r; [exact Hp|].
    rewrite (pow2_Z 53) by lia. by rewrite <- Zlt_Qlt. }
  destruct (ilog2_spec x Hx) as [Hk _].
  assert (Hik : Num.ilog2 x < 53 + e).
  { destruct (Z_lt_ge_dec (Num.ilog2 x) (53 + e)) as [L|G]; [exact L|].
    pose proof (pow2_le (53 + e) (Num.ilog2 x) ltac:(lia)). lra. }
  assert (Hu : Num.ulpExp x <= e) by (unfold Num.ulpExp; lia).
  unfold Num.roundPos. set (u := Num.ulpExp x) in *.
  assert (Hs : (x / Num.pow2 u == inject_Z (m * 2 ^ (e - u)))%Q).
  { unfold x. rewrite inject_Z_mult. rewrite <- (pow2_Z (e - u)) by lia.
    rewrite <- scale_pow2. pose proof (pow2_pos u). field. lra. }
  rewrite (roundEven_compat _ _ Hs), roundEven_Z.
  rewrite <- Hs. apply unscale.
Qed.

(** Num.roundQ *)

Lemma roundQ_pos (x : Q) : (0 < x)%Q -> Num.roundQ x = Num.roundPos x.
Proof.
  intros H. unfold Num.roundQ.
  assert (E : (x ?= 0)%Q = Gt) by (by apply Qgt_alt). by rewrite E.
Qed.

Lemma roundQ_neg (x : Q) : (x < 0)%Q -> Num.roundQ x = (- Num.roundPos (- x))%Q.
Proof.
  intros H. unfold Num.roundQ.
  assert (E : (x ?= 0)%Q = Lt) by (by apply Qlt_alt). by rewrite E.
Qed.

Lemma roundQ_zero (x : Q) : (x == 0)%Q -> Num.roundQ x = 0%Q.
Proof.
  intros H. unfold Num.roundQ.
  assert (E : (x ?= 0)%Q = Eq) by (by apply Qeq_alt). by rewrite E.
Qed.

Lemma roundQ_mono (x y : Q) : (x <= y)%Q -> (Num.roundQ x <= Num.roundQ y)%Q.
Proof.
  intros Hxy.
  destruct (Q_dec x 0) as [[Hx|Hx]|Hx]; destruct (Q_dec y 0) as [[Hy|Hy]|Hy];
    rewrite ?(roundQ_pos _ Hx), ?(roundQ_neg _ Hx), ?(roundQ_zero _ Hx),
            ?(roundQ_pos _ Hy), ?(roundQ_neg _ Hy), ?(roundQ_zero _ Hy);
    try lra.
  - pose proof (roundPos_mono (- y) (- x) ltac:(lra) ltac:(lra)). lra.
  - pose proof (roundPos_nonneg (- x) ltac:(lra)).
    pose proof (roundPos_nonneg y ltac:(lra)). lra.
  - pose proof (roundPos_nonneg (- x) ltac:(lra)). lra.
  - by apply roundPos_mono.
  - by apply roundPos_nonneg.
Qed.

Lemma roundQ_compat (x y : Q) : (x == y)%Q -> (Num.roundQ x == Num.roundQ y)%Q.
Proof.
  intros H.
  destruct (Q_dec x 0) as [[Hx|Hx]|Hx].
  - rewrite (roundQ_neg x Hx), (roundQ_neg y ltac:(lra)).
    rewrite (roundPos_compat (- x) (- y)); [reflexivity|lra|lra].
  - rewrite (roundQ_pos x Hx), (roundQ_pos y ltac:(lra)).
    by apply roundPos_compat.
  - rewrite (roundQ_zero x Hx), (roundQ_zero y ltac:(lra)). reflexivity.
Qed.

Lemma roundQ_opp (x : Q) : (Num.roundQ (- x) == - Num.roundQ x)%Q.
Proof.
  destruct (Q_dec x 0) as [[Hx|Hx]|Hx].
  - rewrite (roundQ_neg x Hx), (roundQ_pos (- x) ltac:(lra)). ring.
  - rewrite (roundQ_pos x Hx), (roundQ_neg (- x) ltac:(lra)).
    rewrite (roundPos_compat (- - x) x); [reflexivity|lra|ring].
  - rewrite (roundQ_zero x Hx), (roundQ_zero (- x) ltac:(lra)). reflexivity.
Qed.

(** A number with at most 53 significant bits above the smallest one. *)
Lemma roundQ_exact (m e : Z) :
  Z.abs m < 2 ^ 53 -> -1074 <= e ->
  (Num.roundQ (inject_Z m * Num.pow2 e) == inject_Z m * Num.pow2 e)%Q.
Proof.
  intros Hm He. pose proof (pow2_pos e) as Hp.
  destruct (Z.lt_trichotomy m 0) as [Hneg|[->|Hpos]].
  - assert (Hx : (inject_Z m * Num.pow2 e < 0)%Q).
    { assert (H : (inject_Z m < 0)%Q) by (change 0%Q with (inject_Z 0); by rewrite <- Zlt_Qlt).
      pose proof (Qmult_lt_compat_r _ _ (Num.pow2 e) Hp H). lra. }
    rewrite (roundQ_neg _ Hx).
    assert (E : (- (inject_Z m * Num.pow2 e) == inject_Z (- m) * Num.pow2 e)%Q)
      by (rewrite inject_Z_opp; ring).
    assert (Hx' : (0 < - (inject_Z m * Num.pow2 e))%Q) by lra.
    rewrite (roundPos_compat _ _ Hx' E).
    rewrite roundPos_exact by lia. rewrite inject_Z_opp. ring.
  - rewrite roundQ_zero; ring.
  - assert (Hx : (0 < inject_Z m * Num.pow2 e)%Q).
    { apply Qmult_lt_0_compat; [|exact Hp].
      change 0%Q with (inject_Z 0). by rewrite <- Zlt_Qlt. }
    rewrite (roundQ_pos _ Hx). apply roundPos_exact; lia.
Qed.

Lemma roundQ_Z (n : Z) : Z.abs n <= 2 ^ 53 -> (Num.roundQ (inject_Z n) == inject_Z n)%Q.
Proof.
  intros Hn.
  destruct (Z.eq_dec (Z.abs n) (2 ^ 53)) as [E|NE].
  - assert (Hc : n = 2 ^ 52 * 2 \/ n = - 2 ^ 52 * 2) by lia.
    destruct Hc as [-> | ->].
    + exact (roundQ_exact (2 ^ 52) 1 ltac:(lia) ltac:(lia)).
    + exact (roundQ_exact (- 2 ^ 52) 1 ltac:(lia) ltac:(lia)).
  - pose proof (roundQ_exact n 0 ltac:(lia) ltac:(lia)) as H.
    assert (E1 : (inject_Z n * Num.pow2 0 == inject_Z n)%Q) by (rewrite pow2_0; ring).
    rewrite (roundQ_compat _ _ E1) in H. lra.
Qed.

(** ** Doubles *)

Lemma Qred_inject_Z (n : Z) : Qred (inject_Z n) = inject_Z n.
Proof.
  unfold Qred, inject_Z.
  pose proof (Z.ggcd_gcd n 1) as Hg.
  pose proof (Z.ggcd_correct_divisors n 1) as Hd.
  destruct (Z.ggcd n 1) as [g [aa bb]]. cbn [fst snd] in *.
  rewrite Z.gcd_1_r in Hg. subst g. destruct Hd as [Ha Hb].
  assert (E1 : aa = n) by lia. assert (E2 : bb = 1) by lia.
  rewrite E1, E2. reflexivity.
Qed.

Lemma maxFinite_gt : (inject_Z (2 ^ 53) < Num.maxFinite)%Q.
Proof. unfold Num.maxFinite. rewrite <- Zlt_Qlt. reflexivity. Qed.

(** A rational between two integers that are doubles rounds to a double
    between them. *)
Lemma round64_between (x : Q) (a b : Z) :
  Z.abs a <= 2 ^ 53 -> Z.abs b <= 2 ^ 53 ->
  (inject_Z a <= x)%Q -> (x <= inject_Z b)%Q ->
  exists r, Num.round64 x = Fin r /\ (r == Num.roundQ x)%Q
            /\ (inject_Z a <= r)%Q /\ (r <= inject_Z b)%Q.
Proof.
  intros Ha Hb Hax Hxb.
  pose proof (roundQ_mono _ _ Hax) as H1. rewrite (roundQ_Z a Ha) in H1.
  pose proof (roundQ_mono _ _ Hxb) as H2. rewrite (roundQ_Z b Hb) in H2.
  pose proof maxFinite_gt as Hm.
  assert (Hlo : (- inject_Z (2 ^ 53) <= inject_Z a)%Q).
  { rewrite <- inject_Z_opp, <- Zle_Qle. lia. }
  assert (Hhi : (inject_Z b <= inject_Z (2 ^ 53))%Q) by (rewrite <- Zle_Qle; lia).
  unfold Num.round64.
  assert (Habs : Qle_bool (Qabs (Num.roundQ x)) Num.maxFinite = true).
  { apply Qle_bool_iff, Qabs_Qle_condition. split; lra. }
  rewrite Habs. exists (Qred (Num.roundQ x)).
  pose proof (Qred_correct (Num.roundQ x)) as Hr.
  repeat split; [exact Hr|lra|lra].
Qed.

(** An integer that is a double is not changed. *)
Lemma round64_int (x : Q) (n : Z) :
  (x == inject_Z n)%Q -> Z.abs n <= 2 ^ 53 -> Num.round64 x = Fin (inject_Z n).
Proof.
  intros Hx Hn.
  destruct (round64_between x n n Hn Hn) as (r & Hr & Heq & _); [lra|lra|].
  rewrite Hr. f_equal.
  assert (E : (Num.roundQ x == inject_Z n)%Q).
  { rewrite (roundQ_compat _ _ Hx). by apply roundQ_Z. }
  unfold Num.round64 in Hr. destruct (Qle_bool _ _); [|discriminate].
  injection Hr as <-. rewrite (Qred_complete _ _ E). apply Qred_inject_Z.
Qed.

Lemma add_int (a b : Z) :
  Z.abs (a + b) <= 2 ^ 53 -> Num.add (Num.ofZ a) (Num.ofZ b) = Num.ofZ (a + b).
Proof.
  intros H. unfold Num.add, Num.ofZ. apply round64_int; [|exact H].
  by rewrite inject_Z_plus.
Qed.

Lemma mul_int (a b : Z) :
  Z.abs (a * b) <= 2 ^ 53 -> Num.mul (Num.ofZ a) (Num.ofZ b) = Num.ofZ (a * b).
Proof.
  intros H. unfold Num.mul, Num.ofZ. apply round64_int; [|exact H].
  by rewrite inject_Z_mult.
Qed.

(** What is not below an integer that is a double does not round below
    it, and likewise above. *)
Lemma round64_atLeast (x : Q) (a : Z) :
  Z.abs a <= 2 ^ 53 -> (inject_Z a <= x)%Q ->
  Num.atLeast (inject_Z a) (Num.round64 x).
Proof.
  intros Ha Hax.
  pose proof (roundQ_mono _ _ Hax) as H1. rewrite (roundQ_Z a Ha) in H1.
  pose proof maxFinite_gt as Hm.
  assert (Hlo : (- inject_Z (2 ^ 53) <= inject_Z a)%Q).
  { rewrite <- inject_Z_opp, <- Zle_Qle. lia. }
  unfold Num.round64.
  destruct (Qle_bool (Qabs (Num.roundQ x)) Num.maxFinite) eqn:Habs; simpl.
  - rewrite (Qred_correct (Num.roundQ x)). exact H1.
  - assert (Hpos : Qle_bool 0 (Num.roundQ x) = true).
    { apply Qle_bool_iff.
      destruct (Qlt_le_dec (Num.roundQ x) 0) as [Hneg|Hge]; [|exact Hge].
      exfalso. apply not_true_iff_false in Habs. apply Habs.
      apply Qle_bool_iff, Qabs_Qle_condition. split; lra. }
    by rewrite Hpos.
Qed.

Lemma round64_atMost (x : Q) (b : Z) :
  Z.abs b <= 2 ^ 53 -> (x <= inject_Z b)%Q ->
  Num.atMost (inject_Z b) (Num.round64 x).
Proof.
  intros Hb Hxb.
  pose proof (roundQ_mono _ _ Hxb) as H1. rewrite (roundQ_Z b Hb) in H1.
  pose proof maxFinite_gt as Hm.
  assert (Hhi : (inject_Z b <= inject_Z (2 ^ 53))%Q) by (rewrite <- Zle_Qle; lia).
  unfold Num.round64.
  destruct (Qle_bool (Qabs (Num.roundQ x)) Num.maxFinite) eqn:Habs; simpl.
  - rewrite (Qred_correct (Num.roundQ x)). exact H1.
  - assert (Hneg : Qle_bool 0 (Num.roundQ x) = false).
    { apply not_true_iff_false. intros Hge. apply Qle_bool_iff in Hge.
      apply not_true_iff_false in Habs. apply Habs.
      apply Qle_bool_iff, Qabs_Qle_condition. split; lra. }
    by rewrite Hneg.
Qed.

Lemma add_atLeast (x y : num) (a b c : Z) :
  Num.atLeast (inject_Z a) x -> Num.atLeast (inject_Z b) y ->
  c <= a + b -> Z.abs c <= 2 ^ 53 ->
  Num.atLeast (inject_Z c) (Num.add x y).
Proof.
  intros Hx Hy Hc Habs.
  assert (Hcq : (inject_Z c <= inject_Z a + inject_Z b)%Q)
    by (rewrite <- inject_Z_plus, <- Zle_Qle; exact Hc).
  destruct x as [|p|[|]], y as [|q|[|]]; simpl in Hx, Hy |- *; try done.
  apply round64_atLeast; [exact Habs|lra].
Qed.

Lemma add_atMost (x y : num) (a b c : Z) :
  Num.atMost (inject_Z a) x -> Num.atMost (inject_Z b) y ->
  a + b <= c -> Z.abs c <= 2 ^ 53 ->
  Num.atMost (inject_Z c) (Num.add x y).
Proof.
  intros Hx Hy Hc Habs.
  assert (Hcq : (inject_Z a + inject_Z b <= inject_Z c)%Q)
    by (rewrite <- inject_Z_plus, <- Zle_Qle; exact Hc).
  destruct x as [|p|[|]], y as [|q|[|]]; simpl in Hx, Hy |- *; try done.
  apply round64_atMost; [exact Habs|lra].
Qed.

Lemma truncate_Z (n : Z) : JsDate.truncate (inject_Z n) = n.
Proof.
  unfold JsDate.truncate, Qceiling. rewrite <- inject_Z_opp, !Qfloor_Z.
  destruct (Qle_bool _ _); lia.
Qed.

(** [new Date(n)] on a whole number of milliseconds. *)
Lemma ofNum_Z (n : Z) : JsDate.ofNum (Num.ofZ n) = JsDate.timeClip n.
Proof.
  unfold JsDate.ofNum, Num.ofZ, JsDate.timeClip. rewrite truncate_Z.
  destruct (Z.abs n <=? JsDate.maxTime) eqn:Hn.
  - apply Z.leb_le in Hn.
    replace (Qle_bool _ _) with true; [reflexivity|]. symmetry.
    apply Qle_bool_iff, Qabs_Qle_condition.
    rewrite <- inject_Z_opp, <- !Zle_Qle. lia.
  - apply Z.leb_gt in Hn.
    replace (Qle_bool _ _) with false; [reflexivity|]. symmetry.
    apply not_true_iff_false. intros H.
    apply Qle_bool_iff, Qabs_Qle_condition in H.
    rewrite <- inject_Z_opp, <- !Zle_Qle in H. lia.
Qed.

Lemma ofNum_atLeast (n : num) (b : Z) :
  JsDate.maxTime < b -> Num.atLeast (inject_Z b) n -> JsDate.ofNum n = JsDate.Invalid.
Proof.
  intros Hb Hn. destruct n as [|q|[|]]; simpl in *; try done.
  replace (Qle_bool _ _) with false; [reflexivity|]. symmetry.
  apply not_true_iff_false. intros H.
  apply Qle_bool_iff, Qabs_Qle_condition in H.
  assert (Hlt : (inject_Z JsDate.maxTime < inject_Z b)%Q) by by rewrite <- Zlt_Qlt.
  lra.
Qed.

Lemma ofNum_atMost (n : num) (b : Z) :
  b < - JsDate.maxTime -> Num.atMost (inject_Z b) n -> JsDate.ofNum n = JsDate.Invalid.
Proof.
  intros Hb Hn. destruct n as [|q|[|]]; simpl in *; try done.
  replace (Qle_bool _ _) with false; [reflexivity|]. symmetry.
  apply not_true_iff_false. intros H.
  apply Qle_bool_iff, Qabs_Qle_condition in H.
  assert (Hlt : (inject_Z b < - inject_Z JsDate.maxTime)%Q)
    by (rewrite <- inject_Z_opp, <- Zlt_Qlt; exact Hb).
  lra.
Qed.

(** The distance of a rational from the double it rounds to. *)
Lemma roundPos_error (x : Q) (k : Z) :
  (0 < x)%Q -> (x <= Num.pow2 k)%Q -> -1022 <= k ->
  (- Num.pow2 (k - 53) <= Num.roundPos x - x)%Q
  /\ (Num.roundPos x - x <= Num.pow2 (k - 53))%Q.
Proof.
  intros Hx Hle Hk.
  assert (He : Num.ulpExp x <= k - 52).
  { destruct (ilog2_spec x Hx) as [Hlo _].
    assert (Hi : Num.ilog2 x <= k).
    { destruct (Z_le_gt_dec (Num.ilog2 x) k) as [L|G]; [exact L|].
      pose proof (pow2_lt k (Num.ilog2 x) ltac:(lia)). lra. }
    unfold Num.ulpExp. lia. }
  unfold Num.roundPos. set (e := Num.ulpExp x) in *.
  pose proof (pow2_pos e) as Hp.
  pose proof (unscale x e) as Hu.
  set (y := (x / Num.pow2 e)%Q) in *.
  assert (Hn : (- (1 # 2) <= inject_Z (Num.roundEven y) - y
                /\ inject_Z (Num.roundEven y) - y <= 1 # 2)%Q).
  { destruct (roundEven_cases y) as [[B1 B2] [(-> & C & _)|(-> & C & _)]]; cbv zeta in *.
    - split; lra.
    - rewrite inject_Z_plus. change (inject_Z 1) with 1%Q. split; lra. }
  destruct Hn as [Hn1 Hn2].
  assert (Hhalf : (Num.pow2 (e - 1) == Num.pow2 e * (1 # 2))%Q).
  { replace (e - 1) with (e + -1) by lia. rewrite pow2_plus. reflexivity. }
  pose proof (pow2_le (e - 1) (k - 53) ltac:(lia)) as Hpk.
  pose proof (Qmult_le_compat_r _ _ (Num.pow2 e) Hn1 ltac:(lra)) as M1.
  pose proof (Qmult_le_compat_r _ _ (Num.pow2 e) Hn2 ltac:(lra)) as M2.
  assert (E : (inject_Z (Num.roundEven y) * Num.pow2 e - x
               == (inject_Z (Num.roundEven y) - y) * Num.pow2 e)%Q).
  { rewrite <- Hu at 1. ring. }
  rewrite E. split; lra.
Qed.

Lemma roundQ_error (x : Q) (k : Z) :
  (Qabs x <= Num.pow2 k)%Q -> -1022 <= k ->
  (Qabs (Num.roundQ x - x) <= Num.pow2 (k - 53))%Q.
Proof.
  intros Habs Hk. apply Qabs_Qle_condition in Habs as [H1 H2].
  apply Qabs_Qle_condition.
  destruct (Q_dec x 0) as [[Hx|Hx]|Hx].
  - rewrite (roundQ_neg x Hx).
    destruct (roundPos_error (- x) k ltac:(lra) ltac:(lra) Hk) as [E1 E2].
    split; lra.
  - rewrite (roundQ_pos x Hx).
    destruct (roundPos_error x k Hx H2 Hk) as [E1 E2]. split; lra.
  - rewrite (roundQ_zero x Hx). pose proof (pow2_pos (k - 53)). split; lra.
Qed.
(** ** The trigger endpoints *)

Lemma verifyCronAuth_configured (s : string) (token : option string) :
  s <> "" -> verifyCronAuth (Some s) token = bool_decide (token = Some s).
Proof.
  intros Hs. unfold verifyCronAuth.
  destruct s as [|c s']; [congruence|]. simpl.
  destruct token as [t|].
  - destruct (String.eqb_spec t (String c s')) as [->|Hne].
    + by rewrite bool_decide_eq_true_2.
    + rewrite bool_decide_eq_false_2; [done|]. intros [=]. done.
  - by rewrite bool_decide_eq_false_2.
Qed.

(** C5, as stated, fails: with no secret configured a request without the
    header is let through and the job runs. *)
Lemma cron_open_without_secret :
  trigger nat countingRun None None RenewalReminders 0%nat = (NoContent, 1%nat)
  /\ trigger nat countingRun (Some "") None AutoCancel 0%nat = (NoContent, 1%nat).
Proof. split; reflexivity. Qed.

(** C5 (amended): when a non-empty secret is configured, a request to any
    of the five triggers whose [x-cron-token] header is absent or differs
    from it is answered 401 and the job does not run; when no secret or
    an empty one is configured every request goes through. A request
    that goes through runs the job and is answered 204 when the run
    returns and 500 when it throws. *)
Theorem cron_trigger_guarded (World : Type) (run : cronJob -> World -> World * bool)
    (secret token : option string) (j : cronJob) (w : World) :
  (forall s, secret = Some s -> s <> "" -> token <> Some s ->
             trigger World run secret token j w = (Unauthorized, w)
             /\ statusCode Unauthorized = 401%nat)
  /\ (secret = None \/ secret = Some "" -> verifyCronAuth secret token = true)
  /\ (verifyCronAuth secret token = true ->
      snd (trigger World run secret token j w) = fst (run j w)
      /\ statusCode (fst (trigger World run secret token j w))
         = if snd (run j w) then 204%nat else 500%nat).
Proof.
  split; [|split].
  - intros s -> Hs Ht. unfold trigger.
    rewrite (verifyCronAuth_configured s token Hs).
    by rewrite bool_decide_eq_false_2.
  - by intros [->| ->].
  - intros Hok. unfold trigger, wrap. rewrite Hok.
    destruct (run j w) as [w' [|]]; done.
Qed.

Lemma cron_trigger_guarded_witness :
  (trigger nat countingRun (Some "s3cret") (Some "guess") ExchangeRefresh 0%nat
     = (Unauthorized, 0%nat)
   /\ trigger nat countingRun (Some "s3cret") None RenewalReminders 0%nat
     = (Unauthorized, 0%nat))
  /\ statusCode (fst (trigger nat countingRun (Some "s3cret") (Some "s3cret")
                        RenewalReminders 0%nat)) = 204%nat
  /\ statusCode (fst (trigger nat countingRun (Some "s3cret") (Some "s3cret")
                        ExchangeRefresh 0%nat)) = 500%nat.
Proof.
  assert (Hs : "s3cret" <> "") by discriminate.
  refine (conj (conj _ _) (conj _ _)).
  - refine (proj1 (proj1 (cron_trigger_guarded nat countingRun (Some "s3cret")
                            (Some "guess") ExchangeRefresh 0%nat)
                     "s3cret" eq_refl Hs _)).
    discriminate.
  - refine (proj1 (proj1 (cron_trigger_guarded nat countingRun (Some "s3cret")
                            None RenewalReminders 0%nat)
                     "s3cret" eq_refl Hs _)).
    discriminate.
  - exact (proj2 (proj2 (proj2 (cron_trigger_guarded nat countingRun (Some "s3cret")
                                  (Some "s3cret") RenewalReminders 0%nat)) eq_refl)).
  - exact (proj2 (proj2 (proj2 (cron_trigger_guarded nat countingRun (Some "s3cret")
                                  (Some "s3cret") ExchangeRefresh 0%nat)) eq_refl)).
Defined.

(** ** Recurring cadence *)

Lemma recurringPairs_keys_NoDup : NoDup (Tables.recurringPairs.*1).
Proof. apply (bool_decide_unpack _). vm_compute. exact I. Qed.

Lemma recurringMap_hit (k v : string) :
  (k, v) ∈ Tables.recurringPairs -> objGet Tables.recurringMap k = Some (EStr v).
Proof.
  intros Hin. unfold objGet, Tables.recurringMap.
  rewrite (elem_of_list_to_map_1 _ _ _ recurringPairs_keys_NoDup Hin).
  assert (Hv : Str.nonEmpty v = true).
  { unfold Tables.recurringPairs in Hin.
    repeat (apply elem_of_cons in Hin as [[= _ ->]|Hin]; [reflexivity|]).
    by apply elem_of_nil in Hin. }
  by rewrite Hv.
Qed.

Lemma recurringMap_miss (k : string) :
  k ∉ Tables.recurringPairs.*1 -> isPrototypeKey k = false ->
  objGet Tables.recurringMap k = None.
Proof.
  intros Hk Hp. unfold objGet, Tables.recurringMap.
  rewrite (not_elem_of_list_to_map_1 _ _ Hk). by rewrite Hp.
Qed.

(** C8, as stated, fails: the raw value is neither lower-cased nor
    trimmed, and there is no case-insensitive match against the members. *)
Lemma recurring_lookup_is_case_sensitive :
  (recurringOfRaw demoHost (VStr "monthly") = EStr "One-time"
   /\ specRecurring demoHost (VStr "monthly") = EStr "Monthly")
  /\ (recurringOfRaw demoHost (VStr " Yearly ") = EStr "One-time"
      /\ specRecurring demoHost (VStr " Yearly ") = EStr "Yearly").
Proof. vm_compute. auto. Qed.

(** C8 (amended): the raw recurring value, converted to a string, is looked
    up as it is (not trimmed, case-sensitive) in the alias table
    Recurring_M, Recurring_Y, OneTime, One Time, One-time, Monthly, Yearly;
    a key of the table yields its canonical member and every other value
    yields the default One-time, so the result is always one of One-time,
    Monthly, Yearly. The names of the members of [Object.prototype] are
    set aside: the table inherits a value for them. *)
Theorem recurring_exact_lookup (h : Host) (raw : jsval) :
  isPrototypeKey (Val.toStr h raw) = false ->
  (forall v, (Val.toStr h raw, v) ∈ Tables.recurringPairs ->
             recurringOfRaw h raw = EStr v)
  /\ (Val.toStr h raw ∉ Tables.recurringPairs.*1 ->
      recurringOfRaw h raw = EStr "One-time")
  /\ recurringOfRaw h raw ∈ map EStr allowedRecurring.
Proof.
  intros Hp. unfold recurringOfRaw.
  split; [|split].
  - intros v Hin. by rewrite (recurringMap_hit _ _ Hin).
  - intros Hk. by rewrite (recurringMap_miss _ Hk Hp).
  - destruct (decide (Val.toStr h raw ∈ Tables.recurringPairs.*1)) as [Hin|Hk].
    + apply list_elem_of_fmap in Hin as [[k v] [Hk Hin]]. simpl in Hk. rewrite Hk.
      rewrite (recurringMap_hit _ _ Hin).
      unfold Tables.recurringPairs in Hin. simpl.
      repeat (apply elem_of_cons in Hin as [[= _ ->]|Hin]; [set_solver|]).
      by apply elem_of_nil in Hin.
    + rewrite (recurringMap_miss _ Hk Hp). set_solver.
Qed.

Lemma recurring_exact_lookup_witness :
  recurringOfRaw demoHost (VStr "Recurring_M") = EStr "Monthly"
  /\ recurringOfRaw demoHost (VStr "recurring_m") = EStr "One-time".
Proof.
  split.
  - refine (proj1 (recurring_exact_lookup demoHost (VStr "Recurring_M") eq_refl)
              "Monthly" _).
    set_solver.
  - refine (proj1 (proj2 (recurring_exact_lookup demoHost (VStr "recurring_m") eq_refl)) _).
    apply (bool_decide_unpack _). vm_compute. exact I.
Defined.

(** ** Date resolution *)








Lemma frac_bounds (q : Q) :
  (0 <= q - inject_Z (Qfloor q))%Q /\ (q - inject_Z (Qfloor q) < 1)%Q.
Proof.
  pose proof (Qfloor_le q) as H1. pose proof (Qlt_floor q) as H2.
  rewrite inject_Z_plus in H2. change (inject_Z 1) with 1%Q in H2.
  split; lra.
Qed.

(** The fraction of the day and its seconds as the decoder computes
    them. *)
Lemma fraction_rounds (q : Q) :
  exists f, Num.sub (Fin q) (Num.floor (Fin q)) = Fin f
            /\ (f == Num.roundQ (q - inject_Z (Qfloor q)))%Q
            /\ (0 <= f)%Q /\ (f <= 1)%Q.
Proof.
  destruct (frac_bounds q) as [H0 H1].
  destruct (round64_between (q - inject_Z (Qfloor q)) 0 1) as (f & Hf & He & Hlo & Hhi);
    [lia|lia|exact H0|change (inject_Z 1) with 1%Q; lra|].
  exists f. repeat split; assumption.
Qed.

Lemma seconds_round (q : Q) :
  Num.round (Num.mul (Num.sub (Fin q) (Num.floor (Fin q))) (Num.ofZ 86400))
  = Num.ofZ (serialSeconds q)
  /\ 0 <= serialSeconds q <= 86400.
Proof.
  destruct (fraction_rounds q) as (f & -> & He & Hlo & Hhi).
  destruct (round64_between (f * inject_Z 86400) 0 86400) as (p & Hp & Hpe & Hp0 & Hp1);
    [lia|lia| | |].
  { change (inject_Z 0) with 0%Q. change (inject_Z 86400) with 86400%Q. lra. }
  { change (inject_Z 86400) with 86400%Q. lra. }
  assert (Hs : Qfloor (p + (1 # 2)) = serialSeconds q).
  { unfold serialSeconds. apply Qfloor_comp.
    rewrite Hpe. rewrite (roundQ_compat (f * inject_Z 86400)
                            (Num.roundQ (q - inject_Z (Qfloor q)) * 86400)).
    - reflexivity.
    - rewrite He. reflexivity. }
  split.
  - unfold Num.mul, Num.ofZ. rewrite Hp. unfold Num.round, Num.ofZ. by rewrite Hs.
  - rewrite <- Hs. split.
    + assert (H : (inject_Z 0 <= p + (1 # 2))%Q) by (change (inject_Z 0) with 0%Q in *; lra).
      apply Qfloor_resp_le in H. by rewrite Qfloor_Z in H.
    + assert (H : (p + (1 # 2) <= inject_Z 86400 + (1 # 2))%Q) by lra.
      apply Qfloor_resp_le in H.
      assert (H' : Qfloor (inject_Z 86400 + (1 # 2))%Q = 86400) by reflexivity.
      lia.
Qed.

Lemma serialSeconds_bounds (q : Q) : 0 <= serialSeconds q <= 86400.
Proof. exact (proj2 (seconds_round q)). Qed.

(** The seconds grow with the fraction of the day. *)
Lemma serialSeconds_mono (q1 q2 : Q) :
  Qfloor q1 = Qfloor q2 -> (q1 <= q2)%Q -> serialSeconds q1 <= serialSeconds q2.
Proof.
  intros Hf Hle. unfold serialSeconds. rewrite Hf. apply Qfloor_resp_le.
  assert (H1 : (Num.roundQ (q1 - inject_Z (Qfloor q2))
                <= Num.roundQ (q2 - inject_Z (Qfloor q2)))%Q)
    by (apply roundQ_mono; lra).
  assert (H2 : (Num.roundQ (Num.roundQ (q1 - inject_Z (Qfloor q2)) * 86400)
                <= Num.roundQ (Num.roundQ (q2 - inject_Z (Qfloor q2)) * 86400))%Q)
    by (apply roundQ_mono; lra).
  lra.
Qed.

(** The seconds stay below a whole day when the fraction of the serial is
    at least one second short of one. *)
Lemma serialSeconds_lt_day (q : Q) :
  (q - inject_Z (Qfloor q) <= 86399 # 86400)%Q -> serialSeconds q < 86400.
Proof.
  intros Hf. unfold serialSeconds.
  set (f := (q - inject_Z (Qfloor q))%Q) in *.
  assert (H1 : (Num.roundQ f <= Num.roundQ (86399 # 86400))%Q) by by apply roundQ_mono.
  assert (H2 : (Num.roundQ (Num.roundQ f * 86400)
                <= Num.roundQ (Num.roundQ (86399 # 86400) * 86400))%Q)
    by (apply roundQ_mono; lra).
  assert (H3 : (Num.roundQ (Num.roundQ f * 86400) + (1 # 2)
                <= Num.roundQ (Num.roundQ (86399 # 86400) * 86400) + (1 # 2))%Q) by lra.
  apply Qfloor_resp_le in H3.
  assert (H4 : Qfloor (Num.roundQ (Num.roundQ (86399 # 86400) * 86400) + (1 # 2))%Q
               = 86399) by (vm_compute; reflexivity).
  lia.
Qed.

(** The seconds are those of the fraction of the day, up to half a second
    and the error of the two roundings. *)
Lemma serialSeconds_near (q : Q) :
  (Qabs (inject_Z (serialSeconds q) - (q - inject_Z (Qfloor q)) * 86400)
   <= (1 # 2) + Num.pow2 (-35))%Q.
Proof.
  destruct (frac_bounds q) as [H0 H1]. unfold serialSeconds.
  set (f := (q - inject_Z (Qfloor q))%Q) in *.
  assert (Hf0 : (0 <= Num.roundQ f)%Q).
  { pose proof (roundQ_mono 0 f H0) as H. by rewrite (roundQ_zero 0) in H. }
  assert (Hf1 : (Num.roundQ f <= 1)%Q).
  { pose proof (roundQ_mono f 1 ltac:(lra)) as H.
    pose proof (roundQ_Z 1 ltac:(lia)) as H'. change (inject_Z 1) with 1%Q in H'. lra. }
  assert (E1 : (Qabs (Num.roundQ f - f) <= Num.pow2 (0 - 53))%Q).
  { apply roundQ_error; [|lia]. apply Qabs_Qle_condition.
    change (Num.pow2 0) with 1%Q. split; lra. }
  assert (E2 : (Qabs (Num.roundQ (Num.roundQ f * 86400) - Num.roundQ f * 86400)
                <= Num.pow2 (17 - 53))%Q).
  { apply roundQ_error; [|lia]. apply Qabs_Qle_condition.
    assert (Hp : (Num.pow2 17 == 131072)%Q) by reflexivity. rewrite Hp. split; lra. }
  set (p := Num.roundQ (Num.roundQ f * 86400)) in *.
  pose proof (Qfloor_le (p + (1 # 2))) as F1. pose proof (Qlt_floor (p + (1 # 2))) as F2.
  rewrite inject_Z_plus in F2. change (inject_Z 1) with 1%Q in F2.
  apply Qabs_Qle_condition in E1 as [A1 A2]. apply Qabs_Qle_condition in E2 as [B1 B2].
  assert (P53 : (Num.pow2 (0 - 53) * 86400 + Num.pow2 (17 - 53) <= Num.pow2 (-35))%Q)
    by (vm_compute; discriminate).
  apply Qabs_Qle_condition. split; lra.
Qed.

Lemma serialSeconds_whole (n : Z) : serialSeconds (inject_Z n) = 0.
Proof.
  unfold serialSeconds. rewrite Qfloor_Z.
  assert (E : (inject_Z n - inject_Z n == 0)%Q) by ring.
  rewrite (Qfloor_comp _ (1 # 2)); [reflexivity|].
  rewrite (roundQ_compat _ 0).
  - rewrite (roundQ_zero 0); reflexivity.
  - rewrite (roundQ_zero _ E). ring.
Qed.

(** The time value of the date of a serial. Beyond the range in which
    every step is exact the date is invalid on both sides. *)
Lemma excelSerialToDate_time (q : Q) :
  excelSerialToDate (VNum (Fin q))
  = Some (JsDate.timeClip
            (excelEpoch + Qfloor q * 86400000 + serialSeconds q * 1000)).
Proof.
  destruct (seconds_round q) as [Hsec Hb].
  unfold excelSerialToDate.
  change (JsDate.UTC 1899 11 30) with (JsDate.At excelEpoch). cbv beta iota zeta.
  rewrite Hsec.
  change (Num.floor (Fin q)) with (Num.ofZ (Qfloor q)).
  rewrite (mul_int (serialSeconds q) 1000) by lia.
  f_equal. set (d := Qfloor q) in *. set (s := serialSeconds q) in *.
  destruct (Z_le_gt_dec (Z.abs (d * 86400000)) 8700000000000000) as [Hin|Hout].
  - rewrite mul_int by lia.
    rewrite add_int by (unfold excelEpoch; lia).
    rewrite add_int by (unfold excelEpoch; lia).
    apply ofNum_Z.
  - assert (Hclip : JsDate.timeClip (excelEpoch + d * 86400000 + s * 1000)
                    = JsDate.Invalid).
    { unfold JsDate.timeClip, JsDate.maxTime, excelEpoch.
      replace (_ <=? _) with false; [reflexivity|]. symmetry. apply Z.leb_gt. lia. }
    rewrite Hclip.
    assert (Hprod : (inject_Z d * inject_Z 86400000 == inject_Z (d * 86400000))%Q)
      by (by rewrite inject_Z_mult).
    destruct (Z_le_gt_dec 0 d) as [Hpos|Hneg].
    + apply (ofNum_atLeast _ (excelEpoch + 8700000000000000)); [reflexivity|].
      apply (add_atLeast _ _ (excelEpoch + 8700000000000000) 0); [| |lia|unfold excelEpoch; lia].
      * apply (add_atLeast _ _ excelEpoch 8700000000000000); [| |lia|unfold excelEpoch; lia].
        -- simpl. lra.
        -- unfold Num.mul, Num.ofZ. apply round64_atLeast; [lia|].
           rewrite Hprod, <- Zle_Qle. lia.
      * simpl. rewrite <- Zle_Qle. lia.
    + apply (ofNum_atMost _ (excelEpoch - 8700000000000000 + 86400000)); [reflexivity|].
      apply (add_atMost _ _ (excelEpoch - 8700000000000000) 86400000); [| |lia|unfold excelEpoch; lia].
      * apply (add_atMost _ _ excelEpoch (- 8700000000000000)); [| |lia|unfold excelEpoch; lia].
        -- simpl. lra.
        -- unfold Num.mul, Num.ofZ. apply round64_atMost; [lia|].
           rewrite Hprod, <- Zle_Qle. lia.
      * simpl. rewrite <- Zle_Qle. lia.
Qed.

(** A serial that is not a finite number gives an invalid date. *)
Lemma excelSerialToDate_not_finite (n : num) :
  (forall q, n <> Fin q) -> excelSerialToDate (VNum n) = Some JsDate.Invalid.
Proof. intros H. destruct n as [|q|[|]]; [reflexivity|by destruct (H q)|reflexivity..]. Qed.

Lemma timeClip_At (x t : Z) : JsDate.timeClip x = JsDate.At t -> x = t.
Proof. unfold JsDate.timeClip. destruct (_ <=? _); congruence. Qed.

Lemma serialOfTime_floor (d sec : Z) :
  0 <= sec < 86400 ->
  Qfloor (serialOfTime (excelEpoch + d * 86400000 + sec * 1000)) = d.
Proof.
  intros Hs. unfold serialOfTime. cbn [Qfloor].
  replace (excelEpoch + d * 86400000 + sec * 1000 - excelEpoch)
    with (d * 86400000 + sec * 1000) by lia.
  change (Z.pos 86400000) with 86400000.
  rewrite Z.div_add_l by lia. rewrite Z.div_small by lia. lia.
Qed.

Lemma serialOfTime_next_day (d : Z) :
  Qfloor (serialOfTime (excelEpoch + d * 86400000 + 86400 * 1000)) = d + 1.
Proof.
  replace (excelEpoch + d * 86400000 + 86400 * 1000)
    with (excelEpoch + (d + 1) * 86400000 + 0 * 1000) by lia.
  apply serialOfTime_floor. lia.
Qed.

(** Rounding as the engine does it: sums of decimal fractions, the
    largest double and the smallest one. *)
Example round64_tenth : Num.round64 (1 # 10) = Fin (3602879701896397 # 36028797018963968).
Proof. vm_compute. reflexivity. Qed.

Example add_tenths :
  Num.add (Str.parseFloat "0.1") (Str.parseFloat "0.2")
  = Str.parseFloat "0.30000000000000004"
  /\ Num.add (Str.parseFloat "0.1") (Str.parseFloat "0.7")
     = Str.parseFloat "0.7999999999999999"
  /\ Num.gt (Str.parseFloat "0.8") (Str.parseFloat "0.7999999999999999") = true.
Proof. vm_compute. auto. Qed.

Example parseFloat_limits :
  Str.parseFloat "1.7976931348623158e308" = Fin Num.maxFinite
  /\ Str.parseFloat "1.7976931348623159e308" = Inf false
  /\ Str.parseFloat "-1e999" = Inf true
  /\ Str.parseFloat "-Infinity" = Inf true
  /\ Str.parseFloat "5e-324" = Fin (Num.pow2 (-1074))
  /\ Str.parseFloat "2e-324" = Fin 0.
Proof. vm_compute. auto 10. Qed.

(** Two serials next to a whole day: the product of the fraction and
    86400 rounds to a half, and the seconds to the next whole number. *)
Example serialSeconds_double_rounding :
  excelSerialToDate (VNum (Str.parseFloat "5.787037037037037e-06"))
  = Some (JsDate.At (excelEpoch + 1000))
  /\ excelSerialToDate (VNum (Str.parseFloat "-5.787037037037038e-06"))
     = Some (JsDate.At excelEpoch).
Proof. vm_compute. auto. Qed.

(** C7, as stated, fails: a fraction within half a second of the next
    day is rounded up to it, and the date then lies on the next day. The
    serial is the double that the literal 1.999999 denotes. *)
Lemma excelSerial_rounds_into_next_day :
  excelSerialToDate (VNum (Str.parseFloat "1.999999"))
  = Some (JsDate.At (excelEpoch + 2 * 86400000))
  /\ Qfloor (serialOfTime (excelEpoch + 2 * 86400000)) = 2
  /\ Num.floor (Str.parseFloat "1.999999") = Num.ofZ 1.
Proof. vm_compute. auto. Qed.

(** C7 (amended): a non-zero finite serial is read as whole days from
    1899-12-30T00:00:00Z plus seconds: the fraction of the day, computed
    and multiplied by 86400 in double precision, then rounded to a whole
    number, which lies within half a second and 2^-35 s of the fraction.
    The result is a date when it lies in the range of dates. The serial
    that encodes the date has the same whole part, that is, the same
    calendar day, exactly when the seconds are fewer than 86400, and
    this is so whenever the fraction is at least one second short of a
    whole day; with 86400 seconds the date is the start of the next
    day. *)
Theorem excelSerial_day_roundtrip (h : Host) (q : Q) :
  ~ (q == 0)%Q ->
  JsDate.UTC 1899 11 30 = JsDate.At excelEpoch
  /\ parseDateValue h (VNum (Fin q))
     = Some (JsDate.timeClip
               (excelEpoch + Qfloor q * 86400000 + serialSeconds q * 1000))
  /\ 0 <= serialSeconds q <= 86400
  /\ (Qabs (inject_Z (serialSeconds q) - (q - inject_Z (Qfloor q)) * 86400)
      <= (1 # 2) + Num.pow2 (-35))%Q
  /\ (forall t, parseDateValue h (VNum (Fin q)) = Some (JsDate.At t) ->
        (serialSeconds q < 86400 -> Qfloor (serialOfTime t) = Qfloor q)
        /\ (serialSeconds q = 86400 -> Qfloor (serialOfTime t) = Qfloor q + 1))
  /\ ((q - inject_Z (Qfloor q) <= 86399 # 86400)%Q -> serialSeconds q < 86400).
Proof.
  intros Hnz.
  pose proof (serialSeconds_bounds q) as Hb.
  assert (Hparse : parseDateValue h (VNum (Fin q))
                   = Some (JsDate.timeClip
                             (excelEpoch + Qfloor q * 86400000 + serialSeconds q * 1000))).
  { unfold parseDateValue.
    assert (Htruthy : Val.truthy (VNum (Fin q)) = true).
    { simpl. apply negb_true_iff. apply not_true_is_false.
      intros Heq. apply Hnz. by apply Qeq_bool_eq. }
    rewrite Htruthy. cbn [negb]. apply excelSerialToDate_time. }
  split; [reflexivity|]. split; [exact Hparse|]. split; [exact Hb|].
  split; [apply serialSeconds_near|]. split; [|apply serialSeconds_lt_day].
  intros t Ht. rewrite Hparse in Ht. injection Ht as Hclip.
  apply timeClip_At in Hclip. subst t. split.
  - intros Hlt. apply serialOfTime_floor. lia.
  - intros ->. apply serialOfTime_next_day.
Qed.

Lemma excelSerial_day_roundtrip_witness :
  parseDateValue demoHost (VNum (Fin (90001 # 2))) = Some (JsDate.At 1678881600000)
  /\ serialSeconds (90001 # 2) = 43200
  /\ Qfloor (serialOfTime 1678881600000) = Qfloor (90001 # 2).
Proof.
  assert (Hnz : ~ (90001 # 2 == 0)%Q) by discriminate.
  destruct (excelSerial_day_roundtrip demoHost (90001 # 2) Hnz)
    as (_ & Hparse & _ & _ & Hday & _).
  assert (Hs : serialSeconds (90001 # 2) = 43200) by (vm_compute; reflexivity).
  assert (Ht : parseDateValue demoHost (VNum (Fin (90001 # 2)))
               = Some (JsDate.At 1678881600000)).
  { rewrite Hparse, Hs. reflexivity. }
  refine (conj Ht (conj Hs _)).
  apply (Hday 1678881600000 Ht). rewrite Hs. lia.
Defined.

(** ** Shared allocations *)

Lemma gt_zero_positive (n : num) :
  Num.gt n (Num.ofZ 0) = true -> positiveNum n.
Proof.
  destruct n as [|q|[|]]; simpl; try done. intros H.
  apply negb_true_iff in H. apply Qnot_le_lt. intros Hle.
  apply Qle_bool_iff in Hle. change (inject_Z 0) with 0%Q in H. congruence.
Qed.

Lemma sumZ_nonneg (ns : list Z) : Forall (Z.le 0) ns -> 0 <= sumZ ns.
Proof. induction 1 as [|n ns Hn _ IH]; simpl; lia. Qed.

Lemma totalOf_fold_whole {B} (items : list (Alloc.t B)) (ns : list Z) (acc : Z) :
  wholeAmounts items ns -> Forall (Z.le 0) ns -> 0 <= acc ->
  acc + sumZ ns <= 2 ^ 53 ->
  fold_left (fun sum item => Num.add sum (Alloc.amount item)) items (Num.ofZ acc)
  = Num.ofZ (acc + sumZ ns).
Proof.
  unfold wholeAmounts. revert ns acc.
  induction items as [|item items IH]; intros [|n ns] acc Hw Hpos Hacc Hsum;
    try discriminate; cbn [fold_left map sumZ fold_right] in *.
  - f_equal. lia.
  - injection Hw as Ha Hw. apply Forall_cons in Hpos as [Hn Hpos].
    pose proof (sumZ_nonneg ns Hpos) as Hs. fold (sumZ ns) in *.
    rewrite Ha, add_int by lia.
    rewrite (IH ns (acc + n) Hw Hpos) by lia. f_equal. lia.
Qed.

(** The total of shares whose amounts are whole numbers that are not
    negative is their sum, as long as it is at most 2^53. *)
Lemma totalOf_whole {B} (items : list (Alloc.t B)) (ns : list Z) :
  wholeAmounts items ns -> Forall (Z.le 0) ns -> sumZ ns <= 2 ^ 53 ->
  totalOf items = Num.ofZ (sumZ ns).
Proof.
  intros Hw Hpos Hsum. unfold totalOf.
  by rewrite (totalOf_fold_whole items ns 0 Hw Hpos).
Qed.

Lemma gt_whole (x y : Z) : Num.gt (Num.ofZ x) (Num.ofZ y) = true <-> y < x.
Proof.
  unfold Num.gt, Num.ofZ. rewrite negb_true_iff, <- not_true_iff_false, Qle_bool_iff.
  rewrite <- Zle_Qle. lia.
Qed.


Lemma sharedBlock_unshared (h : Host) (row : Row) :
  parseBoolean h (isSharedRawOf row) = false ->
  parseSharedAllocations h (sharedAllocRawOf row) = [] ->
  sharedBlock h row = inr (false, []).
Proof. intros Hflag Hparse. unfold sharedBlock. by rewrite Hflag, Hparse. Qed.

Lemma sharedBlock_flag (h : Host) (row : Row) (isShared : bool) (l : list Share) :
  sharedBlock h row = inr (isShared, l) ->
  isShared = (0 <? length l)%nat.
Proof.
  unfold sharedBlock. destruct (_ || _).
  - destruct (Num.gt _ _); [discriminate|]. by intros [= <- <-].
  - by intros [= <- <-].
Qed.

(** What a row that passes [validateRow] went through. *)
Lemma validateRow_inr (h : Host) (row : Row) (p : Prepared) :
  validateRow h row = inr p ->
  sharedBlock h row = inr (pIsShared p, pSharedAllocations p)
  /\ missingFields h row = []
  /\ enumErrors h row = []
  /\ parseDateValue h (dateOf row) = Some (JsDate.At (pDate p))
  /\ pParticulars p = particularsOf row
  /\ pAmount p = amountOf h row
  /\ pCurrency p = currencyOf h row
  /\ pRecurring p = recurringOf h row.
Proof.
  unfold validateRow.
  destruct (protoNulled row); [discriminate|].
  destruct (sharedBlock h row) as [msg|[isShared shares]]; [discriminate|].
  destruct (missingFields h row); [|discriminate].
  destruct (enumErrors h row); [|discriminate].
  destruct (parseDateValue h (dateOf row)) as [[|t]|]; [discriminate| |discriminate].
  intros [= <-]. simpl. repeat split; reflexivity.
Qed.

Lemma validateRow_protoNulled (h : Host) (row : Row) (p : Prepared) :
  validateRow h row = inr p -> protoNulled row = false.
Proof. unfold validateRow. by destruct (protoNulled row). Qed.





(** C9, as stated, fails on the bulk path: a row whose flag is false but
    whose allocation text parses is treated as shared, and its record
    keeps the allocations. *)
Lemma unflagged_row_keeps_allocations :
  parseBoolean demoHost (isSharedRawOf unflaggedSharedRow) = false
  /\ map (fun e => (Entry.isShared e, Entry.sharedAllocations e))
       (snd (bulkUploadExpenses demoHost 7 [unflaggedSharedRow] []))
     = [ (true, [ Alloc.make (Some (EStr "Collabx")) (Fin 50);
                  Alloc.make (Some (EStr "Wytlabs")) (Fin 0) ]) ].
Proof. vm_compute. auto. Qed.

(** C9 (amended): on the bulk path a row is shared when its flag parses as
    true or its allocation input parses to at least one allocation; a row
    that is not shared in this sense resolves to an empty allocation list
    and a false flag, and whenever the resolved flag of a row is false its
    allocation list is empty; the record is created with that flag and
    list. On the single-record path a falsy [isShared] yields the empty
    list whatever allocations are supplied. *)
Theorem unshared_has_no_allocations (h : Host) :
  (forall (row : Row) (p : Prepared),
      validateRow h row = inr p ->
      (pIsShared p = false -> pSharedAllocations p = [])
      /\ (parseBoolean h (isSharedRawOf row) = false ->
          parseSharedAllocations h (sharedAllocRawOf row) = [] ->
          pIsShared p = false /\ pSharedAllocations p = [])
      /\ (forall user id rate amountInINR,
            Entry.isShared (newEntry h user id p rate amountInINR) = pIsShared p
            /\ Entry.sharedAllocations (newEntry h user id p rate amountInINR)
               = pSharedAllocations p))
  /\ (forall (isShared : jsval) (sharedAllocations : allocArg)
             (totalAmount primaryBU : jsval),
        Val.truthy isShared = false ->
        validateSharedAllocations h isShared sharedAllocations totalAmount primaryBU
        = inr (false, [])).
Proof.
  split.
  - intros row p Hv.
    destruct (validateRow_inr h row p Hv) as (Hblock & _).
    split; [|split].
    + intros Hflag. pose proof (sharedBlock_flag h row _ _ Hblock) as Hlen.
      rewrite Hflag in Hlen. destruct (pSharedAllocations p); [reflexivity|discriminate].
    + intros Hflag Hparse.
      rewrite (sharedBlock_unshared h row Hflag Hparse) in Hblock.
      injection Hblock as <- <-. done.
    + intros; split; reflexivity.
  - intros isShared args totalAmount primaryBU Hfalsy.
    unfold validateSharedAllocations. by rewrite Hfalsy.
Qed.

Lemma unshared_has_no_allocations_witness :
  (exists p, validateRow demoHost scenarioRow = inr p
             /\ pIsShared p = false /\ pSharedAllocations p = [])
  /\ validateSharedAllocations demoHost (VBool false) (ArgArray overAllocatedItems)
       (VNum (Fin 300)) (VStr "Wytlabs") = inr (false, [])
  /\ validateSharedAllocations demoHost VNull ArgOther (VNum (Fin 300)) (VStr "Wytlabs")
     = inr (false, []).
Proof.
  refine (conj _ (conj _ _)).
  - destruct (validateRow demoHost scenarioRow) as [message|p] eqn:Hv;
      [vm_compute in Hv; discriminate|].
    exists p. split; [reflexivity|].
    exact (proj1 (proj2 (proj1 (unshared_has_no_allocations demoHost) scenarioRow p Hv))
             eq_refl eq_refl).
  - exact (proj2 (unshared_has_no_allocations demoHost) (VBool false)
             (ArgArray overAllocatedItems) (VNum (Fin 300)) (VStr "Wytlabs") eq_refl).
  - exact (proj2 (unshared_has_no_allocations demoHost) VNull ArgOther
             (VNum (Fin 300)) (VStr "Wytlabs") eq_refl).
Defined.

(** ** Duplicate reconciliation *)

Lemma find_map_preserving {A} (f : A -> bool) (g : A -> A) (l : list A) :
  (forall x, f (g x) = f x) ->
  List.find f (map g l) = option_map g (List.find f l).
Proof.
  intros Hg. induction l as [|x l IH]; [reflexivity|].
  simpl. rewrite Hg. destruct (f x); [reflexivity|exact IH].
Qed.


Lemma matchesKey_setDuplicateStatus (k : DuplicateKey) (v : option string) (e : Entry.t) :
  matchesKey k (setDuplicateStatus v e) = matchesKey k e.
Proof. reflexivity. Qed.

Lemma findOne_merged (store : Store) (k : DuplicateKey) (e : Entry.t) :
  findOne store k = Some e ->
  findOne (updateById (Entry._id e) (setDuplicateStatus (Some "Merged")) store) k
  = Some (setDuplicateStatus (Some "Merged") e).
Proof.
  intros Hfind. unfold findOne, updateById.
  rewrite find_map_preserving.
  - unfold findOne in Hfind. rewrite Hfind. simpl. by rewrite Nat.eqb_refl.
  - intros x. destruct (Nat.eqb _ _); [apply matchesKey_setDuplicateStatus|reflexivity].
Qed.

Lemma updateById_length (id : nat) (f : Entry.t -> Entry.t) (store : Store) :
  length (updateById id f store) = length store.
Proof. unfold updateById. apply length_map. Qed.




Lemma missingFields_amount (h : Host) (row : Row) :
  missingFields h row = [] -> Num.isNaN (amountOf h row) = false.
Proof.
  unfold missingFields. intros Hm.
  repeat (apply app_eq_nil in Hm as [? Hm]).
  by destruct (Num.isNaN (amountOf h row)).
Qed.



(** How one iteration acts once the row is valid and the rate is
    known. *)
Lemma processRow_valid (h : Host) (user i : nat) (row : Row) (p : Prepared)
    (rate amountInINR : num) (store : Store) (results : Results.t) :
  validateRow h row = inr p ->
  exchange h row p = inr (rate, amountInINR) ->
  processRow h user i row (store, results)
  = match findOne store (keyOf h p) with
    | Some duplicateEntry =>
        if isMerged duplicateEntry
        then (store, Results.incSuccess (Results.incMerged results))
        else
          match saveError h (setDuplicateStatus (Some "Merged") duplicateEntry) with
          | Some message =>
              (store, failRow i message row (Results.incMerged results))
          | None =>
              (updateById (Entry._id duplicateEntry)
                 (setDuplicateStatus (Some "Merged")) store,
               Results.incSuccess (Results.incMerged results))
          end
    | None =>
        match createError h (newEntry h user (freshId store) p rate amountInINR) with
        | Some message => (store, failRow i message row (Results.incUnique results))
        | None =>
            ((store ++ [newEntry h user (freshId store) p rate amountInINR])%list,
             Results.incSuccess (Results.incUnique results))
        end
    end.
Proof. intros Hv Hx. unfold processRow. by rewrite Hv, Hx. Qed.



Lemma setDuplicateStatus_merged (e : Entry.t) :
  isMerged e = true -> setDuplicateStatus (Some "Merged") e = e.
Proof.
  unfold isMerged. destruct e as [? ? ? ? ? ? ? ? ? ? ? ? ? ? ? ? ? ? ? ? ds ? ? ? ? ? ?].
  simpl. destruct ds as [s|]; [|discriminate].
  intros Hs. apply String.eqb_eq in Hs. by subst s.
Qed.

Lemma isMerged_setDuplicateStatus (e : Entry.t) :
  isMerged (setDuplicateStatus (Some "Merged") e) = true.
Proof. reflexivity. Qed.

(** The store after a duplicate was found and, when it was not merged
    yet, written. *)
Lemma merged_store_lookup (store : Store) (k : DuplicateKey) (e : Entry.t) :
  findOne store k = Some e ->
  findOne (if isMerged e then store
           else updateById (Entry._id e) (setDuplicateStatus (Some "Merged")) store) k
  = Some (setDuplicateStatus (Some "Merged") e).
Proof.
  intros Hfind. destruct (isMerged e) eqn:Hm.
  - by rewrite (setDuplicateStatus_merged e Hm).
  - by apply findOne_merged.
Qed.







(** The scenario of the specification: the row is created as Unique with
    the renewal date one year on (2026-01-05), and merged when it is
    ingested again. *)
Example scenario_ingested_twice :
  map (fun e => (Entry.duplicateStatus e, Entry.nextRenewalDate e))
    (fst (processRow demoHost 7 0 scenarioRow ([], Results.initial 2)))
  = [(Some "Unique", Some (JsDate.UTC 2026 0 5))]
  /\ (let r := bulkUploadExpenses demoHost 7 [scenarioRow; scenarioRow] [] in
      fst r = Completed (Results.make 2 2 0 1 1 [])
      /\ map Entry.duplicateStatus (snd r) = [Some "Merged"]).
Proof. vm_compute. auto. Qed.

(** ** The summary of a batch *)

Lemma summaryAfter_failRow (n i : nat) (message : string) (row : Row) (r : Results.t) :
  summaryAfter n r -> summaryAfter (S n) (failRow i message row r).
Proof.
  intros (Hn & He & Hs). unfold summaryAfter, failRow. simpl.
  rewrite length_app. simpl. lia.
Qed.

Lemma processRow_summary (h : Host) (user i : nat) (row : Row) (store : Store)
    (r : Results.t) (n : nat) :
  summaryAfter n r ->
  summaryAfter (S n) (snd (processRow h user i row (store, r)))
  /\ Results.total (snd (processRow h user i row (store, r))) = Results.total r.
Proof.
  intros Hr. unfold processRow.
  destruct (validateRow h row) as [msg|p];
    [split; [by apply summaryAfter_failRow|reflexivity]|].
  destruct (exchange h row p) as [msg|[rate amountInINR]];
    [split; [by apply summaryAfter_failRow|reflexivity]|].
  destruct Hr as (Hn & He & Hs).
  destruct (findOne store (keyOf h p)) as [e|].
  - destruct (isMerged e); [|destruct (saveError h _) as [msg|]].
    + split; [|reflexivity]. unfold summaryAfter. simpl. lia.
    + split; [|reflexivity]. apply summaryAfter_failRow.
      unfold summaryAfter. simpl. lia.
    + split; [|reflexivity]. unfold summaryAfter. simpl. lia.
  - destruct (createError h _) as [msg|].
    + split; [|reflexivity]. apply summaryAfter_failRow.
      unfold summaryAfter. simpl. lia.
    + split; [|reflexivity]. unfold summaryAfter. simpl. lia.
Qed.

Lemma processRows_summary (h : Host) (user : nat) (data : list Row) (i : nat)
    (store : Store) (r : Results.t) (n : nat) :
  summaryAfter n r ->
  summaryAfter (n + length data) (snd (processRows h user i data (store, r)))
  /\ Results.total (snd (processRows h user i data (store, r))) = Results.total r.
Proof.
  revert i store r n. induction data as [|row rest IH]; intros i store r n Hr.
  - simpl. rewrite Nat.add_0_r. done.
  - simpl.
    destruct (processRow_summary h user i row store r n Hr) as [Hstep Htot].
    destruct (processRow h user i row (store, r)) as [store1 r1].
    simpl in Hstep, Htot.
    destruct (IH (S i) store1 r1 (S n) Hstep) as [Hall Htot'].
    split; [|congruence].
    by replace (n + S (length rest))%nat with (S n + length rest)%nat by lia.
Qed.

(** Two of the three counter equations hold for every batch: each row is
    counted as a success or as a failure, and every failure is reported
    once. Of the third only one direction holds. *)
Lemma bulk_summary_counts (h : Host) (user : nat) (data : list Row) (store : Store)
    (results : Results.t) :
  fst (bulkUploadExpenses h user data store) = Completed results ->
  (Results.success results + Results.failed results = Results.total results)%nat
  /\ Results.total results = length data
  /\ length (Results.errors results) = Results.failed results
  /\ (Results.success results <= Results.merged results + Results.unique results)%nat.
Proof.
  unfold bulkUploadExpenses. destruct data as [|row rest]; [discriminate|].
  pose proof (processRows_summary h user (row :: rest) 0 store
                (Results.initial (length (row :: rest))) 0) as [Hs Ht].
  { unfold summaryAfter. simpl. lia. }
  destruct (processRows h user 0 (row :: rest) _) as [store' r].
  simpl fst. intros [= <-]. simpl snd in Hs, Ht.
  destruct Hs as (Hn & He & Hle). simpl Results.total in Ht.
  rewrite Ht. simpl in Hn. split; [lia|]. split; [reflexivity|].
  split; [exact He|lia].
Qed.

(** A row that is valid and has no duplicate, but whose creation the
    store refuses, has already been counted as unique when it is counted
    as failed. *)
Lemma refused_create_step (h : Host) (user i : nat) (row : Row) (p : Prepared)
    (rate amountInINR : num) (store : Store) (results : Results.t)
    (message : string) :
  validateRow h row = inr p ->
  exchange h row p = inr (rate, amountInINR) ->
  findOne store (keyOf h p) = None ->
  createError h (newEntry h user (freshId store) p rate amountInINR) = Some message ->
  processRow h user i row (store, results)
  = (store, failRow i message row (Results.incUnique results)).
Proof.
  intros Hv Hx Hfind Hc.
  rewrite (processRow_valid h user i row p rate amountInINR _ _ Hv Hx).
  by rewrite Hfind, Hc.
Qed.

Lemma processRow_exact (h : Host) (user i : nat) (row : Row) (store : Store)
    (r : Results.t) :
  (forall e, createError h e = None) ->
  (forall e, saveError h e = None) ->
  (Results.merged r + Results.unique r = Results.success r)%nat ->
  let r' := snd (processRow h user i row (store, r)) in
  (Results.merged r' + Results.unique r' = Results.success r')%nat.
Proof.
  intros Hcreate Hsave Hr. unfold processRow.
  destruct (validateRow h row) as [msg|p]; [exact Hr|].
  destruct (exchange h row p) as [msg|[rate amountInINR]]; [exact Hr|].
  destruct (findOne store (keyOf h p)) as [e|].
  - rewrite Hsave. destruct (isMerged e); simpl; lia.
  - rewrite Hcreate. simpl. lia.
Qed.

Lemma processRows_exact (h : Host) (user : nat) (data : list Row) (i : nat)
    (store : Store) (r : Results.t) :
  (forall e, createError h e = None) ->
  (forall e, saveError h e = None) ->
  (Results.merged r + Results.unique r = Results.success r)%nat ->
  let r' := snd (processRows h user i data (store, r)) in
  (Results.merged r' + Results.unique r' = Results.success r')%nat.
Proof.
  intros Hcreate Hsave. revert i store r.
  induction data as [|row rest IH]; intros i store r Hr.
  - exact Hr.
  - cbn [processRows].
    pose proof (processRow_exact h user i row store r Hcreate Hsave Hr) as Hstep.
    destruct (processRow h user i row (store, r)) as [store1 r1].
    exact (IH (S i) store1 r1 Hstep).
Qed.

(** When the store refuses no document, the third equation holds as
    well. *)
Lemma bulk_summary_exact (h : Host) (user : nat) (data : list Row) (store : Store)
    (results : Results.t) :
  (forall e, createError h e = None) ->
  (forall e, saveError h e = None) ->
  fst (bulkUploadExpenses h user data store) = Completed results ->
  (Results.merged results + Results.unique results = Results.success results)%nat.
Proof.
  intros Hcreate Hsave. unfold bulkUploadExpenses.
  destruct data as [|row rest]; [discriminate|].
  pose proof (processRows_exact h user (row :: rest) 0 store
                (Results.initial (length (row :: rest))) Hcreate Hsave eq_refl) as Hs.
  destruct (processRows h user 0 (row :: rest) _) as [store' r].
  simpl fst. intros [= <-]. exact Hs.
Qed.

(** C10 (the code at the failing input): a valid row with no duplicate
    whose creation the store refuses is counted as unique before the
    write and as failed after it, so the summary of this one-row batch has
    unique = 1 next to success = 0: merged + unique = success does not
    hold, while success + failed = total and the length of the error list
    do. *)
Theorem refused_create_counts_unique_and_failed :
  bulkUploadExpenses strictHost 7 [inheritedRecurringRow] []
  = (Completed
       (Results.make 1 0 1 0 1
          [Results.mkError 2 recurringValidationMessage inheritedRecurringRow]),
     []).
Proof. vm_compute. reflexivity. Qed.

(** ** The calendar *)

Lemma civilOfDoe_ok (doe : Z) :
  0 <= doe < JsDate.daysPerEra ->
  0 <= fst (fst (JsDate.civilOfDoe doe)) <= 399
  /\ 1 <= snd (fst (JsDate.civilOfDoe doe)) <= 12
  /\ 1 <= snd (JsDate.civilOfDoe doe) <= 31
  /\ JsDate.doeOf (fst (fst (JsDate.civilOfDoe doe)))
       (snd (fst (JsDate.civilOfDoe doe))) (snd (JsDate.civilOfDoe doe)) = doe.
Proof.
  unfold JsDate.daysPerEra, JsDate.civilOfDoe, JsDate.doeOf. intros H. cbn [fst snd].
  set (yoe := (doe - doe / 1460 + doe / 36524 - doe / 146096) / 365).
  assert (Hy : 0 <= yoe <= 399 /\ 0 <= doe - (365 * yoe + yoe / 4 - yoe / 100) <= 365).
  { subst yoe. Z.div_mod_to_equations. lia. }
  set (doy := doe - (365 * yoe + yoe / 4 - yoe / 100)) in *.
  set (mp := (5 * doy + 2) / 153).
  assert (Hmp : 0 <= mp <= 11) by (subst mp; Z.div_mod_to_equations; lia).
  assert (Hd : 0 <= doy - (153 * mp + 2) / 5 <= 30)
    by (subst mp; Z.div_mod_to_equations; lia).
  destruct (mp <? 10) eqn:Hlt.
  - apply Z.ltb_lt in Hlt.
    replace (mp + 3 <=? 2) with false by (symmetry; apply Z.leb_gt; lia).
    replace (mp + 3 - 3) with mp by lia.
    repeat split; try lia; subst doy; lia.
  - apply Z.ltb_ge in Hlt.
    replace (mp - 9 <=? 2) with true by (symmetry; apply Z.leb_le; lia).
    replace (mp - 9 + 9) with mp by lia.
    repeat split; try lia; subst doy; lia.
Qed.

(** The day number of the calendar date of a day number is that day
    number. *)
Lemma civil_roundtrip (z : Z) :
  JsDate.daysFromCivil (fst (fst (JsDate.civilFromDays z)))
    (snd (fst (JsDate.civilFromDays z))) (snd (JsDate.civilFromDays z)) = z
  /\ 1 <= snd (fst (JsDate.civilFromDays z)) <= 12
  /\ 1 <= snd (JsDate.civilFromDays z) <= 31.
Proof.
  unfold JsDate.civilFromDays.
  assert (Hdoe : 0 <= (z + JsDate.eraShift) mod JsDate.daysPerEra < JsDate.daysPerEra)
    by (apply Z.mod_pos_bound; reflexivity).
  pose proof (civilOfDoe_ok _ Hdoe) as (Hy & Hm & Hd & Hback).
  destruct (JsDate.civilOfDoe ((z + JsDate.eraShift) mod JsDate.daysPerEra))
    as [[yoe m] d].
  cbn [fst snd] in *. split; [|split; assumption].
  unfold JsDate.daysFromCivil.
  set (era := (z + JsDate.eraShift) / JsDate.daysPerEra) in *.
  assert (Hy' : (if m <=? 2
                 then (if m <=? 2 then yoe + era * 400 + 1 else yoe + era * 400) - 1
                 else (if m <=? 2 then yoe + era * 400 + 1 else yoe + era * 400))
                = yoe + era * 400)
    by (destruct (m <=? 2); lia).
  rewrite Hy'.
  rewrite Z.div_add by lia. rewrite Z.div_small by lia.
  rewrite Z.mod_add by lia. rewrite Z.mod_small by lia.
  rewrite Hback.
  pose proof (Z.div_mod (z + JsDate.eraShift) JsDate.daysPerEra) as Hdm.
  subst era. unfold JsDate.daysPerEra in *. lia.
Qed.



Lemma daysFromCivil_day (y m d : Z) :
  JsDate.daysFromCivil y m d = JsDate.daysFromCivil y m 1 + d - 1.
Proof. unfold JsDate.daysFromCivil, JsDate.doeOf. lia. Qed.

(** The inverse direction: the calendar date of the day number of a valid
    date is that date. *)
Lemma month_back (mp d : Z) :
  0 <= mp <= 11 -> 1 <= d -> (153 * mp + 2) / 5 + d - 1 < (153 * (mp + 1) + 2) / 5 ->
  let doy := (153 * mp + 2) / 5 + d - 1 in
  (5 * doy + 2) / 153 = mp.
Proof. intros. subst doy. Z.div_mod_to_equations. lia. Qed.

Lemma yoe_back (yoe doy : Z) :
  0 <= yoe <= 399 -> 0 <= doy ->
  yoe * 365 + yoe / 4 - yoe / 100 + doy
    < (if yoe =? 399 then 146097 else (yoe + 1) * 365 + (yoe + 1) / 4 - (yoe + 1) / 100) ->
  let doe := yoe * 365 + yoe / 4 - yoe / 100 + doy in
  (doe - doe / 1460 + doe / 36524 - doe / 146096) / 365 = yoe.
Proof.
  intros Hy Hd Hlt doe. subst doe.
  destruct (Z.eqb_spec yoe 399) as [->|Hne].
  - Z.div_mod_to_equations. lia.
  - Z.div_mod_to_equations. lia.
Qed.

Lemma valid_day_bounds (y m d : Z) :
  1 <= m <= 12 -> 1 <= d <= JsDate.monthLength y m ->
  let y' := if m <=? 2 then y - 1 else y in
  let yoe := y' mod 400 in
  let mp := if m <=? 2 then m + 9 else m - 3 in
  let doy := (153 * mp + 2) / 5 + d - 1 in
  0 <= mp <= 11
  /\ (153 * mp + 2) / 5 + d - 1 < (153 * (mp + 1) + 2) / 5
  /\ yoe * 365 + yoe / 4 - yoe / 100 + doy
     < (if yoe =? 399 then 146097 else (yoe + 1) * 365 + (yoe + 1) / 4 - (yoe + 1) / 100).
Proof.
  intros Hm Hd. unfold JsDate.monthLength, JsDate.daysFromCivil, JsDate.doeOf, JsDate.daysPerEra, JsDate.eraShift in Hd.
  cbv zeta.
  destruct (m <=? 2) eqn:H1; destruct (m mod 12 + 1 <=? 2) eqn:H2;
    [apply Z.leb_le in H1|apply Z.leb_le in H1|apply Z.leb_gt in H1|apply Z.leb_gt in H1];
    [apply Z.leb_le in H2|apply Z.leb_gt in H2|apply Z.leb_le in H2|apply Z.leb_gt in H2].
  all: split; [lia|].
  all: match goal with |- context [?a =? 399] => destruct (Z.eqb_spec a 399) as [He|He] end.
  all: split; Z.div_mod_to_equations; lia.
Qed.

Lemma civilOfDoe_back (yoe m d : Z) :
  0 <= yoe <= 399 -> 1 <= m <= 12 -> 1 <= d ->
  let mp := if m <=? 2 then m + 9 else m - 3 in
  (153 * mp + 2) / 5 + d - 1 < (153 * (mp + 1) + 2) / 5 ->
  yoe * 365 + yoe / 4 - yoe / 100 + ((153 * mp + 2) / 5 + d - 1)
     < (if yoe =? 399 then 146097 else (yoe + 1) * 365 + (yoe + 1) / 4 - (yoe + 1) / 100) ->
  JsDate.civilOfDoe (JsDate.doeOf yoe m d) = (yoe, m, d).
Proof.
  intros Hy Hm Hd mp Hmonth Hyear.
  assert (Hmp : 0 <= mp <= 11) by (subst mp; destruct (m <=? 2) eqn:E; [apply Z.leb_le in E|apply Z.leb_gt in E]; lia).
  assert (Hdoy0 : 0 <= (153 * mp + 2) / 5 + d - 1) by (Z.div_mod_to_equations; lia).
  unfold JsDate.civilOfDoe, JsDate.doeOf. fold mp.
  rewrite (yoe_back yoe _ Hy Hdoy0 Hyear).
  replace (yoe * 365 + yoe / 4 - yoe / 100 + ((153 * mp + 2) / 5 + d - 1)
           - (365 * yoe + yoe / 4 - yoe / 100))
    with ((153 * mp + 2) / 5 + d - 1) by lia.
  rewrite (month_back mp d Hmp Hd Hmonth).
  f_equal; [f_equal|lia].
  subst mp. destruct (m <=? 2) eqn:E; [apply Z.leb_le in E|apply Z.leb_gt in E].
  - replace (m + 9 <? 10) with false by (symmetry; apply Z.ltb_ge; lia). lia.
  - replace (m - 3 <? 10) with true by (symmetry; apply Z.ltb_lt; lia). lia.
Qed.

Lemma civil_of_days (y m d : Z) :
  1 <= m <= 12 -> 1 <= d <= JsDate.monthLength y m ->
  JsDate.civilFromDays (JsDate.daysFromCivil y m d) = (y, m, d).
Proof.
  intros Hm Hd.
  pose proof (valid_day_bounds y m d Hm Hd) as (Hmp & Hmonth & Hyear). cbv zeta in *.
  set (y' := if m <=? 2 then y - 1 else y) in *.
  assert (Hyoe : 0 <= y' mod 400 <= 399) by (pose proof (Z.mod_pos_bound y' 400); lia).
  pose proof (civilOfDoe_back (y' mod 400) m d Hyoe Hm (proj1 Hd) Hmonth Hyear) as Hback.
  assert (Hdoe : 0 <= JsDate.doeOf (y' mod 400) m d < JsDate.daysPerEra).
  { unfold JsDate.doeOf, JsDate.daysPerEra.
    destruct (Z.eqb_spec (y' mod 400) 399) as [He|He];
      [rewrite He in *|]; Z.div_mod_to_equations; lia. }
  unfold JsDate.civilFromDays, JsDate.daysFromCivil. fold y'.
  replace (y' / 400 * JsDate.daysPerEra + JsDate.doeOf (y' mod 400) m d - JsDate.eraShift + JsDate.eraShift)
    with (JsDate.doeOf (y' mod 400) m d + y' / 400 * JsDate.daysPerEra) by lia.
  rewrite Z.mod_add by (unfold JsDate.daysPerEra; lia).
  rewrite Z.div_add by (unfold JsDate.daysPerEra; lia).
  rewrite Z.mod_small by exact Hdoe. rewrite Z.div_small by exact Hdoe.
  rewrite Hback.
  f_equal. f_equal.
  pose proof (Z.div_mod y' 400). subst y'.
  destruct (m <=? 2); lia.
Qed.

(** [Date.UTC] on a valid calendar date is midnight of that date: its year
    (1900 + year for the years 0..99), zero-based month and day of month
    are read back from the time value. *)
Lemma UTC_fields (year m d t : Z) :
  1 <= m <= 12 ->
  let yr := if (0 <=? year) && (year <=? 99) then 1900 + year else year in
  1 <= d <= JsDate.monthLength yr m ->
  JsDate.UTC year (m - 1) d = JsDate.At t ->
  JsDate.yearFromTime t = yr
  /\ JsDate.monthFromTime t = m - 1
  /\ JsDate.dateFromTime t = d
  /\ JsDate.timeWithinDay t = 0.
Proof.
  intros Hm yr Hd Hutc.
  unfold JsDate.UTC in Hutc. fold yr in Hutc.
  unfold JsDate.timeClip in Hutc.
  destruct (Z.abs _ <=? JsDate.maxTime); [|discriminate].
  injection Hutc as <-.
  assert (Hday : JsDate.makeDay yr (m - 1) d = JsDate.daysFromCivil yr m d).
  { unfold JsDate.makeDay.
    rewrite (Z.div_small (m - 1) 12) by lia.
    rewrite (Z.mod_small (m - 1) 12) by lia.
    rewrite (daysFromCivil_day yr m d).
    replace (yr + 0) with yr by lia. replace (m - 1 + 1) with m by lia. lia. }
  unfold JsDate.yearFromTime, JsDate.monthFromTime, JsDate.dateFromTime,
    JsDate.timeWithinDay, JsDate.day, JsDate.makeDate, JsDate.msPerDay.
  rewrite Hday.
  rewrite Z.add_0_r, Z.div_mul by lia. rewrite Z.mod_mul by lia.
  rewrite (civil_of_days yr m d Hm Hd). cbn [fst snd].
  repeat split; reflexivity.
Qed.

Example UTC_epoch : JsDate.UTC 1970 0 1 = JsDate.At 0.
Proof. reflexivity. Qed.

Example UTC_millennium : JsDate.UTC 2000 0 1 = JsDate.At 946684800000.
Proof. reflexivity. Qed.

Example UTC_leap_day :
  JsDate.UTC 2024 1 29 = JsDate.At 1709164800000
  /\ JsDate.UTC 2023 1 29 = JsDate.UTC 2023 2 1.
Proof. split; reflexivity. Qed.

Example UTC_two_digit_year : JsDate.UTC 99 11 31 = JsDate.UTC 1999 11 31.
Proof. reflexivity. Qed.

Example UTC_spreadsheet_epoch : JsDate.UTC 1899 11 30 = JsDate.At (-2209161600000).
Proof. reflexivity. Qed.

Example civilFromDays_known :
  JsDate.civilFromDays 0 = (1970, 1, 1)
  /\ JsDate.civilFromDays 19782 = (2024, 2, 29)
  /\ JsDate.civilFromDays (-25569) = (1899, 12, 30).
Proof. repeat split; reflexivity. Qed.

(** MakeDay on the year and month of a time value counts from the first
    of its month. *)
Lemma makeDay_same_month (l dt : Z) :
  JsDate.makeDay (JsDate.yearFromTime l) (JsDate.monthFromTime l) dt
  = JsDate.day l + (dt - JsDate.dateFromTime l).
Proof.
  unfold JsDate.makeDay, JsDate.yearFromTime, JsDate.monthFromTime, JsDate.dateFromTime.
  pose proof (civil_roundtrip (JsDate.day l)) as (Hback & Hm & Hd).
  destruct (JsDate.civilFromDays (JsDate.day l)) as [[y m] d]. cbn [fst snd] in *.
  rewrite Z.div_small by lia. rewrite Z.mod_small by lia.
  replace (y + 0) with y by lia. replace (m - 1 + 1) with m by lia.
  rewrite daysFromCivil_day in Hback. lia.
Qed.



Lemma day_time_split (l : Z) :
  l = JsDate.day l * JsDate.msPerDay + JsDate.timeWithinDay l.
Proof.
  unfold JsDate.day, JsDate.timeWithinDay, JsDate.msPerDay.
  pose proof (Z.div_mod l 86400000). lia.
Qed.



Lemma getMonth_range (tz : Z -> bool -> Z) (t : Z) : 1 <= JsDate.getMonth tz t + 1 <= 12.
Proof.
  unfold JsDate.getMonth, JsDate.monthFromTime.
  pose proof (civil_roundtrip (JsDate.day (JsDate.localTime tz t))) as (_ & Hm & _).
  lia.
Qed.


Lemma timeWithinDay_bounds (l : Z) : 0 <= JsDate.timeWithinDay l < JsDate.msPerDay.
Proof. unfold JsDate.timeWithinDay. apply Z.mod_pos_bound. reflexivity. Qed.

Lemma day_of_sum (d r : Z) :
  0 <= r < JsDate.msPerDay -> JsDate.day (d * JsDate.msPerDay + r) = d.
Proof.
  intros Hr. unfold JsDate.day, JsDate.msPerDay in *.
  rewrite Z.add_comm, Z.div_add by lia. rewrite Z.div_small by lia. lia.
Qed.








(** Across the start of summer time a month on is an hour less than the
    days of the month, and a date at the end of January runs over into
    March. *)
Example plusOneMonth_across_daylight_saving :
  JsDate.plusOneMonth berlinTZA 1742025600000 = JsDate.At (1742025600000 + 31 * 86400000 - 3600000)
  /\ JsDate.plusOneMonth (fun _ _ => 0) 1738281600000 = JsDate.UTC 2025 2 3.
Proof. vm_compute. auto. Qed.

(** ** Writes by identifier *)

Lemma NoDup_ids_filter (f : Entry.t -> bool) (store : Store) :
  NoDup (map Entry._id store) -> NoDup (map Entry._id (List.filter f store)).
Proof.
  induction store as [|x l IH]; simpl; [done|].
  intros Hnd. apply NoDup_cons in Hnd as [Hx Hnd].
  destruct (f x); [|by apply IH]. simpl. apply NoDup_cons. split; [|by apply IH].
  intros Hin. apply Hx. apply list_elem_of_In in Hin. apply list_elem_of_In.
  apply in_map_iff in Hin as (y & Hy & Hiny). apply in_map_iff. exists y.
  split; [exact Hy|]. by apply filter_In in Hiny as [? _].
Qed.

Lemma find_id_absent (id : nat) (l : list Entry.t) :
  id ∉ map Entry._id l -> List.find (fun c => Nat.eqb (Entry._id c) id) l = None.
Proof.
  induction l as [|y l IH]; simpl; [done|].
  intros Hn. apply not_elem_of_cons in Hn as [Hne Hn].
  destruct (Nat.eqb_spec (Entry._id y) id) as [Heq|_]; [congruence|by apply IH].
Qed.

(** Among the records that pass a filter, the one with the identifier of
    a record of the store is that record. *)
Lemma find_id_filter (f : Entry.t -> bool) (store : Store) (x : Entry.t) :
  NoDup (map Entry._id store) -> In x store ->
  List.find (fun c => Nat.eqb (Entry._id c) (Entry._id x)) (List.filter f store)
  = if f x then Some x else None.
Proof.
  induction store as [|y l IH]; simpl; [done|].
  intros Hnd Hin. apply NoDup_cons in Hnd as [Hy Hnd].
  assert (Hfl : forall z, Entry._id z ∉ map Entry._id l ->
                          Entry._id z ∉ map Entry._id (List.filter f l)).
  { intros z Hz Hin'. apply Hz. apply list_elem_of_In in Hin'. apply list_elem_of_In.
    apply in_map_iff in Hin' as (w & Hw & Hinw). apply in_map_iff. exists w.
    split; [exact Hw|]. by apply filter_In in Hinw as [? _]. }
  destruct Hin as [->|Hin].
  - destruct (f x) eqn:Hfx.
    + simpl. by rewrite Nat.eqb_refl.
    + apply find_id_absent. by apply Hfl.
  - assert (Hne : Entry._id y <> Entry._id x).
    { intros Heq. apply Hy. rewrite Heq. apply list_elem_of_In. by apply in_map. }
    destruct (f y); [|by apply IH].
    simpl. apply Nat.eqb_neq in Hne. rewrite Hne. by apply IH.
Qed.

(** A sequence of writes, one per record of [cs], each to the record with
    the same identifier. *)
Lemma fold_updates (upd : Entry.t -> Entry.t -> Entry.t) (cs : list Entry.t)
    (store : Store) :
  (forall c e, Entry._id (upd c e) = Entry._id e) ->
  NoDup (map Entry._id cs) ->
  fold_left (fun st c => updateById (Entry._id c) (upd c) st) cs store
  = map (fun x =>
           match List.find (fun c => Nat.eqb (Entry._id c) (Entry._id x)) cs with
           | Some c => upd c x
           | None => x
           end) store.
Proof.
  intros Hid. revert store. induction cs as [|c cs IH]; intros store Hnd; simpl.
  - by rewrite map_id.
  - apply NoDup_cons in Hnd as [Hc Hnd]. rewrite (IH _ Hnd).
    unfold updateById. rewrite map_map. apply map_ext. intros x.
    rewrite (Nat.eqb_sym (Entry._id c) (Entry._id x)).
    destruct (Nat.eqb_spec (Entry._id x) (Entry._id c)) as [Heq|Hne].
    + rewrite Hid, Heq. by rewrite (find_id_absent _ _ Hc).
    + reflexivity.
Qed.

(** ** The rollover job *)

Lemma resetEntry_id (h : Host) (c e : Entry.t) :
  Entry._id (setRenewalNotificationSent false (setNextRenewalDate (rolledDate h c) e))
  = Entry._id e.
Proof. reflexivity. Qed.

(** The rollover job rewrites exactly its candidates. *)
Lemma runRenewalFlagResetOnce_map (h : Host) (now : Z) (store : Store) :
  NoDup (map Entry._id store) ->
  runRenewalFlagResetOnce h now store
  = map (fun x => if resetCandidate now x then resetEntry h x else x) store.
Proof.
  intros Hnd. unfold runRenewalFlagResetOnce.
  assert (Hfold : match List.filter (resetCandidate now) store with
                  | [] => store
                  | _ :: _ =>
                      fold_left (applyReset h) (List.filter (resetCandidate now) store) store
                  end
                  = fold_left (applyReset h) (List.filter (resetCandidate now) store) store)
    by (destruct (List.filter _ _); reflexivity).
  rewrite Hfold. unfold applyReset.
  rewrite (fold_updates
             (fun c e => setRenewalNotificationSent false
                           (setNextRenewalDate (rolledDate h c) e)))
    by (try apply NoDup_ids_filter; done).
  apply map_ext_in. intros x Hin.
  rewrite (find_id_filter _ _ _ Hnd Hin). by destruct (resetCandidate now x).
Qed.



(** ** The reminder job *)

Lemma setHours_window (tz : Z -> bool -> Z) (t hh mm ss ms : Z) :
  JsDate.setHours tz (JsDate.At t) hh mm ss ms
  = JsDate.timeClip
      (JsDate.utcOf tz (JsDate.day (JsDate.localTime tz t) * JsDate.msPerDay
                        + JsDate.makeTime hh mm ss ms)).
Proof. reflexivity. Qed.

Lemma day_characterised (d x : Z) :
  d * JsDate.msPerDay <= x <= d * JsDate.msPerDay + 86399999 <-> JsDate.day x = d.
Proof.
  unfold JsDate.day, JsDate.msPerDay.
  pose proof (Z.div_mod x 86400000) as Hdm.
  pose proof (Z.mod_pos_bound x 86400000) as Hb. lia.
Qed.

(** In a zone of one offset the window of a job is the local day that
    lies the given number of days after today. *)
Lemma dayWindow_days (h : Host) (z now days lo hi : Z) :
  fixedOffset h z ->
  dayWindow h now days = Some (lo, hi) ->
  hi = lo + 86399999
  /\ forall D, lo <= D <= hi
               <-> JsDate.day (D + z) = JsDate.day (now + z) + days.
Proof.
  intros Hz.
  unfold dayWindow, JsDate.setDate, JsDate.getDate, JsDate.makeDate.
  rewrite makeDay_same_month.
  unfold JsDate.utcOf, JsDate.localTime. rewrite !Hz.
  replace (JsDate.dateFromTime (now + z) + days - JsDate.dateFromTime (now + z))
    with days by lia.
  set (d := JsDate.day (now + z) + days).
  pose proof (timeWithinDay_bounds (now + z)) as Hr.
  destruct (JsDate.timeClip _) as [|t1] eqn:Ht1; [discriminate|].
  apply timeClip_At in Ht1.
  rewrite setHours_window. unfold JsDate.utcOf, JsDate.localTime. rewrite !Hz.
  assert (Hd1 : JsDate.day (t1 + z) = d).
  { rewrite <- Ht1.
    replace (d * JsDate.msPerDay + JsDate.timeWithinDay (now + z) - z + z)
      with (d * JsDate.msPerDay + JsDate.timeWithinDay (now + z)) by lia.
    by apply day_of_sum. }
  rewrite Hd1.
  destruct (JsDate.timeClip _) as [|start] eqn:Hs; [discriminate|].
  apply timeClip_At in Hs.
  rewrite setHours_window. unfold JsDate.utcOf, JsDate.localTime. rewrite !Hz.
  assert (Hd2 : JsDate.day (start + z) = d).
  { rewrite <- Hs. unfold JsDate.makeTime.
    replace (d * JsDate.msPerDay + (0 * 3600000 + 0 * 60000 + 0 * 1000 + 0) - z + z)
      with (d * JsDate.msPerDay + 0) by lia.
    apply day_of_sum. unfold JsDate.msPerDay. lia. }
  rewrite Hd2.
  destruct (JsDate.timeClip _) as [|finish] eqn:Hf; [discriminate|].
  apply timeClip_At in Hf. intros [= <- <-].
  split; [unfold JsDate.makeTime in *; lia|]. intros D.
  rewrite <- (day_characterised d (D + z)).
  unfold JsDate.makeTime in *. lia.
Qed.














(** * Properties of the rest of the code *)

(** ** Reading a column of an uploaded row *)

Lemma normalizedMap_app (row : Row) (k : string) (v : jsval) :
  normalizedMap (row ++ [(k, v)])%list
  = if Str.nonEmpty (headerKey k) && negb (String.eqb (headerKey k) "__proto__")
    then <[headerKey k := v]> (normalizedMap row) else normalizedMap row.
Proof. unfold normalizedMap. rewrite fold_left_app. reflexivity. Qed.

Lemma lastColumn_app (row : Row) (k : string) (v : jsval) (n : string) :
  lastColumn (row ++ [(k, v)])%list n
  = if String.eqb (headerKey k) n then Some v else lastColumn row n.
Proof.
  induction row as [|[k' v'] row IH]; simpl.
  - reflexivity.
  - rewrite IH. destruct (String.eqb (headerKey k) n); reflexivity.
Qed.

Lemma normalizedMap_lookup (row : Row) (n : string) :
  Forall (fun kv => headerKey (fst kv) <> "__proto__") row ->
  Str.nonEmpty n = true ->
  normalizedMap row !! n = lastColumn row n.
Proof.
  intros Hrow Hn. induction row as [|[k v] row IH] using rev_ind.
  - reflexivity.
  - apply Forall_app in Hrow as [Hrow Hk]. rewrite Forall_singleton in Hk. cbn [fst] in Hk.
    rewrite normalizedMap_app, lastColumn_app.
    destruct (String.eqb (headerKey k) "__proto__") eqn:Hp;
      [apply String.eqb_eq in Hp; destruct (Hk Hp)|].
    rewrite andb_true_r.
    destruct (String.eqb_spec (headerKey k) n) as [->|Hne].
    + rewrite Hn. by rewrite lookup_insert_eq.
    + destruct (Str.nonEmpty (headerKey k)).
      * rewrite lookup_insert_ne by exact Hne. by apply IH.
      * by apply IH.
Qed.

Lemma headerKey_nonEmpty (s : string) :
  Str.nonEmpty (headerKey s) = true -> Str.nonEmpty s = true.
Proof. destruct s; [discriminate|reflexivity]. Qed.

(** X1: when no header of the row has the normal form [__proto__],
    which an assignment does not store as a property, [getField] returns
    the value of the first alias, in the order given, that names a column
    of the row once both are trimmed and lower-cased; of several columns
    with the same normal form the last one counts, an alias that is blank
    names none, and with no such alias the result is [undefined]. *)
Theorem getField_by_columns (row : Row) (aliases : list string) :
  Forall (fun kv => headerKey (fst kv) <> "__proto__") row ->
  getField row aliases = firstAliasValue row aliases.
Proof.
  intros Hrow. unfold getField.
  induction aliases as [|alias rest IH]; [reflexivity|].
  simpl. fold (headerKey alias).
  destruct (Str.nonEmpty (headerKey alias)) eqn:Hn.
  - rewrite (headerKey_nonEmpty _ Hn). simpl.
    rewrite (normalizedMap_lookup row _ Hrow Hn).
    destruct (lastColumn row (headerKey alias)); [reflexivity|exact IH].
  - rewrite andb_false_r. exact IH.
Qed.

Lemma getField_by_columns_witness :
  getField [("Card Number", VStr "M003"); (" CARD NUMBER ", VStr "M004")]
    ["cardNumber"; "Card Number"]
  = VStr "M004".
Proof.
  rewrite getField_by_columns; [reflexivity|].
  repeat constructor; intros E; vm_compute in E; discriminate E.
Defined.

(** X2: [getField] depends on the headers and the aliases through
    their trimmed, lower-cased forms only: rows with the same values under
    headers that agree in that form, read with aliases that agree in that
    form, give the same value. *)
Theorem getField_normal_forms (row row' : Row) (aliases aliases' : list string) :
  Forall2 (fun kv kv' => headerKey (fst kv) = headerKey (fst kv') /\ snd kv = snd kv') row row' ->
  Forall2 (fun a a' => headerKey a = headerKey a') aliases aliases' ->
  getField row aliases = getField row' aliases'.
Proof.
  intros Hrow Hal. unfold getField.
  assert (Hmap : normalizedMap row = normalizedMap row').
  { unfold normalizedMap. generalize (∅ : gmap string jsval).
    induction Hrow as [|[k v] [k' v'] row row' [Hk Hv] _ IH]; intros acc; [reflexivity|].
    simpl in *. fold (headerKey k) (headerKey k'). rewrite Hk, Hv. apply IH. }
  rewrite Hmap. clear Hmap Hrow.
  induction Hal as [|a a' al al' Ha _ IH]; [reflexivity|].
  simpl. fold (headerKey a) (headerKey a'). rewrite <- Ha.
  destruct (Str.nonEmpty (headerKey a)) eqn:Hn.
  - rewrite (headerKey_nonEmpty _ Hn).
    assert (Hn' : Str.nonEmpty (headerKey a') = true) by (by rewrite <- Ha).
    rewrite (headerKey_nonEmpty _ Hn'). simpl.
    destruct (normalizedMap row' !! headerKey a); [reflexivity|exact IH].
  - rewrite !andb_false_r. exact IH.
Qed.

Lemma getField_normal_forms_witness :
  getField [(" CARD NUMBER ", VStr "M003")] ["card number"]
  = getField [("Card Number", VStr "M003")] ["Card Number"].
Proof.
  apply getField_normal_forms; repeat constructor.
Defined.

(** ** The enumerations and the shares of an upload *)

Lemma matchAllowed_In (norm : string) (allowedSet : list string) (r : enumv) :
  matchAllowed norm allowedSet = Some r -> exists a, r = EStr a /\ In a allowedSet.
Proof.
  induction allowedSet as [|a rest IH]; simpl; [discriminate|].
  destruct (String.eqb (Str.toLowerCase a) norm).
  - intros [= <-]. eauto.
  - intros H. destruct (IH H) as (b & -> & Hb). eauto.
Qed.

Lemma objGet_list (pairs : list (string * string)) (key : string) (r : enumv) :
  objGet (list_to_map pairs) key = Some r ->
  (exists v, r = EStr v /\ In v (map snd pairs))
  \/ (exists k, r = EProto k /\ isPrototypeKey k = true).
Proof.
  unfold objGet.
  destruct (list_to_map pairs !! key) as [v|] eqn:Hl.
  - destruct (Str.nonEmpty v); [|discriminate]. intros [= <-]. left.
    exists v. split; [reflexivity|].
    apply elem_of_list_to_map_2 in Hl. apply list_elem_of_In in Hl.
    apply (in_map snd) in Hl. exact Hl.
  - destruct (isPrototypeKey key) eqn:Hp; [|discriminate].
    intros [= <-]. right. eauto.
Qed.

Lemma normalizeEnum_range (h : Host) (value : jsval) (pairs : list (string * string))
    (allowedSet : list string) (r : enumv) :
  incl (map snd pairs) allowedSet ->
  normalizeEnum h value (list_to_map pairs) allowedSet = Some r ->
  canonicalResult allowedSet r.
Proof.
  intros Hincl. unfold normalizeEnum.
  destruct (negb (Val.truthy value)); [discriminate|].
  destruct (objGet _ _) as [v|] eqn:Hg.
  - intros [= <-]. apply objGet_list in Hg as [(a & -> & Ha)|(k & -> & Hk)].
    + apply Hincl, Ha.
    + exact Hk.
  - intros H. apply matchAllowed_In in H as (a & -> & Ha). exact Ha.
Qed.

(** X3: for each of the five enumerations of the upload (type of
    service, cost center, business unit, status, approver), whatever
    [normalizeEnum] returns is an allowed value of the enumeration, or a
    member of [Object.prototype] found under the key; and every allowed
    value is returned as it is. *)
Theorem normalizeEnum_canonical (h : Host) (table : gmap string string)
    (allowedSet : list string) :
  In (table, allowedSet) enumTables ->
  (forall value r,
      normalizeEnum h value table allowedSet = Some r -> canonicalResult allowedSet r)
  /\ (forall a, In a allowedSet ->
        normalizeEnum h (VStr a) table allowedSet = Some (EStr a)).
Proof.
  intros Hin. simpl in Hin.
  destruct Hin as [H|[H|[H|[H|[H|[]]]]]]; injection H as <- <-; split.
  all: try (intros value r; apply normalizeEnum_range;
            intros x Hx; simpl in Hx; simpl;
            repeat (destruct Hx as [<-|Hx]; [tauto|]); destruct Hx).
  all: intros a Ha; simpl in Ha;
       repeat (destruct Ha as [<-|Ha]; [vm_compute; reflexivity|]); destruct Ha.
Qed.

Lemma normalizeEnum_canonical_witness :
  normalizeEnum demoHost (VStr " Tools & Services ") Tables.typeMap Tables.allowedTypes
  = Some (EStr "Service")
  /\ canonicalResult Tables.allowedTypes (EStr "Service")
  /\ normalizeEnum demoHost (VStr "Service") Tables.typeMap Tables.allowedTypes
     = Some (EStr "Service").
Proof.
  pose proof (normalizeEnum_canonical demoHost Tables.typeMap Tables.allowedTypes
                (or_introl eq_refl)) as [Hrange Hfix].
  refine (conj eq_refl (conj (Hrange (VStr " Tools & Services ") _ eq_refl) (Hfix _ _))).
  simpl. tauto.
Defined.

Lemma normalizeBU_canonical (h : Host) (val : jsval) (b : enumv) :
  normalizeBU h val = Some b -> canonicalResult Tables.allowedBusinessUnits b.
Proof.
  unfold normalizeBU, Tables.businessUnitMap. apply normalizeEnum_range.
  intros x Hx. simpl in Hx. simpl.
  repeat (destruct Hx as [<-|Hx]; [tauto|]). destruct Hx.
Qed.

Lemma shareOfItem_positive (h : Host) (item : jitem) (s : Share) :
  shareOfItem h item = Some (Some s) -> positiveShare s.
Proof.
  destruct item as [|props]; simpl; [discriminate|].
  destruct (normalizeBU h _) as [b|] eqn:Hb; [|discriminate].
  destruct (Num.gt _ _) eqn:Hgt; [|discriminate].
  intros [= <-]. exists b. split; [reflexivity|].
  split; [exact (gt_zero_positive _ Hgt)|].
  exact (normalizeBU_canonical h _ b Hb).
Qed.

Lemma sharesOfItems_positive (h : Host) (items : list jitem) (l : list Share) :
  sharesOfItems h items = Some l -> Forall positiveShare l.
Proof.
  revert l. induction items as [|item rest IH]; intros l; simpl.
  - intros [= <-]. constructor.
  - destruct (shareOfItem h item) as [o|] eqn:Ho; [|discriminate].
    destruct (sharesOfItems h rest) as [l'|]; [|discriminate].
    intros [= <-]. destruct o as [s|]; [|by apply IH].
    constructor; [exact (shareOfItem_positive h item s Ho)|by apply IH].
Qed.

Lemma shareOfPart_positive (h : Host) (part : string) (s : Share) :
  shareOfPart h part = Some s -> positiveShare s.
Proof.
  unfold shareOfPart.
  destruct (matchAlloc part) as [[label number]|]; [|discriminate].
  destruct (normalizeBU h _) as [b|] eqn:Hb; [|discriminate].
  destruct (negb _ && Num.gt _ _) eqn:Hok; [|discriminate].
  intros [= <-]. apply andb_true_iff in Hok as [_ Hgt].
  exists b. split; [reflexivity|]. split; [exact (gt_zero_positive _ Hgt)|].
  exact (normalizeBU_canonical h _ b Hb).
Qed.

Lemma parseSharedAllocations_positively (h : Host) (raw : jsval) :
  Forall positiveShare (parseSharedAllocations h raw).
Proof.
  unfold parseSharedAllocations.
  destruct (negb (Val.truthy raw)); [constructor|].
  assert (Htext : forall text, Forall positiveShare (sharesOfText h text)).
  { intros text. unfold sharesOfText.
    destruct (negb _); [constructor|].
    apply List.Forall_forall. intros s Hs.
    apply list_elem_of_In in Hs. apply list_elem_of_omap in Hs as (part & _ & Hpart).
    exact (shareOfPart_positive h part s Hpart). }
  destruct (jsonParseArray h _) as [items|]; [|apply Htext].
  destruct (sharesOfItems h items) as [l|] eqn:Hl; [|apply Htext].
  exact (sharesOfItems_positive h items l Hl).
Qed.

(** X4: every share [parseSharedAllocations] returns, for any
    cell, has a business unit the table resolves and an amount greater
    than 0: a positive double or [Infinity], which a number of more than
    308 digits parses to. *)
Theorem parseSharedAllocations_positive (h : Host) (raw : jsval) :
  Forall positiveShare (parseSharedAllocations h raw).
Proof.
  induction (parseSharedAllocations_positively h raw) as [|s l Hs _ IH];
    constructor; assumption.
Qed.

(** ** What a validated row holds *)

Lemma recurringOfRaw_canonical (h : Host) (raw : jsval) :
  canonicalResult allowedRecurring (recurringOfRaw h raw).
Proof.
  unfold recurringOfRaw.
  destruct (objGet Tables.recurringMap (Val.toStr h raw)) as [v|] eqn:Hg.
  - unfold Tables.recurringMap in Hg.
    apply objGet_list in Hg as [(a & -> & Ha)|(k & -> & Hk)]; [|exact Hk].
    simpl in Ha. simpl. repeat (destruct Ha as [<-|Ha]; [tauto|]). destruct Ha.
  - simpl. tauto.
Qed.

(** X5: in a row that passes validation, type of service, business
    unit, cost center, approver, status and recurrence are each an allowed
    value of their enumeration, or a member of [Object.prototype]. *)
Theorem prepared_enums_canonical (h : Host) (row : Row) (p : Prepared) :
  validateRow h row = inr p ->
  canonicalResult Tables.allowedTypes (pTypeOfService p)
  /\ canonicalResult Tables.allowedBusinessUnits (pBusinessUnit p)
  /\ canonicalResult Tables.allowedCostCenters (pCostCenter p)
  /\ canonicalResult Tables.allowedApprovedBy (pApprovedBy p)
  /\ canonicalResult Tables.allowedStatus (pStatus p)
  /\ canonicalResult allowedRecurring (pRecurring p).
Proof.
  unfold validateRow.
  destruct (protoNulled row); [discriminate|].
  destruct (sharedBlock h row) as [msg|[isShared shares]]; [discriminate|].
  destruct (missingFields h row) eqn:Hm; [|discriminate].
  destruct (enumErrors h row) eqn:He; [|discriminate].
  destruct (parseDateValue h (dateOf row)) as [[|t]|]; [discriminate| |discriminate].
  intros [= <-]. cbn [pTypeOfService pBusinessUnit pCostCenter pApprovedBy pStatus pRecurring].
  unfold enumErrors in He. repeat (apply app_eq_nil in He as [? He]).
  assert (Hrange : forall value pairs allowedSet,
            incl (map snd pairs) allowedSet ->
            isSet (normalizeEnum h value (list_to_map pairs) allowedSet) = true ->
            canonicalResult allowedSet
              (default (EStr "") (normalizeEnum h value (list_to_map pairs) allowedSet))).
  { intros value pairs allowedSet Hincl Hset.
    destruct (normalizeEnum h value (list_to_map pairs) allowedSet) as [r|] eqn:Hn;
      [|discriminate].
    exact (normalizeEnum_range h value pairs allowedSet r Hincl Hn). }
  assert (Hincl : forall (xs ys : list string),
            forallb (fun x => existsb (String.eqb x) ys) xs = true -> incl xs ys).
  { intros xs ys Hall x Hx. rewrite forallb_forall in Hall.
    specialize (Hall x Hx). apply existsb_exists in Hall as (y & Hy & Heq).
    apply String.eqb_eq in Heq. by subst. }
  destruct (isSet (typeOfServiceOf h row)) eqn:E1; [|discriminate].
  destruct (isSet (businessUnitOf h row)) eqn:E2; [|discriminate].
  destruct (isSet (costCenterOf h row)) eqn:E3; [|discriminate].
  destruct (isSet (approvedByOf h row)) eqn:E4; [|discriminate].
  repeat split.
  - apply (Hrange (typeOfServiceRawOf row) _ Tables.allowedTypes);
      [by apply Hincl|exact E1].
  - apply (Hrange (VStr (businessUnitRawOf h row)) _ Tables.allowedBusinessUnits);
      [by apply Hincl|exact E2].
  - apply (Hrange (costCenterRawOf row) _ Tables.allowedCostCenters);
      [by apply Hincl|exact E3].
  - apply (Hrange (approvedByRawOf row) _ Tables.allowedApprovedBy);
      [by apply Hincl|exact E4].
  - unfold statusOf.
    destruct (normalizeEnum h _ Tables.statusMap _) as [r|] eqn:Hn; [|simpl; tauto].
    apply (normalizeEnum_range h _ _ _ r) in Hn; [exact Hn|by apply Hincl].
  - apply recurringOfRaw_canonical.
Qed.

Lemma prepared_enums_canonical_witness :
  exists p,
    validateRow demoHost scenarioRow = inr p
    /\ pTypeOfService p = EStr "Tool"
    /\ canonicalResult Tables.allowedTypes (pTypeOfService p)
    /\ canonicalResult allowedRecurring (pRecurring p).
Proof.
  destruct (validateRow demoHost scenarioRow) as [message|p] eqn:Hv;
    [vm_compute in Hv; discriminate Hv|].
  exists p. split; [reflexivity|].
  destruct (prepared_enums_canonical demoHost scenarioRow p Hv)
    as (Htype & _ & _ & _ & _ & Hrec).
  split; [|exact (conj Htype Hrec)].
  vm_compute in Hv. injection Hv as <-. reflexivity.
Defined.

Lemma withPrimary_names (bu : enumv) (shares : list Share) :
  exists s, In s (withPrimary (Some bu) shares) /\ Alloc.businessUnit s = Some bu.
Proof.
  unfold withPrimary.
  destruct (existsb (fun item => sameUnit (Alloc.businessUnit item) (Some bu)) shares)
    eqn:Hex.
  - apply existsb_exists in Hex as (s & Hin & Hsame). exists s. split; [exact Hin|].
    unfold sameUnit in Hsame. destruct (Alloc.businessUnit s) as [x|]; [|discriminate].
    unfold enumEqb in Hsame. apply bool_decide_eq_true in Hsame. by subst.
  - exists (Alloc.make (Some bu) (Num.ofZ 0)). split; [|reflexivity].
    apply in_or_app. right. by left.
Qed.

Lemma nonNegative_add (a b : num) :
  nonNegativeNum a -> nonNegativeNum b -> nonNegativeNum (Num.add a b).
Proof.
  intros Ha Hb.
  exact (add_atLeast a b 0 0 0 Ha Hb ltac:(lia) ltac:(lia)).
Qed.

Lemma totalOf_nonNegative {B} (items : list (Alloc.t B)) :
  Forall (fun item => nonNegativeNum (Alloc.amount item)) items ->
  nonNegativeNum (totalOf items).
Proof.
  intros Hall. unfold totalOf.
  assert (H0 : nonNegativeNum (Num.ofZ 0)) by apply Qle_refl.
  revert H0. generalize (Num.ofZ 0).
  induction Hall as [|item l Hi _ IH]; intros acc Hacc; [exact Hacc|].
  cbn [fold_left]. apply IH. by apply nonNegative_add.
Qed.

(** Of two numbers the first of which is not greater, the second is
    greater or equal. *)
Lemma not_gt_ge (a b : num) :
  Num.isNaN a = false -> Num.isNaN b = false ->
  Num.gt a b = false -> Num.ge b a = true.
Proof.
  destruct a as [|x|[|]], b as [|y|[|]]; simpl; try done.
  intros _ _ H. by apply negb_false_iff in H.
Qed.

Lemma nonNegative_not_NaN (n : num) : nonNegativeNum n -> Num.isNaN n = false.
Proof. by destruct n. Qed.

Lemma positive_nonNegative (n : num) : positiveNum n -> nonNegativeNum n.
Proof. destruct n as [|q|s]; simpl; [done| |done]. intros H. lra. Qed.

(** X6: a validated row that is shared holds the parsed shares
    completed with the business unit of the row: that unit has a share,
    every share has a unit and an amount that is not negative, and the
    amount of the row is a number that is greater than or equal to the
    total of the shares as the code adds it up, in double precision. When
    the amounts are whole numbers with a sum of at most 2^53, the shares
    add up to at most the amount of the row. *)
Theorem shared_rows_are_split (h : Host) (row : Row) (p : Prepared) :
  validateRow h row = inr p ->
  pIsShared p = true ->
  pSharedAllocations p
  = withPrimary (Some (pBusinessUnit p)) (parseSharedAllocations h (sharedAllocRawOf row))
  /\ (exists s, In s (pSharedAllocations p)
                /\ Alloc.businessUnit s = Some (pBusinessUnit p))
  /\ Forall storedShare (pSharedAllocations p)
  /\ Num.isNaN (pAmount p) = false
  /\ Num.ge (pAmount p) (totalOf (pSharedAllocations p)) = true
  /\ (forall (ns : list Z) (total : Z),
        wholeAmounts (pSharedAllocations p) ns -> Forall (Z.le 0) ns ->
        sumZ ns <= 2 ^ 53 -> pAmount p = Num.ofZ total ->
        sumZ ns <= total).
Proof.
  intros Hv Hshared.
  destruct (validateRow_inr h row p Hv) as (Hblock & Hm & _ & _ & _ & Hpa & _).
  pose proof (missingFields_amount h row Hm) as Ha.
  assert (Hbu : businessUnitOf h row = Some (pBusinessUnit p)).
  { revert Hv. unfold validateRow.
    destruct (protoNulled row); [discriminate|].
    destruct (sharedBlock h row) as [msg|[isShared shares]]; [discriminate|].
    destruct (missingFields h row) eqn:Hm'; [|discriminate].
    destruct (enumErrors h row); [|discriminate].
    destruct (parseDateValue h (dateOf row)) as [[|t]|]; [discriminate| |discriminate].
    intros [= <-]. cbn [pBusinessUnit].
    unfold missingFields in Hm'. repeat (apply app_eq_nil in Hm' as [? Hm']).
    destruct (businessUnitOf h row); [reflexivity|discriminate]. }
  rewrite Hshared in Hblock. unfold sharedBlock in Hblock.
  destruct (parseBoolean h (isSharedRawOf row) || _); [|discriminate].
  rewrite Hbu, <- Hpa in Hblock. rewrite <- Hpa in Ha.
  set (all := withPrimary (Some (pBusinessUnit p))
                (parseSharedAllocations h (sharedAllocRawOf row))) in *.
  destruct (Num.gt (totalOf all) (pAmount p)) eqn:Hgt; [discriminate|].
  injection Hblock as _ Hl.
  assert (Hstored : Forall storedShare all).
  { subst all. unfold withPrimary.
    assert (Hparsed : Forall storedShare
                        (parseSharedAllocations h (sharedAllocRawOf row))).
    { eapply Forall_impl; [apply parseSharedAllocations_positively|].
      intros s (b & Hb & Hq & _). exists b. split; [exact Hb|].
      by apply positive_nonNegative. }
    destruct (existsb _ _); [exact Hparsed|].
    apply Forall_app. split; [exact Hparsed|]. constructor; [|constructor].
    exists (pBusinessUnit p). split; [reflexivity|]. apply Qle_refl. }
  assert (Hkeep : List.filter keepShare all = all).
  { clear -Hstored. induction Hstored as [|s l (b & Hb & Hq) _ IH]; [reflexivity|].
    cbn [List.filter]. unfold keepShare at 1. rewrite Hb.
    replace (negb (Num.isNaN (Alloc.amount s)) && Num.ge (Alloc.amount s) (Num.ofZ 0))
      with true; [by rewrite IH|].
    destruct (Alloc.amount s) as [|q|[|]]; simpl in *; try done.
    symmetry. by apply Qle_bool_iff. }
  rewrite Hkeep in Hl. rewrite <- Hl.
  assert (Htotal : nonNegativeNum (totalOf all)).
  { apply totalOf_nonNegative. eapply Forall_impl; [exact Hstored|].
    by intros s (b & _ & Hq). }
  assert (Hge : Num.ge (pAmount p) (totalOf all) = true).
  { apply not_gt_ge; [by apply nonNegative_not_NaN|exact Ha|exact Hgt]. }
  split; [reflexivity|]. split; [apply withPrimary_names|]. split; [exact Hstored|].
  split; [exact Ha|]. split; [exact Hge|].
  intros ns total Hw Hpos Hsum Htot.
  rewrite (totalOf_whole all ns Hw Hpos Hsum), Htot in Hgt.
  destruct (Z_le_gt_dec (sumZ ns) total) as [L|G]; [exact L|].
  assert (Hc : Num.gt (Num.ofZ (sumZ ns)) (Num.ofZ total) = true)
    by (apply gt_whole; lia).
  congruence.
Qed.

Lemma shared_rows_are_split_witness :
  exists p,
    validateRow demoHost unflaggedSharedRow = inr p
    /\ pSharedAllocations p
       = [Alloc.make (Some (EStr "Collabx")) (Fin 50);
          Alloc.make (Some (EStr "Wytlabs")) (Fin 0)]
    /\ Forall storedShare (pSharedAllocations p)
    /\ Num.ge (pAmount p) (totalOf (pSharedAllocations p)) = true.
Proof.
  destruct (validateRow demoHost unflaggedSharedRow) as [message|p] eqn:Hv;
    [vm_compute in Hv; discriminate Hv|].
  exists p. split; [reflexivity|].
  assert (Hp : pIsShared p = true
               /\ pSharedAllocations p
                  = [Alloc.make (Some (EStr "Collabx")) (Fin 50);
                     Alloc.make (Some (EStr "Wytlabs")) (Fin 0)]).
  { vm_compute in Hv. injection Hv as <-. split; reflexivity. }
  destruct Hp as [Hshared Hl].
  destruct (shared_rows_are_split demoHost unflaggedSharedRow p Hv Hshared)
    as (_ & _ & Hstored & _ & Hge & _).
  exact (conj Hl (conj Hstored Hge)).
Defined.

(** ** Serial numbers of a spreadsheet *)

(** X7: a numeric serial [q] is converted to the epoch 1899-12-30
    UTC plus its whole days plus the seconds of the fraction of the day,
    which is multiplied by 86400 in double precision and rounded to a
    whole number (halves upwards), clipped to the range of a date. The
    date is a whole number of seconds after the epoch, within 500 ms and
    2^-25 ms of the exact instant, and a whole serial [n] gives midnight
    UTC [n] days after the epoch. *)
Theorem excelSerialToDate_nearest_second (q : Q) :
  excelSerialToDate (VNum (Fin q))
  = Some (JsDate.timeClip
            (excelEpoch + Qfloor q * 86400000 + serialSeconds q * 1000))
  /\ 0 <= serialSeconds q <= 86400
  /\ (forall t, excelSerialToDate (VNum (Fin q)) = Some (JsDate.At t) ->
        (Qabs (inject_Z t - (inject_Z excelEpoch + q * 86400000))
         <= 500 + Num.pow2 (-25))%Q
        /\ (t - excelEpoch) mod 1000 = 0)
  /\ (forall n, q = inject_Z n ->
        excelSerialToDate (VNum (Fin q)) = Some (JsDate.UTC 1899 11 (30 + n))).
Proof.
  pose proof (excelSerialToDate_time q) as Hclosed.
  split; [exact Hclosed|]. split; [apply serialSeconds_bounds|]. split.
  - intros t Ht. rewrite Hclosed in Ht. injection Ht as Ht.
    apply timeClip_At in Ht. subst t. split.
    + pose proof (serialSeconds_near q) as Hn.
      apply Qabs_Qle_condition in Hn as [Hn1 Hn2].
      assert (Hp : (1000 * Num.pow2 (-35) <= Num.pow2 (-25))%Q)
        by (vm_compute; discriminate).
      rewrite !inject_Z_plus, !inject_Z_mult.
      change (inject_Z 1000) with 1000%Q. change (inject_Z 86400000) with 86400000%Q.
      apply Qabs_Qle_condition. split; lra.
    + replace (excelEpoch + Qfloor q * 86400000 + serialSeconds q * 1000 - excelEpoch)
        with ((Qfloor q * 86400 + serialSeconds q) * 1000) by lia.
      apply Z.mod_mul. lia.
  - intros n ->. rewrite Hclosed. f_equal.
    rewrite serialSeconds_whole, Qfloor_Z.
    unfold JsDate.UTC, JsDate.makeDate, JsDate.makeDay. f_equal.
    change (JsDate.daysFromCivil _ _ 1) with (-25598).
    unfold excelEpoch, JsDate.msPerDay. lia.
Qed.

(** X8: the conversion of serials keeps their order: of two serials
    that both give a date, the larger never gives the earlier date. *)
Theorem excelSerialToDate_monotone (q1 q2 : Q) (t1 t2 : Z) :
  (q1 <= q2)%Q ->
  excelSerialToDate (VNum (Fin q1)) = Some (JsDate.At t1) ->
  excelSerialToDate (VNum (Fin q2)) = Some (JsDate.At t2) ->
  t1 <= t2.
Proof.
  intros Hle H1 H2.
  rewrite excelSerialToDate_time in H1, H2.
  injection H1 as H1. injection H2 as H2.
  apply timeClip_At in H1, H2. subst t1 t2.
  pose proof (serialSeconds_bounds q1) as B1. pose proof (serialSeconds_bounds q2) as B2.
  pose proof (Qfloor_resp_le _ _ Hle) as Hd.
  destruct (Z.eq_dec (Qfloor q1) (Qfloor q2)) as [E|NE].
  - pose proof (serialSeconds_mono q1 q2 E Hle) as Hs. lia.
  - lia.
Qed.

Lemma excelSerialToDate_monotone_witness :
  excelSerialToDate (VNum (Fin (45292 # 1))) = Some (JsDate.At 1704067200000)
  /\ excelSerialToDate (VNum (Fin (90585 # 2))) = Some (JsDate.At 1704110400000)
  /\ 1704067200000 <= 1704110400000.
Proof.
  assert (H1 : excelSerialToDate (VNum (Fin (45292 # 1)))
               = Some (JsDate.At 1704067200000)) by (vm_compute; reflexivity).
  assert (H2 : excelSerialToDate (VNum (Fin (90585 # 2)))
               = Some (JsDate.At 1704110400000)) by (vm_compute; reflexivity).
  refine (conj H1 (conj H2 _)).
  apply (excelSerialToDate_monotone (45292 # 1) (90585 # 2)); [|exact H1|exact H2].
  unfold Qle. simpl. lia.
Defined.

(** ** What an upload does to the store *)

Lemma keptOrMerged_refl (e : Entry.t) : keptOrMerged e e.
Proof. by left. Qed.

Lemma setDuplicateStatus_twice (v : option string) (e : Entry.t) :
  setDuplicateStatus v (setDuplicateStatus v e) = setDuplicateStatus v e.
Proof. reflexivity. Qed.

Lemma keptOrMerged_trans (a b c : Entry.t) :
  keptOrMerged a b -> keptOrMerged b c -> keptOrMerged a c.
Proof.
  intros [->| ->] [->| ->]; [by left|by right|by right|right].
  apply setDuplicateStatus_twice.
Qed.

Lemma updateById_keptOrMerged (id : nat) (store : Store) :
  Forall2 keptOrMerged store (updateById id (setDuplicateStatus (Some "Merged")) store).
Proof.
  unfold updateById. induction store as [|e rest IH]; simpl; constructor; [|exact IH].
  destruct (Nat.eqb _ _); [by right|by left].
Qed.

Lemma Forall2_keptOrMerged_refl (store : Store) : Forall2 keptOrMerged store store.
Proof. induction store; constructor; [apply keptOrMerged_refl|assumption]. Qed.

Lemma countsAdded_failed (h : Host) (i : nat) (message : string) (row : Row)
    (r : Results.t) :
  countsAdded h 0 r (failRow i message row r).
Proof. unfold countsAdded. simpl. repeat split; intros; lia. Qed.

(** One row: the records stored before are kept or merged, and at most one
    record is added, which the row has created. *)
Lemma processRow_store (h : Host) (user i : nat) (row : Row) (store : Store)
    (r : Results.t) :
  exists kept added,
    fst (processRow h user i row (store, r)) = (kept ++ added)%list
    /\ Forall2 keptOrMerged store kept
    /\ Forall (uploadedBy h user) added
    /\ countsAdded h (length added) r (snd (processRow h user i row (store, r))).
Proof.
  assert (Hsame : forall r', countsAdded h 0 r r' ->
            exists kept added, store = (kept ++ added)%list
              /\ Forall2 keptOrMerged store kept /\ Forall (uploadedBy h user) added
              /\ countsAdded h (length added) r r').
  { intros r' Hc. exists store, []. rewrite app_nil_r.
    split; [reflexivity|]. split; [apply Forall2_keptOrMerged_refl|].
    split; [constructor|exact Hc]. }
  unfold processRow.
  destruct (validateRow h row) as [msg|p]; [apply Hsame, countsAdded_failed|].
  destruct (exchange h row p) as [msg|[rate amountInINR]];
    [apply Hsame, countsAdded_failed|].
  destruct (findOne store (keyOf h p)) as [dup|].
  - destruct (isMerged dup);
      [|destruct (saveError h (setDuplicateStatus (Some "Merged") dup)) as [msg|] eqn:Hs];
      cbn [fst snd].
    + apply Hsame. unfold countsAdded. simpl. repeat split; intros; lia.
    + apply Hsame. unfold countsAdded. simpl. repeat split; intros; try lia.
      match goal with H : forall e, saveError h e = None |- _ => rewrite H in Hs end.
      discriminate.
    + exists (updateById (Entry._id dup) (setDuplicateStatus (Some "Merged")) store), [].
      rewrite app_nil_r. split; [reflexivity|].
      split; [apply updateById_keptOrMerged|split; [constructor|]].
      unfold countsAdded. simpl. repeat split; intros; lia.
  - destruct (createError h _) as [msg|] eqn:Hc; cbn [fst snd].
    + apply Hsame. unfold countsAdded. simpl. repeat split; intros; try lia.
      match goal with H : forall e, createError h e = None |- _ => rewrite H in Hc end.
      discriminate.
    + exists store, [newEntry h user (freshId store) p rate amountInINR].
      split; [reflexivity|]. split; [apply Forall2_keptOrMerged_refl|].
      split.
      * constructor; [|constructor]. eexists _, _, _, _. apply keptOrMerged_refl.
      * unfold countsAdded. simpl. repeat split; intros; lia.
Qed.

Lemma uploadedBy_keptOrMerged (h : Host) (user : nat) (e e' : Entry.t) :
  uploadedBy h user e -> keptOrMerged e e' -> uploadedBy h user e'.
Proof.
  intros (id & p & rate & inr & He) Hk. exists id, p, rate, inr.
  exact (keptOrMerged_trans _ _ _ He Hk).
Qed.

Lemma Forall2_keptOrMerged_trans (l1 l2 l3 : list Entry.t) :
  Forall2 keptOrMerged l1 l2 -> Forall2 keptOrMerged l2 l3 -> Forall2 keptOrMerged l1 l3.
Proof.
  intros H12. revert l3. induction H12 as [|a b l1 l2 Hab _ IH]; intros l3 H23.
  - inversion H23. constructor.
  - inversion H23 as [|b' c l2' l3' Hbc Hrest]; subst.
    constructor; [exact (keptOrMerged_trans _ _ _ Hab Hbc)|by apply IH].
Qed.

Lemma Forall2_uploadedBy (h : Host) (user : nat) (l l' : list Entry.t) :
  Forall (uploadedBy h user) l -> Forall2 keptOrMerged l l' -> Forall (uploadedBy h user) l'.
Proof.
  intros Hl H2. induction H2 as [|a b l l' Hab _ IH]; [constructor|].
  inversion Hl; subst. constructor; [by eapply uploadedBy_keptOrMerged|by apply IH].
Qed.

Lemma countsAdded_trans (h : Host) (n1 n2 : nat) (r r1 r2 : Results.t) :
  countsAdded h n1 r r1 -> countsAdded h n2 r1 r2 -> countsAdded h (n1 + n2) r r2.
Proof.
  intros (A1 & B1 & C1 & D1) (A2 & B2 & C2 & D2). unfold countsAdded.
  split; [lia|]. split; [lia|]. split.
  - intros Hs. specialize (C1 Hs). specialize (C2 Hs). lia.
  - intros Hc. specialize (D1 Hc). specialize (D2 Hc). lia.
Qed.

Lemma processRows_store (h : Host) (user : nat) (data : list Row) (i : nat)
    (store : Store) (r : Results.t) :
  exists kept added,
    fst (processRows h user i data (store, r)) = (kept ++ added)%list
    /\ Forall2 keptOrMerged store kept
    /\ Forall (uploadedBy h user) added
    /\ countsAdded h (length added) r (snd (processRows h user i data (store, r))).
Proof.
  revert i store r. induction data as [|row rest IH]; intros i store r.
  - exists store, []. simpl. rewrite app_nil_r. split; [reflexivity|].
    split; [apply Forall2_keptOrMerged_refl|split; [constructor|]].
    unfold countsAdded. repeat split; intros; lia.
  - simpl.
    destruct (processRow_store h user i row store r)
      as (kept1 & added1 & Hst1 & Hk1 & Ha1 & Hc1).
    destruct (processRow h user i row (store, r)) as [store1 r1].
    cbn [fst snd] in Hst1, Hc1. subst store1.
    destruct (IH (S i) (kept1 ++ added1)%list r1)
      as (kept2 & added2 & Hst2 & Hk2 & Ha2 & Hc2).
    apply Forall2_app_inv_l in Hk2 as (k2a & k2b & Hka & Hkb & ->).
    exists k2a, (k2b ++ added2)%list.
    split; [by rewrite Hst2, <- app_assoc|].
    split; [exact (Forall2_keptOrMerged_trans _ _ _ Hk1 Hka)|].
    split.
    + apply Forall_app. split; [exact (Forall2_uploadedBy h user _ _ Ha1 Hkb)|exact Ha2].
    + rewrite length_app. apply Forall2_length in Hkb. rewrite <- Hkb.
      exact (countsAdded_trans h _ _ _ _ _ Hc1 Hc2).
Qed.

(** X9: an upload removes no stored record and rewrites none except
    to mark it Merged: the store after it is the records stored before, in
    their order, each unchanged or marked Merged, followed by the records
    the upload created, which are Accepted and belong to the uploading
    user. *)
Theorem bulk_upload_keeps_records (h : Host) (user : nat) (data : list Row)
    (store : Store) :
  exists kept added,
    snd (bulkUploadExpenses h user data store) = (kept ++ added)%list
    /\ Forall2 keptOrMerged store kept
    /\ Forall (uploadedBy h user) added
    /\ Forall (fun e => Entry.entryStatus e = "Accepted" /\ Entry.createdBy e = user)
         added.
Proof.
  unfold bulkUploadExpenses. destruct data as [|row rest].
  - exists store, []. simpl. rewrite app_nil_r. split; [reflexivity|].
    split; [|split; constructor].
    apply Forall2_same_length_lookup_2; [reflexivity|].
    intros j x y Hx Hy. rewrite Hx in Hy. injection Hy as <-. apply keptOrMerged_refl.
  - destruct (processRows_store h user (row :: rest) 0 store
                (Results.initial (length (row :: rest))))
      as (kept & added & Hst & Hk & Ha & _).
    destruct (processRows h user 0 (row :: rest) _) as [store' r'].
    cbn [fst snd] in *. exists kept, added.
    split; [exact Hst|]. split; [exact Hk|]. split; [exact Ha|].
    apply List.Forall_forall. intros e He.
    rewrite List.Forall_forall in Ha. destruct (Ha e He) as (id & p & rate & inr & [->| ->]);
      repeat split; reflexivity.
Qed.

(** X10: after a completed upload the store holds the records
    stored before and one more for each row that was counted as unique
    and whose creation the store accepted. It has not shrunk and has
    grown by at most the rows counted as unique, by as many when the
    store refuses no creation; and the records stored after plus the
    merged rows are at least the records stored before plus the
    successful rows, and as many when the store refuses no write of a
    merged record. *)
Theorem bulk_upload_added_count (h : Host) (user : nat) (data : list Row)
    (store : Store) (results : Results.t) :
  fst (bulkUploadExpenses h user data store) = Completed results ->
  let store' := snd (bulkUploadExpenses h user data store) in
  (length store <= length store')%nat
  /\ (length store' <= length store + Results.unique results)%nat
  /\ (length store + Results.success results
      <= length store' + Results.merged results)%nat
  /\ ((forall e, saveError h e = None) ->
      (length store' + Results.merged results
       = length store + Results.success results)%nat)
  /\ ((forall e, createError h e = None) ->
      (length store' = length store + Results.unique results)%nat).
Proof.
  unfold bulkUploadExpenses. destruct data as [|row rest]; [discriminate|].
  destruct (processRows_store h user (row :: rest) 0 store
              (Results.initial (length (row :: rest))))
    as (kept & added & Hst & Hk & Ha & (A & B & C & D)).
  destruct (processRows h user 0 (row :: rest) _) as [store' r'].
  cbn [fst snd] in *. intros [= <-]. subst store'.
  rewrite length_app. apply Forall2_length in Hk. simpl in A, B, C, D.
  split; [lia|]. split; [lia|]. split; [lia|]. split.
  - intros Hs. specialize (C Hs). lia.
  - intros Hc. specialize (D Hc). lia.
Qed.

Lemma bulk_upload_added_count_witness :
  fst (bulkUploadExpenses demoHost 7 [scenarioRow; scenarioRow] [])
  = Completed (Results.make 2 2 0 1 1 [])
  /\ (length (snd (bulkUploadExpenses demoHost 7 [scenarioRow; scenarioRow] [])) + 1
      = 0 + 2)%nat
  /\ fst (bulkUploadExpenses readOnlyHost 7 [scenarioRow] scenarioStore)
     = Completed (Results.make 1 0 1 1 0
                    [Results.mkError 2 "save refused" scenarioRow])
  /\ (1 + 0 <= length (snd (bulkUploadExpenses readOnlyHost 7 [scenarioRow]
                              scenarioStore)) + 1)%nat.
Proof.
  assert (H : fst (bulkUploadExpenses demoHost 7 [scenarioRow; scenarioRow] [])
              = Completed (Results.make 2 2 0 1 1 [])) by (vm_compute; reflexivity).
  assert (H' : fst (bulkUploadExpenses readOnlyHost 7 [scenarioRow] scenarioStore)
               = Completed (Results.make 1 0 1 1 0
                              [Results.mkError 2 "save refused" scenarioRow]))
    by (vm_compute; reflexivity).
  destruct (bulk_upload_added_count demoHost 7 [scenarioRow; scenarioRow] [] _ H)
    as (_ & _ & _ & Heq & _).
  destruct (bulk_upload_added_count readOnlyHost 7 [scenarioRow] scenarioStore _ H')
    as (_ & _ & Hle & _).
  split; [exact H|]. split; [exact (Heq (fun _ => eq_refl))|].
  split; [exact H'|exact Hle].
Defined.

(** ** The errors of a summary *)

Lemma processRow_errors (h : Host) (user i : nat) (row : Row) (store : Store)
    (r : Results.t) :
  Results.errors (snd (processRow h user i row (store, r))) = Results.errors r
  \/ exists message,
       Results.errors (snd (processRow h user i row (store, r)))
       = (Results.errors r ++ [Results.mkError (i + 2) message row])%list.
Proof.
  unfold processRow.
  destruct (validateRow h row) as [msg|p]; [right; by exists msg|].
  destruct (exchange h row p) as [msg|[rate amountInINR]]; [right; by exists msg|].
  destruct (findOne store (keyOf h p)) as [dup|].
  - destruct (isMerged dup); [by left|].
    destruct (saveError h _) as [msg|]; [right; by exists msg|by left].
  - destruct (createError h _) as [msg|]; [right; by exists msg|by left].
Qed.

Lemma processRows_errors (h : Host) (user : nat) (data : list Row) (i : nat)
    (store : Store) (r : Results.t) :
  exists new,
    Results.errors (snd (processRows h user i data (store, r)))
    = (Results.errors r ++ new)%list
    /\ Forall (fun e => exists j, Results.row e = (i + j + 2)%nat
                                  /\ data !! j = Some (Results.data e)) new
    /\ StronglySorted lt (map Results.row new).
Proof.
  revert i store r. induction data as [|row rest IH]; intros i store r.
  - exists []. simpl. rewrite app_nil_r. repeat split; constructor.
  - simpl.
    pose proof (processRow_errors h user i row store r) as Hstep.
    destruct (processRow h user i row (store, r)) as [store1 r1].
    cbn [snd] in Hstep.
    destruct (IH (S i) store1 r1) as (new & Hnew & Hpoint & Hsorted).
    assert (Hshift : Forall (fun e => exists j, Results.row e = (i + j + 2)%nat
                        /\ (row :: rest) !! j = Some (Results.data e)) new).
    { eapply Forall_impl; [exact Hpoint|]. intros e (j & Hr & Hd).
      exists (S j). split; [lia|exact Hd]. }
    destruct Hstep as [Heq|(message & Heq)].
    + exists new. rewrite Hnew, Heq. auto.
    + exists (Results.mkError (i + 2) message row :: new).
      rewrite Hnew, Heq, <- app_assoc. split; [reflexivity|]. split.
      * constructor; [|exact Hshift]. exists 0%nat. simpl. split; [lia|reflexivity].
      * simpl. constructor; [exact Hsorted|].
        apply Forall_fmap. eapply Forall_impl; [exact Hpoint|].
        intros e (j & Hr & _). simpl. lia.
Qed.

(** X11: every error of the summary of a completed upload names a
    row of the file, with row number [j + 2] for the data row at index [j]
    and that row as its data; the errors stand in strictly increasing row
    order, so no row has two. *)
Theorem bulk_errors_name_their_rows (h : Host) (user : nat) (data : list Row)
    (store : Store) (results : Results.t) :
  fst (bulkUploadExpenses h user data store) = Completed results ->
  Forall (fun e => exists j, Results.row e = (j + 2)%nat
                             /\ data !! j = Some (Results.data e))
         (Results.errors results)
  /\ StronglySorted lt (map Results.row (Results.errors results)).
Proof.
  unfold bulkUploadExpenses. destruct data as [|row rest]; [discriminate|].
  destruct (processRows_errors h user (row :: rest) 0 store
              (Results.initial (length (row :: rest)))) as (new & Hnew & Hpoint & Hsorted).
  destruct (processRows h user 0 (row :: rest) _) as [store' r'].
  cbn [fst snd] in *. intros [= <-]. simpl in Hnew. rewrite Hnew.
  split; [|exact Hsorted]. exact Hpoint.
Qed.

Lemma bulk_errors_name_their_rows_witness :
  let data := [overAllocatedRow; scenarioRow] in
  let errors :=
    [Results.mkError 2 "Shared allocations exceed total amount" overAllocatedRow] in
  fst (bulkUploadExpenses demoHost 7 data []) = Completed (Results.make 2 1 1 0 1 errors)
  /\ Forall (fun e => exists j, Results.row e = (j + 2)%nat
                                /\ data !! j = Some (Results.data e)) errors
  /\ StronglySorted lt (map Results.row errors).
Proof.
  cbv zeta.
  assert (H : fst (bulkUploadExpenses demoHost 7 [overAllocatedRow; scenarioRow] [])
              = Completed (Results.make 2 1 1 0 1
                  [Results.mkError 2 "Shared allocations exceed total amount"
                     overAllocatedRow])) by (vm_compute; reflexivity).
  exact (conj H (bulk_errors_name_their_rows demoHost 7 _ [] _ H)).
Defined.

(** ** The shares of a single record *)

(** X12: when [validateSharedAllocations] accepts a payload marked
    as shared, the flag it returns is true, every share is a named unit
    with a positive amount or the primary unit with amount 0, the primary
    unit has a share, and the total of the shares, as the code adds it up
    in double precision, is not greater than the total amount. When the
    amounts are whole numbers with a sum of at most 2^53, the shares add
    up to at most the total amount. *)
Theorem validateSharedAllocations_accepted (h : Host) (isShared : jsval)
    (sharedAllocations : allocArg) (totalAmount primaryBU : jsval)
    (flag : bool) (cleaned : list (Alloc.t jsval)) :
  Val.truthy isShared = true ->
  validateSharedAllocations h isShared sharedAllocations totalAmount primaryBU
  = inr (flag, cleaned) ->
  flag = true
  /\ Forall (validShare primaryBU) cleaned
  /\ (exists item, In item cleaned
                   /\ (strictEq (Alloc.businessUnit item) primaryBU = true
                       \/ item = Alloc.make primaryBU (Num.ofZ 0)))
  /\ Num.gt (totalOf cleaned)
       (Val.toNumber h (Val.or totalAmount (VNum (Num.ofZ 0)))) = false
  /\ (forall (ns : list Z) (total : Z),
        wholeAmounts cleaned ns -> Forall (Z.le 0) ns -> sumZ ns <= 2 ^ 53 ->
        Val.toNumber h (Val.or totalAmount (VNum (Num.ofZ 0))) = Num.ofZ total ->
        sumZ ns <= total).
Proof.
  intros Hshared. unfold validateSharedAllocations. rewrite Hshared. cbn [negb].
  destruct (match sharedAllocations with
            | ArgFalsy => Some []
            | ArgArray items => cleanItems h items
            | ArgOther => None
            end) as [l|]; [|discriminate].
  destruct (Num.gt _ _) eqn:Hgt; [discriminate|].
  intros [= <- <-].
  assert (Hvalid : Forall (validShare primaryBU)
                     (withPrimaryBU primaryBU (List.filter keepCleaned l))).
  { unfold withPrimaryBU.
    assert (Hf : Forall (validShare primaryBU) (List.filter keepCleaned l)).
    { apply List.Forall_forall. intros item Hin. apply filter_In in Hin as [_ Hk].
      unfold keepCleaned in Hk. apply andb_true_iff in Hk as [Hbu Hpos].
      left. split; [exact Hbu|]. exact (gt_zero_positive _ Hpos). }
    destruct (existsb _ _); [exact Hf|].
    apply Forall_app. split; [exact Hf|]. constructor; [by right|constructor]. }
  split; [reflexivity|]. split; [exact Hvalid|]. split; [|split; [exact Hgt|]].
  2:{ intros ns total Hw Hpos Hsum Htot.
      rewrite (totalOf_whole _ ns Hw Hpos Hsum), Htot in Hgt.
      destruct (Z_le_gt_dec (sumZ ns) total) as [L|G]; [exact L|].
      assert (Hc : Num.gt (Num.ofZ (sumZ ns)) (Num.ofZ total) = true)
        by (apply gt_whole; lia).
      congruence. }
  - unfold withPrimaryBU.
    destruct (existsb _ (List.filter keepCleaned l)) eqn:Hex.
    + apply existsb_exists in Hex as (item & Hin & Heq). exists item. split; [exact Hin|by left].
    + exists (Alloc.make primaryBU (Num.ofZ 0)). split; [|by right].
      apply in_or_app. right. by left.
Qed.

Lemma validateSharedAllocations_accepted_witness :
  let cleaned :=
    [ Alloc.make (VStr "Wytlabs") (Fin 200); Alloc.make (VStr "Collabx") (Fin 100) ] in
  validateSharedAllocations demoHost (VBool true)
    (ArgArray [ JProps [("businessUnit", VStr "Wytlabs"); ("amount", VNum (Fin 200))];
                JProps [("businessUnit", VStr "Collabx"); ("amount", VNum (Fin 100))] ])
    (VNum (Fin 300)) (VStr "Wytlabs")
  = inr (true, cleaned)
  /\ Forall (validShare (VStr "Wytlabs")) cleaned
  /\ sumZ [200; 100] <= 300.
Proof.
  cbv zeta.
  assert (Hrun : validateSharedAllocations demoHost (VBool true)
            (ArgArray [ JProps [("businessUnit", VStr "Wytlabs"); ("amount", VNum (Fin 200))];
                        JProps [("businessUnit", VStr "Collabx"); ("amount", VNum (Fin 100))] ])
            (VNum (Fin 300)) (VStr "Wytlabs")
          = inr (true, [ Alloc.make (VStr "Wytlabs") (Fin 200);
                         Alloc.make (VStr "Collabx") (Fin 100) ]))
    by (vm_compute; reflexivity).
  refine (conj Hrun _).
  destruct (validateSharedAllocations_accepted demoHost (VBool true) _ _ _ _ _
              eq_refl Hrun) as (_ & Hvalid & _ & _ & Hsum).
  refine (conj Hvalid (Hsum [200; 100] 300 eq_refl _ _ eq_refl)).
  - repeat constructor; lia.
  - simpl. lia.
Defined.

(** ** The values of a filter *)

Lemma trimStart_head (s : string) :
  match Str.trimStart s with
  | String c _ => Str.isWhiteSpace c = false
  | EmptyString => True
  end.
Proof.
  induction s as [|c r IH]; simpl; [exact I|].
  destruct (Str.isWhiteSpace c) eqn:Hc; [exact IH|exact Hc].
Qed.

Lemma trimEnd_idem (s : string) : Str.trimEnd (Str.trimEnd s) = Str.trimEnd s.
Proof.
  induction s as [|c r IH]; simpl; [reflexivity|].
  destruct (Str.trimEnd r) as [|c' r'] eqn:Hr.
  - destruct (Str.isWhiteSpace c) eqn:Hc; simpl; [reflexivity|]. by rewrite Hc.
  - simpl. simpl in IH. rewrite IH. destruct r'; [|reflexivity].
    simpl in IH. destruct (Str.isWhiteSpace c'); [discriminate|reflexivity].
Qed.

Lemma trimEnd_head (c : ascii) (r : string) :
  Str.isWhiteSpace c = false ->
  exists r', Str.trimEnd (String c r) = String c r'.
Proof.
  intros Hc. simpl. destruct (Str.trimEnd r); [rewrite Hc|]; eauto.
Qed.

Lemma trim_idem (s : string) : Str.trim (Str.trim s) = Str.trim s.
Proof.
  unfold Str.trim. pose proof (trimStart_head s) as Hh.
  destruct (Str.trimStart s) as [|c r]; [reflexivity|].
  destruct (trimEnd_head c r Hh) as (r' & Hr). rewrite Hr.
  cbn [Str.trimStart]. rewrite Hh, <- Hr. apply trimEnd_idem.
Qed.

Lemma splitOn_free (sep : ascii -> bool) (s : string) :
  Forall (fun p => free sep p = true) (Str.splitOn sep s).
Proof.
  induction s as [|c r IH]; simpl; [by repeat constructor|].
  destruct (sep c) eqn:Hc; [by constructor|].
  destruct (Str.splitOn sep r) as [|p ps]; [by repeat constructor; simpl; rewrite Hc|].
  inversion IH; subst. constructor; [simpl; by rewrite Hc|assumption].
Qed.

Lemma trimStart_free (cls : ascii -> bool) (s : string) :
  free cls s = true -> free cls (Str.trimStart s) = true.
Proof.
  induction s as [|c r IH]; simpl; [done|].
  intros H. apply andb_true_iff in H as [Hc Hr].
  destruct (Str.isWhiteSpace c); [by apply IH|]. simpl. by rewrite Hc, Hr.
Qed.

Lemma trimEnd_free (cls : ascii -> bool) (s : string) :
  free cls s = true -> free cls (Str.trimEnd s) = true.
Proof.
  induction s as [|c r IH]; simpl; [done|].
  intros H. apply andb_true_iff in H as [Hc Hr]. specialize (IH Hr).
  destruct (Str.trimEnd r) as [|c' r'].
  - destruct (Str.isWhiteSpace c); [done|]. simpl. by rewrite Hc.
  - simpl. simpl in IH. by rewrite Hc, IH.
Qed.

(** X13: the values [parseMultiValues] returns are not empty, have
    no white space at either end and contain no comma. *)
Theorem parseMultiValues_values (value : option string) :
  Forall (fun v => Str.nonEmpty v = true /\ trimmed v /\ free isComma v = true)
         (parseMultiValues value).
Proof.
  destruct value as [s|]; [|constructor]. unfold parseMultiValues.
  apply List.Forall_forall. intros v Hv.
  apply filter_In in Hv as [Hv Hne]. split; [exact Hne|].
  apply in_map_iff in Hv as (piece & <- & Hpiece). split; [apply trim_idem|].
  pose proof (splitOn_free isComma s) as Hfree.
  rewrite List.Forall_forall in Hfree.
  unfold Str.trim. apply trimEnd_free, trimStart_free, Hfree, Hpiece.
Qed.

Lemma isDigit_not_dash (c : ascii) : Str.isDigit c = true -> isDash c = false.
Proof.
  destruct c as [[] [] [] [] [] [] [] []]; vm_compute; congruence.
Qed.

Lemma allChars_cons (cls : ascii -> bool) (c : ascii) (r : string) :
  Str.allChars cls (String c r) = true ->
  cls c = true /\ Str.allChars cls r = true.
Proof.
  unfold Str.allChars. simpl. destruct (cls c); [|discriminate].
  destruct (Str.span cls r) as [a b]. destruct b; [done|discriminate].
Qed.

Lemma span_digits_dash (ds rest : string) :
  Str.allChars Str.isDigit ds = true ->
  Str.span Str.isDigit (ds +:+ String "-" rest) = (ds, String "-" rest).
Proof.
  induction ds as [|c r IH]; [reflexivity|].
  intros H. apply allChars_cons in H as [Hc Hr].
  simpl. rewrite Hc, (IH Hr). reflexivity.
Qed.

Lemma splitOn_digits_dash (ds rest : string) :
  Str.allChars Str.isDigit ds = true ->
  Str.splitOn isDash (ds +:+ String "-" rest) = ds :: Str.splitOn isDash rest.
Proof.
  induction ds as [|c r IH]; [reflexivity|].
  intros H. apply allChars_cons in H as [Hc Hr].
  simpl. rewrite (isDigit_not_dash c Hc), (IH Hr). reflexivity.
Qed.

Lemma splitOn_digits (ds : string) :
  Str.allChars Str.isDigit ds = true -> Str.splitOn isDash ds = [ds].
Proof.
  induction ds as [|c r IH]; [reflexivity|].
  intros H. apply allChars_cons in H as [Hc Hr].
  simpl. rewrite (isDigit_not_dash c Hc), (IH Hr). reflexivity.
Qed.

Lemma span_spec (cls : ascii -> bool) (s a b : string) :
  Str.span cls s = (a, b) -> s = a +:+ b /\ Str.allChars cls a = true.
Proof.
  revert a b. induction s as [|c r IH]; intros a b; simpl.
  - intros [= <- <-]. split; reflexivity.
  - destruct (cls c) eqn:Hc.
    + destruct (Str.span cls r) as [a' b'] eqn:Hs. intros [= <- <-].
      destruct (IH a' b' eq_refl) as [-> Ha]. split; [reflexivity|].
      unfold Str.allChars in *. simpl. rewrite Hc.
      destruct (Str.span cls a') as [x y]. exact Ha.
    + intros [= <- <-]. split; reflexivity.
Qed.

Lemma isDayMonthYear_shape (value : string) :
  isDayMonthYear value = true ->
  exists dd mm yyyy, dayMonthYear dd mm yyyy
                     /\ value = dd +:+ "-" +:+ mm +:+ "-" +:+ yyyy.
Proof.
  unfold isDayMonthYear.
  destruct (Str.span Str.isDigit value) as [dd r1] eqn:H1.
  intros H. apply andb_true_iff in H as [Ld H]. apply Nat.eqb_eq in Ld.
  destruct r1 as [|c r2]; [discriminate|].
  destruct c as [[] [] [] [] [] [] [] []]; try discriminate.
  destruct (Str.span Str.isDigit r2) as [mm r3] eqn:H2.
  apply andb_true_iff in H as [Lm H]. apply Nat.eqb_eq in Lm.
  destruct r3 as [|c' yyyy]; [discriminate|].
  destruct c' as [[] [] [] [] [] [] [] []]; try discriminate.
  apply andb_true_iff in H as [Hy Ly]. apply Nat.eqb_eq in Ly.
  destruct (span_spec _ _ _ _ H1) as [-> Hd].
  destruct (span_spec _ _ _ _ H2) as [-> Hm].
  exists dd, mm, yyyy. split; [by repeat split|reflexivity].
Qed.

(** X14: [parseFilterDate] returns [undefined] for an empty text;
    a text of two digits, two digits and four digits joined by dashes is
    read day first, as the date the host parses from year-month-day at
    00:00:00.000 UTC, or at 23:59:59.999 UTC for the end of a range; any
    other text is handed to the host as it is. *)
Theorem parseFilterDate_day_first (h : Host) (value : string) (endOfDay : bool) :
  (value = "" -> parseFilterDate h value endOfDay = None)
  /\ (forall dd mm yyyy,
        dayMonthYear dd mm yyyy -> value = dd +:+ "-" +:+ mm +:+ "-" +:+ yyyy ->
        parseFilterDate h value endOfDay
        = Some (dateParse h
                  (yyyy +:+ "-" +:+ mm +:+ "-" +:+ dd +:+ "T"
                   +:+ (if endOfDay then "23:59:59.999" else "00:00:00.000") +:+ "Z")))
  /\ (value <> "" ->
      (forall dd mm yyyy,
          dayMonthYear dd mm yyyy -> value <> dd +:+ "-" +:+ mm +:+ "-" +:+ yyyy) ->
      parseFilterDate h value endOfDay = Some (dateParse h value)).
Proof.
  split; [by intros ->|]. split.
  - intros dd mm yyyy (Hd & Ld & Hm & Lm & Hy & Ly) ->. unfold parseFilterDate.
    assert (Hne : Str.nonEmpty (dd +:+ "-" +:+ mm +:+ "-" +:+ yyyy) = true)
      by (destruct dd; [discriminate|reflexivity]).
    rewrite Hne. cbn [negb].
    assert (Hre : isDayMonthYear (dd +:+ "-" +:+ mm +:+ "-" +:+ yyyy) = true).
    { unfold isDayMonthYear.
      change (dd +:+ "-" +:+ mm +:+ "-" +:+ yyyy)
        with (dd +:+ String "-" (mm +:+ String "-" yyyy)).
      rewrite (span_digits_dash dd _ Hd), Ld.
      rewrite (span_digits_dash mm _ Hm), Lm. rewrite Hy, Ly. reflexivity. }
    rewrite Hre.
    change (dd +:+ "-" +:+ mm +:+ "-" +:+ yyyy)
      with (dd +:+ String "-" (mm +:+ String "-" yyyy)).
    rewrite (splitOn_digits_dash dd _ Hd), (splitOn_digits_dash mm _ Hm),
      (splitOn_digits yyyy Hy).
    reflexivity.
  - intros Hne Hother. unfold parseFilterDate.
    destruct value as [|c r]; [done|]. cbn [Str.nonEmpty negb].
    destruct (isDayMonthYear (String c r)) eqn:Hre; [|reflexivity].
    destruct (isDayMonthYear_shape _ Hre) as (dd & mm & yyyy & Hshape & Heq).
    destruct (Hother dd mm yyyy Hshape Heq).
Qed.

Lemma parseFilterDate_day_first_witness :
  parseFilterDate demoHost "05-01-2025" true
  = Some (dateParse demoHost "2025-01-05T23:59:59.999Z")
  /\ parseFilterDate demoHost "2025-01-05" true = Some (dateParse demoHost "2025-01-05").
Proof.
  split.
  - apply (proj1 (proj2 (parseFilterDate_day_first demoHost "05-01-2025" true))
             "05" "01" "2025"); by repeat split.
  - apply (proj2 (proj2 (parseFilterDate_day_first demoHost "2025-01-05" true)));
      [discriminate|].
    intros dd mm yyyy (Hd & Ld & _) Heq.
    destruct dd as [|a [|b [|c dd]]]; try discriminate Ld.
    cbv [String.append] in Heq. discriminate Heq.
Defined.

(** ** The queries of the list and the export *)

Lemma setParam_other (params : Params) (name : string) (query : Query) (k : string) :
  k <> name -> setParam params name query !! k = query !! k.
Proof.
  intros Hk. unfold setParam. destruct (param params name); [|reflexivity].
  by rewrite lookup_insert_ne.
Qed.

Lemma setIsShared_other (params : Params) (query : Query) (k : string) :
  k <> "isShared" -> setIsShared params query !! k = query !! k.
Proof.
  intros Hk. unfold setIsShared.
  repeat case_match; try reflexivity; by rewrite lookup_insert_ne.
Qed.

Lemma setDuplicateStatusFilter_other (params : Params) (query : Query) (k : string) :
  k <> "duplicateStatus" -> setDuplicateStatusFilter params query !! k = query !! k.
Proof.
  intros Hk. unfold setDuplicateStatusFilter.
  repeat case_match; try reflexivity; by rewrite lookup_insert_ne.
Qed.

Lemma setDateRange_other (h : Host) (params : Params) (query : Query) (k : string) :
  k <> "date" -> setDateRange h params query !! k = query !! k.
Proof.
  intros Hk. unfold setDateRange.
  repeat case_match; try reflexivity; by rewrite lookup_insert_ne.
Qed.

Lemma setDisableRange_other (h : Host) (params : Params) (query : Query) (k : string) :
  k <> "status" -> k <> "$or" -> setDisableRange h params query !! k = query !! k.
Proof.
  intros Hk Hk'. unfold setDisableRange.
  repeat case_match; try reflexivity; by rewrite ?lookup_insert_ne.
Qed.

Lemma setAmountRange_other (params : Params) (query : Query) (k : string) :
  k <> "amountInINR" -> setAmountRange params query !! k = query !! k.
Proof.
  intros Hk. unfold setAmountRange.
  repeat case_match; try reflexivity; by rewrite lookup_insert_ne.
Qed.

Lemma setSearch_other (fields : list string) (params : Params) (query : Query)
    (k : string) :
  k <> "$or" -> setSearch fields params query !! k = query !! k.
Proof.
  intros Hk. unfold setSearch.
  repeat case_match; try reflexivity; by rewrite lookup_insert_ne.
Qed.

Lemma setVisibility_other (role : string) (params : Params) (query : Query)
    (k : string) :
  k <> "entryStatus" -> setVisibility role params query !! k = query !! k.
Proof.
  intros Hk. unfold setVisibility.
  repeat case_match; try reflexivity; by rewrite lookup_insert_ne.
Qed.

Lemma applyMultiValueFilter_other (query : Query) (field : string)
    (rawValue : option string) (k : string) :
  k <> field -> k <> "$and" ->
  applyMultiValueFilter query field rawValue !! k = query !! k.
Proof.
  intros Hk Hk'. unfold applyMultiValueFilter.
  destruct (parseMultiValues rawValue); [reflexivity|].
  destruct (query !! field) as [existing|]; [|by rewrite lookup_insert_ne].
  destruct (qTruthy existing); [|by rewrite lookup_insert_ne].
  rewrite lookup_insert_ne by done. by rewrite lookup_delete_ne.
Qed.

Ltac through_steps :=
  repeat first
    [ rewrite setVisibility_other by done
    | rewrite setSearch_other by done
    | rewrite setAmountRange_other by done
    | rewrite setDisableRange_other by done
    | rewrite setDateRange_other by done
    | rewrite setDuplicateStatusFilter_other by done
    | rewrite setIsShared_other by done
    | rewrite setParam_other by done
    | rewrite applyMultiValueFilter_other by done
    | match goal with |- context [if ?c then _ else _] => destruct c end ].

(** X15: for a business unit admin, a SPOC and a service handler the
    export is restricted to the business unit of the user, whatever
    parameters the request carries. *)
Theorem exportQuery_scope (h : Host) (role name : string) (userBusinessUnit : jsval)
    (params : Params) :
  In role scopedRoles ->
  exportQuery h role name userBusinessUnit params !! "businessUnit"
  = Some (QVal userBusinessUnit).
Proof.
  intros Hrole. unfold exportQuery.
  assert (Hs : existsb (String.eqb role) scopedRoles = true).
  { apply existsb_exists. exists role. split; [exact Hrole|apply String.eqb_refl]. }
  rewrite Hs. cbv zeta.
  through_steps; by simplify_map_eq.
Qed.

Lemma exportQuery_scope_witness :
  exportQuery demoHost "spoc" "Asha" (VStr "Wytlabs")
    {[ "businessUnit" := "Collabx" ]} !! "businessUnit"
  = Some (QVal (VStr "Wytlabs")).
Proof.
  apply exportQuery_scope. right. left. reflexivity.
Defined.

Lemma applyMultiValueFilter_and (query : Query) (field : string)
    (rawValue : option string) (c : Clause) :
  field <> "$and" ->
  In c (clausesAt query "$and") ->
  In c (clausesAt (applyMultiValueFilter query field rawValue) "$and").
Proof.
  intros Hf Hc. unfold applyMultiValueFilter.
  destruct (parseMultiValues rawValue); [exact Hc|].
  assert (Hkeep : In c (clausesAt (<[field := multiValueClause (s :: l)]> query) "$and")).
  { unfold clausesAt. rewrite lookup_insert_ne by done. exact Hc. }
  destruct (query !! field) as [existing|]; [|exact Hkeep].
  destruct (qTruthy existing); [|exact Hkeep].
  unfold clausesAt at 1. rewrite lookup_insert_eq.
  apply in_or_app. left. unfold clausesAt. rewrite lookup_delete_ne by done. exact Hc.
Qed.

(** X16: [applyMultiValueFilter] only adds conditions: every truthy
    condition of the query stays in force, under its key or as an element
    of [$and], and the elements of [$and] are kept; with no value the
    query is unchanged, and otherwise the clause built from the values is
    in force for the field. *)
Theorem applyMultiValueFilter_narrows (query : Query) (field : string)
    (rawValue : option string) :
  isPrototypeKey field = false ->
  field <> "$and" ->
  (forall k v, k <> "$and" -> qTruthy v = true -> query !! k = Some v ->
               inForce (applyMultiValueFilter query field rawValue) k v)
  /\ (forall c, In c (clausesAt query "$and") ->
                In c (clausesAt (applyMultiValueFilter query field rawValue) "$and"))
  /\ (parseMultiValues rawValue = [] ->
      applyMultiValueFilter query field rawValue = query)
  /\ (parseMultiValues rawValue <> [] ->
      inForce (applyMultiValueFilter query field rawValue) field
        (multiValueClause (parseMultiValues rawValue))).
Proof.
  intros _ Hf. split; [|split; [|split]].
  - intros k v Hk Hv Hq. unfold applyMultiValueFilter.
    destruct (parseMultiValues rawValue) as [|val vals]; [by left|].
    destruct (String.eqb_spec k field) as [->|Hne].
    + rewrite Hq, Hv. right. unfold clausesAt. rewrite lookup_insert_eq.
      apply in_or_app. right. by left.
    + destruct (query !! field) as [existing|];
        [|left; by rewrite lookup_insert_ne].
      destruct (qTruthy existing); [|left; by rewrite lookup_insert_ne].
      left. rewrite lookup_insert_ne by done. by rewrite lookup_delete_ne.
  - intros c. by apply applyMultiValueFilter_and.
  - intros Hv. unfold applyMultiValueFilter. by rewrite Hv.
  - intros Hv. unfold applyMultiValueFilter.
    destruct (parseMultiValues rawValue) as [|val vals]; [done|].
    fold (multiValueClause (val :: vals)).
    destruct (query !! field) as [existing|];
      [|left; by rewrite lookup_insert_eq].
    destruct (qTruthy existing); [|left; by rewrite lookup_insert_eq].
    right. unfold clausesAt. rewrite lookup_insert_eq.
    apply in_or_app. right. right. by left.
Qed.

Lemma applyMultiValueFilter_narrows_witness :
  let query : Query := {[ "serviceHandler" := QRegex "raghav" "i" ]} in
  let query' := applyMultiValueFilter query "serviceHandler" (Some "Anil, Sunil") in
  inForce query' "serviceHandler" (QRegex "raghav" "i")
  /\ inForce query' "serviceHandler"
       (QIn [ {| source := "Anil"; flags := "i" |}; {| source := "Sunil"; flags := "i" |} ]).
Proof.
  cbv zeta.
  destruct (applyMultiValueFilter_narrows {[ "serviceHandler" := QRegex "raghav" "i" ]}
              "serviceHandler" (Some "Anil, Sunil") eq_refl)
    as (Hkept & _ & _ & Hnew); [discriminate|].
  split.
  - apply Hkept; [discriminate|reflexivity|reflexivity].
  - apply Hnew. discriminate.
Defined.

Lemma applyMultiValueFilter_moves (query : Query) (field : string)
    (rawValue : option string) (v : qvalue) :
  field <> "$and" -> qTruthy v = true -> query !! field = Some v ->
  inForce (applyMultiValueFilter query field rawValue) field v.
Proof.
  intros Hf Hv Hq. unfold applyMultiValueFilter.
  destruct (parseMultiValues rawValue) as [|val vals]; [by left|].
  rewrite Hq, Hv. right. unfold clausesAt. rewrite lookup_insert_eq.
  apply in_or_app. right. by left.
Qed.

Lemma clausesAt_and_ext (q q' : Query) :
  q' !! "$and" = q !! "$and" -> clausesAt q' "$and" = clausesAt q "$and".
Proof. unfold clausesAt. by intros ->. Qed.

Lemma inForce_ext (q q' : Query) (k : string) (v : qvalue) :
  q' !! k = q !! k -> q' !! "$and" = q !! "$and" -> inForce q k v -> inForce q' k v.
Proof.
  intros Hk Ha [H|H]; [left; by rewrite Hk|right; by rewrite (clausesAt_and_ext q q' Ha)].
Qed.

(** X17: in the export of a service handler the pattern of the
    handler's own name stays in force whatever parameters the request
    carries: a filter on the service handler is added to it, not put in
    its place. *)
Theorem exportQuery_keeps_own_entries (h : Host) (name : string)
    (userBusinessUnit : jsval) (params : Params) :
  inForce (exportQuery h "service_handler" name userBusinessUnit params)
    "serviceHandler" (QRegex (namePatternSource name) "i").
Proof.
  unfold exportQuery. cbv zeta.
  change (existsb (String.eqb "service_handler") scopedRoles) with true.
  change (String.eqb "service_handler" "service_handler") with true. cbv iota.
  set (q0 := <["serviceHandler" := QRegex (namePatternSource name) "i"]>
               (<["businessUnit" := QVal userBusinessUnit]> (∅ : Query))).
  set (q1 := setParam params "typeOfService"
               (setParam params "month"
                  (setParam params "status" (setParam params "cardNumber" q0)))).
  assert (H1 : q1 !! "serviceHandler" = Some (QRegex (namePatternSource name) "i")).
  { subst q1. rewrite !setParam_other by done. subst q0. by rewrite lookup_insert_eq. }
  set (q2 := if isSet (param params "serviceHandler")
             then applyMultiValueFilter q1 "serviceHandler" (param params "serviceHandler")
             else q1).
  assert (H2 : inForce q2 "serviceHandler" (QRegex (namePatternSource name) "i")).
  { subst q2. destruct (isSet (param params "serviceHandler")); [|by left].
    by apply applyMultiValueFilter_moves. }
  set (q3 := if isSet (param params "cardAssignedTo")
             then applyMultiValueFilter q2 "cardAssignedTo" (param params "cardAssignedTo")
             else q2).
  assert (H3 : inForce q3 "serviceHandler" (QRegex (namePatternSource name) "i")).
  { subst q3. destruct (isSet (param params "cardAssignedTo")); [|exact H2].
    destruct H2 as [H2|H2].
    - left. by rewrite applyMultiValueFilter_other.
    - right. by apply applyMultiValueFilter_and. }
  eapply inForce_ext; [| |exact H3]; through_steps; reflexivity.
Qed.

(** X18: in the list endpoint the parameters [businessUnit] and
    [serviceHandler], when they are given, take the place of the
    restriction set from the role of the user; when they are absent the
    restriction of the role stands. *)
Theorem listQuery_params_override (h : Host) (role name : string)
    (userBusinessUnit : jsval) (params : Params) :
  listQuery h role name userBusinessUnit params !! "businessUnit"
  = match param params "businessUnit" with
    | Some b => Some (QVal (VStr b))
    | None =>
        if existsb (String.eqb role) scopedRoles
        then Some (QVal userBusinessUnit) else None
    end
  /\ listQuery h role name userBusinessUnit params !! "serviceHandler"
     = match param params "serviceHandler" with
       | Some s => Some (QVal (VStr s))
       | None =>
           if String.eqb role "service_handler"
           then Some (QRegex (namePatternSource name) "i") else None
       end.
Proof.
  unfold listQuery. cbv zeta. split.
  - rewrite setVisibility_other, setSearch_other, setAmountRange_other,
      setDisableRange_other, setDateRange_other, setDuplicateStatusFilter_other,
      setIsShared_other by done.
    rewrite !(setParam_other _ _ _ "businessUnit") by done.
    unfold setParam at 1. destruct (param params "businessUnit") as [b|].
    + by rewrite lookup_insert_eq.
    + simpl. destruct (String.eqb role "business_unit_admin"),
        (String.eqb role "spoc"), (String.eqb role "service_handler");
        by simplify_map_eq.
  - rewrite setVisibility_other, setSearch_other, setAmountRange_other,
      setDisableRange_other, setDateRange_other, setDuplicateStatusFilter_other,
      setIsShared_other by done.
    rewrite (setParam_other _ "recurring"), (setParam_other _ "approvedBy"),
      (setParam_other _ "costCenter") by done.
    unfold setParam at 1. destruct (param params "serviceHandler") as [s|].
    + by rewrite lookup_insert_eq.
    + rewrite !setParam_other by done.
      destruct (String.eqb role "business_unit_admin"),
        (String.eqb role "spoc"), (String.eqb role "service_handler");
        by simplify_map_eq.
Qed.

(** X19: the list and the export require [entryStatus] to be
    Accepted exactly when the user is no SPOC and no filter on the date
    of deactivation is used; otherwise the query has no condition on
    [entryStatus], whatever else the request carries. *)
Theorem entries_visibility (h : Host) (role name : string)
    (userBusinessUnit : jsval) (params : Params) :
  let expected :=
    if negb (String.eqb role "spoc")
       && negb (isSet (param params "disableStartDate")
                || isSet (param params "disableEndDate"))
    then Some (QVal (VStr "Accepted")) else None in
  listQuery h role name userBusinessUnit params !! "entryStatus" = expected
  /\ exportQuery h role name userBusinessUnit params !! "entryStatus" = expected.
Proof.
  cbv zeta. unfold listQuery, exportQuery. cbv zeta. unfold setVisibility.
  destruct (negb (String.eqb role "spoc") && _).
  - by rewrite !lookup_insert_eq.
  - split; through_steps; by simplify_map_eq.
Qed.

(** X20: for a user whose role carries no restriction, and a
    request without the parameters [serviceHandler], [cardAssignedTo] and
    [search], the export and the list build the same query. *)
Theorem exportQuery_matches_listQuery (h : Host) (role name : string)
    (userBusinessUnit : jsval) (params : Params) :
  existsb (String.eqb role) scopedRoles = false ->
  param params "serviceHandler" = None ->
  param params "cardAssignedTo" = None ->
  param params "search" = None ->
  exportQuery h role name userBusinessUnit params
  = listQuery h role name userBusinessUnit params.
Proof.
  intros Hrole Hsh Hca Hsearch. unfold exportQuery, listQuery. cbv zeta.
  rewrite Hrole. cbn [existsb scopedRoles orb] in Hrole.
  destruct (String.eqb role "business_unit_admin"); [discriminate|].
  destruct (String.eqb role "spoc"); [discriminate|].
  destruct (String.eqb role "service_handler"); [discriminate|].
  cbn [orb]. rewrite Hsh, Hca. cbn [isSet].
  unfold setSearch. rewrite Hsearch.
  assert (Hnone : forall q : Query, setParam params "serviceHandler" q = q)
    by (intros q; unfold setParam; by rewrite Hsh).
  rewrite Hnone. reflexivity.
Qed.

Lemma exportQuery_matches_listQuery_witness :
  exportQuery demoHost "mis_manager" "Meera" VUndef
    {[ "status" := "Active"; "businessUnit" := "Collabx" ]}
  = listQuery demoHost "mis_manager" "Meera" VUndef
      {[ "status" := "Active"; "businessUnit" := "Collabx" ]}.
Proof.
  apply exportQuery_matches_listQuery; reflexivity.
Defined.

(** ** Sheets the upload reads back *)

(** X21: a full row under the headers of the template is read by
    the upload column by column for the first sixteen columns; the
    headers of the last two, the shared flag and the shared bill, match
    no alias of the upload, so the row is never read as shared. *)
Theorem template_columns_read (h : Host) (cells : list jsval) :
  length cells = length templateColumns ->
  let row := sheetRow templateColumns cells in
  cardNumberOf h row = cardNumberOf h [("Card Number", cellAt cells 0)]
  /\ cardAssignedToOf h row = cardAssignedToOf h [("Card Assigned To", cellAt cells 1)]
  /\ dateOf row = cellAt cells 2
  /\ monthOf h row = monthOf h [("Month", cellAt cells 3)]
  /\ statusRawOf h row = statusRawOf h [("Status", cellAt cells 4)]
  /\ particularsOf row = particularsOf [("Particulars", cellAt cells 5)]
  /\ narrationOf h row = narrationOf h [("Narration", cellAt cells 6)]
  /\ currencyOf h row = currencyOf h [("Currency", cellAt cells 7)]
  /\ billStatusOf h row = billStatusOf h [("Bill Status", cellAt cells 8)]
  /\ amountOf h row = amountOf h [("Amount", cellAt cells 9)]
  /\ typeOfServiceRawOf row
     = typeOfServiceRawOf [("Types of Tools or Service", cellAt cells 10)]
  /\ businessUnitRawOf h row = businessUnitRawOf h [("Business Unit", cellAt cells 11)]
  /\ costCenterRawOf row = cellAt cells 12
  /\ approvedByRawOf row = cellAt cells 13
  /\ serviceHandlerOf row = serviceHandlerOf [("Tool or Service Handler", cellAt cells 14)]
  /\ recurringRawOf row = recurringRawOf [("Recurring/One-time", cellAt cells 15)]
  /\ isSharedRawOf row = VBool false
  /\ sharedAllocRawOf row = VStr ""
  /\ sharedBlock h row = inr (false, []).
Proof.
  intros Hlen.
  do 18 (destruct cells as [|? cells]; [discriminate|]).
  destruct cells; [|discriminate]. clear Hlen.
  cbv zeta. repeat split; vm_compute; reflexivity.
Qed.

Lemma template_columns_read_witness :
  let row := sheetRow templateColumns templateSample in
  isSharedRawOf row = VBool false
  /\ sharedAllocRawOf row = VStr ""
  /\ sharedBlock demoHost row = inr (false, [])
  /\ amountOf demoHost row = Fin 200.
Proof.
  cbv zeta.
  destruct (template_columns_read demoHost templateSample eq_refl)
    as (_ & _ & _ & _ & _ & _ & _ & _ & _ & Hamount & _ & _ & _ & _ & _ & _
        & Hflag & Hbill & Hblock).
  refine (conj Hflag (conj Hbill (conj Hblock _))).
  rewrite Hamount. reflexivity.
Defined.

(** X22: a full row under the headers of the export is read back by
    the upload column by column, the shared bill included; no column of
    the export is read as the shared flag. *)
Theorem export_columns_read (h : Host) (dup : bool) (cells : list jsval) :
  length cells = length (exportColumns dup) ->
  let row := sheetRow (exportColumns dup) cells in
  cardNumberOf h row = cardNumberOf h [("Card Number", cellAt cells 0)]
  /\ cardAssignedToOf h row = cardAssignedToOf h [("Card Assigned To", cellAt cells 1)]
  /\ dateOf row = cellAt cells 2
  /\ monthOf h row = monthOf h [("Month", cellAt cells 3)]
  /\ statusRawOf h row = statusRawOf h [("Status", cellAt cells 4)]
  /\ particularsOf row = particularsOf [("Particulars", cellAt cells 5)]
  /\ narrationOf h row = narrationOf h [("Narration", cellAt cells 6)]
  /\ currencyOf h row = currencyOf h [("Currency", cellAt cells 7)]
  /\ billStatusOf h row = billStatusOf h [("Bill Status", cellAt cells 8)]
  /\ amountOf h row = amountOf h [("Amount", cellAt cells 9)]
  /\ orChain row ["XE"; "xe"; "XE Rate"; "xeRate"]
     = orChain [("XE Rate", cellAt cells 10)] ["XE"; "xe"; "XE Rate"; "xeRate"]
  /\ orChain row ["Amt INR"; "Amount in INR"; "amountInINR"; "Amount (INR)"]
     = orChain [("Amount in INR", cellAt cells 11)]
         ["Amt INR"; "Amount in INR"; "amountInINR"; "Amount (INR)"]
  /\ typeOfServiceRawOf row
     = typeOfServiceRawOf [("Types of Tools or Service", cellAt cells 12)]
  /\ businessUnitRawOf h row = businessUnitRawOf h [("Business Unit", cellAt cells 13)]
  /\ costCenterRawOf row = cellAt cells 14
  /\ approvedByRawOf row = cellAt cells 15
  /\ serviceHandlerOf row = serviceHandlerOf [("Service Handler", cellAt cells 16)]
  /\ recurringRawOf row = recurringRawOf [("Recurring", cellAt cells 17)]
  /\ isSharedRawOf row = VBool false
  /\ sharedAllocRawOf row = sharedAllocRawOf [("Shared Bill", cellAt cells 19)].
Proof.
  intros Hlen. destruct dup.
  - do 21 (destruct cells as [|? cells]; [discriminate|]).
    destruct cells; [|discriminate]. clear Hlen.
    cbv zeta. repeat split; vm_compute; reflexivity.
  - do 20 (destruct cells as [|? cells]; [discriminate|]).
    destruct cells; [|discriminate]. clear Hlen.
    cbv zeta. repeat split; vm_compute; reflexivity.
Qed.

Lemma export_columns_read_witness :
  let row := sheetRow (exportColumns false) exportSample in
  sharedAllocRawOf row = VStr "Wytlabs: 150, Collabx: 50"
  /\ serviceHandlerOf row = VStr "Raghav"
  /\ recurringRawOf row = VStr "Monthly".
Proof.
  cbv zeta.
  destruct (export_columns_read demoHost false exportSample eq_refl)
    as (_ & _ & _ & _ & _ & _ & _ & _ & _ & _ & _ & _ & _ & _ & _ & _
        & Hhandler & Hrecurring & _ & Hbill).
  rewrite Hbill, Hhandler, Hrecurring. repeat split.
Defined.

(** ** Shares written by the export and read by the upload *)

Lemma plain_span_sep (text : string) :
  Str.allChars isPlainNumChar text = true ->
  Str.span isSepChar text = (EmptyString, text).
Proof.
  destruct text as [|c r]; [reflexivity|].
  intros H. apply allChars_cons in H as [Hc _]. simpl.
  assert (Hs : isSepChar c = false).
  { revert Hc. destruct c as [[] [] [] [] [] [] [] []]; vm_compute; congruence. }
  by rewrite Hs.
Qed.

Lemma plain_span_num (text : string) :
  Str.allChars isPlainNumChar text = true ->
  Str.span isNumChar text = (text, "").
Proof.
  induction text as [|c r IH]; [reflexivity|].
  intros H. apply allChars_cons in H as [Hc Hr]. simpl.
  assert (Hn : isNumChar c = true).
  { unfold isNumChar. unfold isPlainNumChar in Hc.
    apply orb_true_iff in Hc as [->| ->]; [reflexivity|]. by rewrite orb_true_r. }
  by rewrite Hn, (IH Hr).
Qed.

Lemma plain_removeChars (text : string) :
  Str.allChars isPlainNumChar text = true ->
  Str.removeChars notNumeric text = text.
Proof.
  induction text as [|c r IH]; [reflexivity|].
  intros H. apply allChars_cons in H as [Hc Hr]. simpl.
  assert (Hn : notNumeric c = false).
  { unfold notNumeric. unfold isPlainNumChar in Hc.
    apply orb_true_iff in Hc as [->| ->]; [reflexivity|]. by rewrite orb_true_r. }
  by rewrite Hn, (IH Hr).
Qed.

Lemma sepThenNumber_plain (text : string) :
  Str.nonEmpty text = true ->
  Str.allChars isPlainNumChar text = true ->
  sepThenNumber (": " +:+ text) = Some text.
Proof.
  intros Hne Hall. unfold sepThenNumber.
  change (": " +:+ text) with (String ":" (String " " text)).
  cbn [Str.span]. change (isSepChar ":") with true. change (isSepChar " ") with true.
  cbv iota.
  rewrite (plain_span_sep text Hall). rewrite (plain_span_num _ Hall).
  by rewrite Hne.
Qed.

Lemma sepThenNumber_nonsep (c : ascii) (r : string) :
  isSepChar c = false -> sepThenNumber (String c r) = None.
Proof. intros Hc. unfold sepThenNumber. simpl. rewrite Hc. by destruct (Str.span isNumChar _). Qed.

Lemma lazyLabel_label (lab text : string) :
  Str.nonEmpty lab = true ->
  free isSepChar lab = true -> free isLineTerminator lab = true ->
  Str.nonEmpty text = true -> Str.allChars isPlainNumChar text = true ->
  lazyLabel (lab +:+ ": " +:+ text) = Some (lab, text).
Proof.
  intros Hlab Hsep Hlt Hne Hall.
  induction lab as [|c r IH]; [discriminate|].
  simpl in Hsep, Hlt. apply andb_true_iff in Hsep as [Hc Hsep], Hlt as [Hl Hlt].
  apply negb_true_iff in Hc, Hl.
  change (String c r +:+ ": " +:+ text) with (String c (r +:+ ": " +:+ text)).
  cbn [lazyLabel]. rewrite Hl.
  destruct r as [|c' r'].
  - change ("" +:+ ": " +:+ text) with (": " +:+ text).
    by rewrite (sepThenNumber_plain text Hne Hall).
  - change (String c' r' +:+ ": " +:+ text) with (String c' (r' +:+ ": " +:+ text)).
    simpl in Hsep. apply andb_true_iff in Hsep as [Hc' Hsep'].
    apply negb_true_iff in Hc'.
    rewrite (sepThenNumber_nonsep c' _ Hc').
    change (String c' (r' +:+ ": " +:+ text)) with (String c' r' +:+ ": " +:+ text).
    rewrite IH; [reflexivity|reflexivity| |exact Hlt].
    simpl. by rewrite Hc', Hsep'.
Qed.

Lemma matchAlloc_label (lab text : string) :
  Str.nonEmpty lab = true ->
  free isSepChar lab = true -> free isLineTerminator lab = true ->
  Str.nonEmpty text = true -> Str.allChars isPlainNumChar text = true ->
  matchAlloc (lab +:+ ": " +:+ text) = Some (lab, text).
Proof.
  intros Hlab Hsep Hlt Hne Hall.
  pose proof (lazyLabel_label lab text Hlab Hsep Hlt Hne Hall) as H.
  destruct lab as [|c r]; [discriminate|].
  change (String c r +:+ ": " +:+ text) with (String c (r +:+ ": " +:+ text)) in *.
  unfold matchAlloc; fold matchAlloc. by rewrite H.
Qed.

Lemma splitOn_cons_nonsep (sep : ascii -> bool) (c : ascii) (s : string) :
  sep c = false ->
  Str.splitOn sep (String c s)
  = match Str.splitOn sep s with
    | p :: ps => String c p :: ps
    | [] => [String c EmptyString]
    end.
Proof. intros Hc. simpl. by rewrite Hc. Qed.

Lemma splitOn_free_id (sep : ascii -> bool) (s : string) :
  free sep s = true -> Str.splitOn sep s = [s].
Proof.
  induction s as [|c r IH]; [reflexivity|]. simpl.
  intros H. apply andb_true_iff in H as [Hc Hr]. apply negb_true_iff in Hc.
  by rewrite Hc, (IH Hr).
Qed.

Lemma splitOn_app_sep (sep : ascii -> bool) (x : string) (c : ascii) (rest : string) :
  free sep x = true -> sep c = true ->
  Str.splitOn sep (x +:+ String c rest) = x :: Str.splitOn sep rest.
Proof.
  intros Hx Hc. induction x as [|a r IH]; simpl.
  - by rewrite Hc.
  - simpl in Hx. apply andb_true_iff in Hx as [Ha Hr]. apply negb_true_iff in Ha.
    by rewrite Ha, (IH Hr).
Qed.

Lemma splitOn_join (items : list string) :
  Forall (fun x => free isPartSep x = true) items ->
  Str.splitOn isPartSep (joinWith ", " items)
  = match items with
    | [] => [EmptyString]
    | x :: rest => x :: map (String " ") rest
    end.
Proof.
  intros Hfree. induction Hfree as [|x rest Hx Hrest IH]; [reflexivity|].
  destruct rest as [|y rest'].
  - simpl. by apply splitOn_free_id.
  - change (joinWith ", " (x :: y :: rest'))
      with (x +:+ String "," (String " " (joinWith ", " (y :: rest')))).
    rewrite (splitOn_app_sep isPartSep x "," _ Hx eq_refl).
    rewrite (splitOn_cons_nonsep isPartSep " " _ eq_refl), IH. reflexivity.
Qed.

Lemma trimEnd_app (a b : string) :
  Str.trimEnd b = b -> Str.nonEmpty b = true -> Str.trimEnd (a +:+ b) = a +:+ b.
Proof.
  intros Hb Hne. induction a as [|c r IH]; [exact Hb|].
  change (String c r +:+ b) with (String c (r +:+ b)).
  cbn [Str.trimEnd]. rewrite IH.
  destruct (r +:+ b) eqn:E; [|reflexivity].
  destruct r; [change ("" +:+ b) with b in E; rewrite E in Hne; discriminate|discriminate].
Qed.

Lemma trimEnd_free_ws (s : string) :
  free Str.isWhiteSpace s = true -> Str.trimEnd s = s.
Proof.
  induction s as [|c r IH]; [reflexivity|]. simpl.
  intros H. apply andb_true_iff in H as [Hc Hr]. apply negb_true_iff in Hc.
  rewrite (IH Hr), Hc. by destruct r.
Qed.

Lemma plain_free_ws (text : string) :
  Str.allChars isPlainNumChar text = true -> free Str.isWhiteSpace text = true.
Proof.
  induction text as [|c r IH]; [reflexivity|].
  intros H. apply allChars_cons in H as [Hc Hr]. simpl. rewrite (IH Hr), andb_true_r.
  revert Hc. destruct c as [[] [] [] [] [] [] [] []]; vm_compute; congruence.
Qed.

Lemma plain_free_partsep (text : string) :
  Str.allChars isPlainNumChar text = true -> free isPartSep text = true.
Proof.
  induction text as [|c r IH]; [reflexivity|].
  intros H. apply allChars_cons in H as [Hc Hr]. simpl. rewrite (IH Hr), andb_true_r.
  revert Hc. destruct c as [[] [] [] [] [] [] [] []]; vm_compute; congruence.
Qed.

Lemma free_app (cls : ascii -> bool) (a b : string) :
  free cls (a +:+ b) = free cls a && free cls b.
Proof.
  induction a as [|c r IH]; [reflexivity|].
  change (String c r +:+ b) with (String c (r +:+ b)). simpl.
  by rewrite IH, andb_assoc.
Qed.

Lemma shareText_part (h : Host) (name text : string) (q : Q) :
  In name Tables.allowedBusinessUnits ->
  Str.nonEmpty text = true ->
  Str.allChars isPlainNumChar text = true ->
  Str.parseFloat text = Fin q ->
  free isPartSep (shareText name text) = true
  /\ Str.nonEmpty (shareText name text) = true
  /\ Str.trim (String " " (shareText name text)) = shareText name text
  /\ Str.trim (shareText name text) = shareText name text
  /\ Str.trimStart (shareText name text) = shareText name text
  /\ shareOfPart h (shareText name text)
     = if Num.gt (Fin q) (Num.ofZ 0)
       then Some (Alloc.make (Some (EStr name)) (Fin q)) else None.
Proof.
  intros Hname Hne Hall Hq.
  assert (Htrim : Str.trim (shareText name text) = shareText name text).
  { unfold Str.trim, shareText.
    assert (Hstart : Str.trimStart (name +:+ ": " +:+ text) = name +:+ ": " +:+ text).
    { simpl in Hname.
      repeat (destruct Hname as [<-|Hname]; [reflexivity|]). destruct Hname. }
    rewrite Hstart.
    assert (Hmid : Str.trimEnd (": " +:+ text) = ": " +:+ text)
      by (apply trimEnd_app; [exact (trimEnd_free_ws text (plain_free_ws text Hall))|exact Hne]).
    change (name +:+ ": " +:+ text) with (name +:+ (": " +:+ text)).
    apply trimEnd_app; [exact Hmid|reflexivity]. }
  split; [|split; [|split; [|split; [|split]]]].
  - unfold shareText. rewrite !free_app, (plain_free_partsep text Hall).
    simpl in Hname.
    repeat (destruct Hname as [<-|Hname]; [reflexivity|]). destruct Hname.
  - simpl in Hname.
    repeat (destruct Hname as [<-|Hname]; [reflexivity|]). destruct Hname.
  - exact Htrim.
  - exact Htrim.
  - simpl in Hname.
    repeat (destruct Hname as [<-|Hname]; [reflexivity|]). destruct Hname.
  - unfold shareOfPart, shareText.
    rewrite matchAlloc_label; [| | | |exact Hne|exact Hall].
    + rewrite (plain_removeChars text Hall), Hq.
      assert (Hbu : normalizeBU h (VStr name) = Some (EStr name)).
      { simpl in Hname.
        repeat (destruct Hname as [<-|Hname]; [reflexivity|]). destruct Hname. }
      rewrite Hbu. reflexivity.
    + simpl in Hname.
      repeat (destruct Hname as [<-|Hname]; [reflexivity|]). destruct Hname.
    + simpl in Hname.
      repeat (destruct Hname as [<-|Hname]; [reflexivity|]). destruct Hname.
    + simpl in Hname.
      repeat (destruct Hname as [<-|Hname]; [reflexivity|]). destruct Hname.
Qed.

Lemma exportable_text (h : Host) (memberText : string -> string) (s : Share) :
  exportableShare h s ->
  exists name text q,
    s = Alloc.make (Some (EStr name)) (Fin q)
    /\ In name Tables.allowedBusinessUnits
    /\ Str.nonEmpty text = true
    /\ Str.allChars isPlainNumChar text = true
    /\ Str.parseFloat text = Fin q
    /\ unitTruthy (Alloc.businessUnit s) = true
    /\ unitText memberText (Alloc.businessUnit s) +:+ ": "
       +:+ Val.toStr h (VNum (Alloc.amount s)) = shareText name text.
Proof.
  intros [(name & Hname & Hbu) (q & Hq & Hne & Hall & Hpf)].
  destruct s as [bu amount]. simpl in *. subst bu amount.
  exists name, (numberToString h q), q. repeat split; try assumption.
  simpl in Hname.
  repeat (destruct Hname as [<-|Hname]; [reflexivity|]). destruct Hname.
Qed.

Lemma omap_shareOfPart (h : Host) (memberText : string -> string) (l : list Share) :
  Forall (exportableShare h) l ->
  let items :=
    map (fun alloc =>
           unitText memberText (Alloc.businessUnit alloc) +:+ ": "
           +:+ Val.toStr h (VNum (Alloc.amount alloc))) l in
  Forall (fun x => free isPartSep x = true) items
  /\ Forall (fun x => Str.nonEmpty x = true /\ Str.trimStart x = x) items
  /\ map Str.trim (match items with
                   | [] => []
                   | x :: rest => x :: map (String " ") rest
                   end) = items
  /\ List.filter Str.nonEmpty items = items
  /\ omap (shareOfPart h) items
     = List.filter (fun a => Num.gt (Alloc.amount a) (Num.ofZ 0)) l
  /\ List.filter (fun alloc => unitTruthy (Alloc.businessUnit alloc)) l = l.
Proof.
  intros Hl. cbv zeta.
  assert (Hall : Forall (fun s => exists name text q,
      s = Alloc.make (Some (EStr name)) (Fin q)
      /\ unitTruthy (Alloc.businessUnit s) = true
      /\ unitText memberText (Alloc.businessUnit s) +:+ ": "
         +:+ Val.toStr h (VNum (Alloc.amount s)) = shareText name text
      /\ free isPartSep (shareText name text) = true
      /\ Str.nonEmpty (shareText name text) = true
      /\ Str.trim (String " " (shareText name text)) = shareText name text
      /\ Str.trim (shareText name text) = shareText name text
      /\ Str.trimStart (shareText name text) = shareText name text
      /\ shareOfPart h (shareText name text)
         = if Num.gt (Fin q) (Num.ofZ 0)
           then Some (Alloc.make (Some (EStr name)) (Fin q)) else None) l).
  { eapply Forall_impl; [exact Hl|]. intros s Hs.
    destruct (exportable_text h memberText s Hs)
      as (name & text & q & -> & Hname & Hne & Hplain & Hpf & Htruthy & Htext).
    destruct (shareText_part h name text q Hname Hne Hplain Hpf)
      as (H1 & H2 & H3 & H4 & H6 & H5).
    exists name, text, q. repeat split; assumption. }
  clear Hl.
  assert (Hrest : forall l', Forall (fun s => exists name text q,
      s = Alloc.make (Some (EStr name)) (Fin q)
      /\ unitTruthy (Alloc.businessUnit s) = true
      /\ unitText memberText (Alloc.businessUnit s) +:+ ": "
         +:+ Val.toStr h (VNum (Alloc.amount s)) = shareText name text
      /\ free isPartSep (shareText name text) = true
      /\ Str.nonEmpty (shareText name text) = true
      /\ Str.trim (String " " (shareText name text)) = shareText name text
      /\ Str.trim (shareText name text) = shareText name text
      /\ Str.trimStart (shareText name text) = shareText name text
      /\ shareOfPart h (shareText name text)
         = if Num.gt (Fin q) (Num.ofZ 0)
           then Some (Alloc.make (Some (EStr name)) (Fin q)) else None) l' ->
    let items := map (fun alloc =>
           unitText memberText (Alloc.businessUnit alloc) +:+ ": "
           +:+ Val.toStr h (VNum (Alloc.amount alloc))) l' in
    Forall (fun x => free isPartSep x = true) items
    /\ Forall (fun x => Str.nonEmpty x = true /\ Str.trimStart x = x) items
    /\ map Str.trim (map (String " ") items) = items
    /\ List.filter Str.nonEmpty items = items
    /\ omap (shareOfPart h) items
       = List.filter (fun a => Num.gt (Alloc.amount a) (Num.ofZ 0)) l'
    /\ List.filter (fun alloc => unitTruthy (Alloc.businessUnit alloc)) l' = l').
  { intros l' H. induction H as [|s rest Hs _ IH]; [by repeat split|].
    destruct Hs as (name & text & q & -> & Htruthy & Htext & H1 & H2 & H3 & H4 & H6 & H5).
    destruct IH as (I1 & I0 & I2 & I3 & I4 & I5). cbv zeta in *.
    cbn [map]. rewrite Htext.
    split; [constructor; assumption|].
    split; [constructor; [split|]; assumption|].
    split; [by rewrite H3, I2|].
    split; [cbn [List.filter]; by rewrite H2, I3|].
    split.
    - cbn [omap list_omap List.filter Alloc.amount]. rewrite H5.
      change (list_omap string Share (shareOfPart h)) with (omap (shareOfPart h)).
      rewrite I4.
      by destruct (Num.gt (Fin q) (Num.ofZ 0)).
    - cbn [List.filter]. rewrite Htruthy. by rewrite I5. }
  destruct l as [|s rest]; [by repeat split|].
  inversion Hall as [|? ? Hs Hrest']; subst.
  destruct (Hrest (s :: rest) Hall) as (I1 & I0 & _ & I3 & I4 & I5).
  destruct (Hrest rest Hrest') as (_ & _ & J2 & _).
  cbv zeta in *. repeat split; try assumption.
  cbn [map]. cbn [map] in J2. rewrite J2. f_equal.
  destruct Hs as (name & text & q & -> & Htruthy & Htext & H1 & H2 & H3 & H4 & H6 & H5).
  by rewrite Htext.
Qed.

Lemma trimStart_fixed_head (s : string) :
  Str.trimStart s = s -> Str.nonEmpty s = true ->
  exists c r, s = String c r /\ Str.isWhiteSpace c = false.
Proof.
  intros Hs Hne. pose proof (trimStart_head s) as Hh. rewrite Hs in Hh.
  destruct s as [|c r]; [discriminate|]. eauto.
Qed.

Lemma joined_nonblank (items : list string) :
  Forall (fun x => Str.nonEmpty x = true /\ Str.trimStart x = x) items ->
  items <> [] ->
  Str.nonEmpty (joinWith ", " items) = true
  /\ Str.nonEmpty (Str.trim (joinWith ", " items)) = true.
Proof.
  intros Hall Hne. destruct items as [|x r]; [done|].
  inversion Hall as [|? ? [Hx Hts] _]; subst.
  destruct (trimStart_fixed_head x Hts Hx) as (c & x' & -> & Hc).
  assert (Hj : exists rest, joinWith ", " (String c x' :: r) = String c rest).
  { destruct r; [by exists x'|]. eexists. reflexivity. }
  destruct Hj as (rest & ->). split; [reflexivity|].
  unfold Str.trim. cbn [Str.trimStart]. rewrite Hc.
  destruct (trimEnd_head c rest Hc) as (r' & ->). reflexivity.
Qed.

(** X23: the text the export writes for the shares of a shared
    record, when the units are canonical and the amounts written
    plainly, is parsed by the upload to the same shares in the same
    order, without those of amount 0. *)
Theorem exported_shares_read_back (h : Host) (memberText : string -> string)
    (expense : Entry.t) :
  Entry.isShared expense = true ->
  Forall (exportableShare h) (Entry.sharedAllocations expense) ->
  jsonParseArray h (formatShared h memberText expense) = None ->
  parseSharedAllocations h (VStr (formatShared h memberText expense))
  = List.filter (fun a => Num.gt (Alloc.amount a) (Num.ofZ 0))
      (Entry.sharedAllocations expense).
Proof.
  intros Hshared Hall Hjson.
  unfold parseSharedAllocations. cbn [Val.truthy Val.toStr]. rewrite Hjson.
  revert Hjson. unfold formatShared. rewrite Hshared. cbn [negb orb].
  destruct (Entry.sharedAllocations expense) as [|s rest] eqn:Hl; [reflexivity|].
  cbn [length Nat.eqb]. intros _.
  destruct (omap_shareOfPart h memberText (s :: rest) Hall)
    as (Hfree & Hnonempty & Htrim & Hne & Homap & Htruthy).
  cbv zeta in *. rewrite Htruthy.
  remember (map (fun alloc => unitText memberText (Alloc.businessUnit alloc) +:+ ": "
                   +:+ Val.toStr h (VNum (Alloc.amount alloc))) (s :: rest))
    as items eqn:Hitems.
  assert (Hnil : items <> []) by (subst items; discriminate).
  destruct (joined_nonblank items Hnonempty Hnil) as [Hjoin Htj].
  rewrite Hjoin. cbn [negb].
  unfold sharesOfText. rewrite Htj. cbn [negb].
  rewrite (splitOn_join items Hfree).
  destruct items as [|x r]; [done|].
  rewrite Htrim, Hne. exact Homap.
Qed.

Lemma exported_shares_read_back_witness :
  formatShared plainHost (fun k => k) sharedEntry = "Wytlabs: 150, Collabx: 50"
  /\ parseSharedAllocations plainHost (VStr "Wytlabs: 150, Collabx: 50")
     = [ Alloc.make (Some (EStr "Wytlabs")) (Fin 150);
         Alloc.make (Some (EStr "Collabx")) (Fin 50) ].
Proof.
  assert (Htext : formatShared plainHost (fun k => k) sharedEntry
                  = "Wytlabs: 150, Collabx: 50") by (vm_compute; reflexivity).
  split; [exact Htext|].
  rewrite <- Htext.
  rewrite (exported_shares_read_back plainHost (fun k => k) sharedEntry eq_refl);
    [reflexivity| |reflexivity].
  repeat constructor.
  - exists "Wytlabs". split; [simpl; tauto|reflexivity].
  - exists 150%Q. repeat split; vm_compute; reflexivity.
  - exists "Collabx". split; [simpl; tauto|reflexivity].
  - exists 50%Q. repeat split; vm_compute; reflexivity.
Defined.

(** ** The pattern of a handler name *)

Lemma append_cons (x : ascii) (a b : string) : String x a +:+ b = String x (a +:+ b).
Proof. reflexivity. Qed.

Lemma append_assoc (a b c : string) : (a +:+ b) +:+ c = a +:+ (b +:+ c).
Proof. induction a as [|x a IH]; [reflexivity|]. by rewrite !append_cons, IH. Qed.

Lemma append_nil_r (a : string) : a +:+ "" = a.
Proof. induction a as [|x a IH]; [reflexivity|]. by rewrite append_cons, IH. Qed.

Lemma occursIn_refl (s : string) : occursIn s s.
Proof. exists "", "". change ("" +:+ s +:+ "") with (s +:+ ""). by rewrite append_nil_r. Qed.

Lemma occursIn_trans (a b c : string) : occursIn a b -> occursIn b c -> occursIn a c.
Proof.
  intros (x & y & ->) (u & v & ->). exists (u +:+ x), (y +:+ v).
  by rewrite !append_assoc.
Qed.

Lemma occursIn_cons (t : string) (c : ascii) (s : string) :
  occursIn t s -> occursIn t (String c s).
Proof. intros (a & b & ->). by exists (String c a), b. Qed.

Lemma toLowerCase_app (a b : string) :
  Str.toLowerCase (a +:+ b) = Str.toLowerCase a +:+ Str.toLowerCase b.
Proof.
  induction a as [|x a IH]; [reflexivity|].
  rewrite append_cons. cbn [Str.toLowerCase]. by rewrite append_cons, IH.
Qed.

Lemma occursIn_lower (t s : string) :
  occursIn t s -> occursIn (Str.toLowerCase t) (Str.toLowerCase s).
Proof.
  intros (a & b & ->). exists (Str.toLowerCase a), (Str.toLowerCase b).
  by rewrite !toLowerCase_app.
Qed.

Lemma isPrefix_app (p b : string) : Str.isPrefix p (p +:+ b) = true.
Proof.
  induction p as [|x p IH]; [by destruct b|].
  rewrite append_cons. cbn [Str.isPrefix]. by rewrite Ascii.eqb_refl, IH.
Qed.

Lemma isPrefix_inv (p s : string) :
  Str.isPrefix p s = true -> exists b, s = p +:+ b.
Proof.
  revert s. induction p as [|x p IH]; intros s; [by exists s|].
  destruct s as [|y s]; [discriminate|]. cbn [Str.isPrefix].
  intros H. apply andb_true_iff in H as [Hxy Hp]. apply Ascii.eqb_eq in Hxy. subst y.
  destruct (IH s Hp) as (b & ->). by exists b.
Qed.

Lemma contains_occursIn (p s : string) : Str.contains p s = true <-> occursIn p s.
Proof.
  split.
  - induction s as [|c s IH]; cbn [Str.contains].
    + rewrite orb_false_r. intros H. destruct (isPrefix_inv _ _ H) as (b & ->).
      by exists "", b.
    + intros H. apply orb_true_iff in H as [H|H].
      * destruct (isPrefix_inv _ _ H) as (b & ->). by exists "", b.
      * apply occursIn_cons. by apply IH.
  - intros (a & b & ->). induction a as [|c a IH].
    + change ("" +:+ p +:+ b) with (p +:+ b). destruct (p +:+ b) eqn:E.
      * cbn [Str.contains]. rewrite orb_false_r. rewrite <- E. apply isPrefix_app.
      * cbn [Str.contains]. apply orb_true_iff. left. rewrite <- E. apply isPrefix_app.
    + change (String c a +:+ p +:+ b) with (String c (a +:+ p +:+ b)).
      cbn [Str.contains]. apply orb_true_iff. right. exact IH.
Qed.

Lemma trimStart_occurs (s : string) : exists w, s = w +:+ Str.trimStart s.
Proof.
  induction s as [|c s (w & IH)]; [by exists ""|]. cbn [Str.trimStart].
  destruct (Str.isWhiteSpace c).
  - exists (String c w). by rewrite append_cons, <- IH.
  - by exists "".
Qed.

Lemma trimEnd_occurs (s : string) : exists w, s = Str.trimEnd s +:+ w.
Proof.
  induction s as [|c s (w & IH)]; [by exists ""|]. cbn [Str.trimEnd].
  destruct (Str.trimEnd s) as [|c' r'] eqn:E.
  - destruct (Str.isWhiteSpace c).
    + exists (String c s). reflexivity.
    + exists s. reflexivity.
  - exists w. rewrite append_cons. f_equal. exact IH.
Qed.

Lemma trim_occursIn (s : string) : occursIn (Str.trim s) s.
Proof.
  unfold Str.trim. destruct (trimStart_occurs s) as (w & Hw).
  destruct (trimEnd_occurs (Str.trimStart s)) as (v & Hv).
  exists w, v. rewrite <- Hv. exact Hw.
Qed.

Lemma splitOn_occursIn (sep : ascii -> bool) (s : string) :
  match Str.splitOn sep s with
  | [] => False
  | p :: ps => (exists b, s = p +:+ b) /\ Forall (fun q => occursIn q s) ps
  end.
Proof.
  induction s as [|c s IH]; cbn [Str.splitOn].
  - split; [by exists ""|constructor].
  - destruct (sep c).
    + split; [by exists (String c s)|].
      destruct (Str.splitOn sep s) as [|p ps]; [destruct IH|].
      destruct IH as [(b & Hb) Hps]. constructor.
      * apply occursIn_cons. exists "", b. exact Hb.
      * eapply Forall_impl; [exact Hps|]. intros q. apply occursIn_cons.
    + destruct (Str.splitOn sep s) as [|p ps]; [destruct IH|].
      destruct IH as [(b & Hb) Hps]. split.
      * exists b. by rewrite append_cons, <- Hb.
      * eapply Forall_impl; [exact Hps|]. intros q. apply occursIn_cons.
Qed.

Lemma nameTokens_occur (name : string) :
  Forall (fun t => occursIn t name) (nameTokens name).
Proof.
  unfold nameTokens. apply List.Forall_forall. intros t Ht.
  apply filter_In in Ht as [Ht _]. apply in_map_iff in Ht as (piece & <- & Hpiece).
  apply (occursIn_trans _ piece); [apply trim_occursIn|].
  pose proof (splitOn_occursIn isSpace name) as Hs.
  destruct (Str.splitOn isSpace name) as [|p ps]; [destruct Hs|].
  destruct Hs as [(b & Hb) Hps]. destruct Hpiece as [<-|Hin].
  - exists "", b. exact Hb.
  - rewrite List.Forall_forall in Hps. by apply Hps.
Qed.

(** X24: the pattern built from a handler name matches a user name
    exactly when one of the words of the handler name occurs in it,
    letter case apart. *)
Theorem handler_pattern_matches_any_word (name uname : string) (pattern : list string) :
  nameTokens name <> [] ->
  buildNamePattern name = Some pattern ->
  patternTest pattern uname
  = existsb (fun t => Str.contains (Str.toLowerCase t) (Str.toLowerCase uname))
      (nameTokens name).
Proof.
  intros Htok. unfold buildNamePattern.
  destruct (negb (Str.nonEmpty name)); [discriminate|].
  intros [= <-]. unfold patternTest. fold (nameTokens name). cbn [existsb].
  destruct (Str.contains (Str.toLowerCase name) (Str.toLowerCase uname)) eqn:Hfull;
    [|reflexivity].
  cbn [orb]. symmetry.
  pose proof (nameTokens_occur name) as Hocc.
  destruct (nameTokens name) as [|t ts]; [done|].
  inversion Hocc as [|? ? Ht _]; subst. cbn [existsb].
  apply orb_true_iff. left. apply contains_occursIn.
  apply (occursIn_trans _ (Str.toLowerCase name)).
  - by apply occursIn_lower.
  - by apply contains_occursIn.
Qed.

Lemma handler_pattern_matches_any_word_witness :
  patternTest ["Raghav Sharma"; "Raghav"; "Sharma"] "Anil SHARMA" = true.
Proof.
  rewrite (handler_pattern_matches_any_word "Raghav Sharma" "Anil SHARMA"
             ["Raghav Sharma"; "Raghav"; "Sharma"]); [reflexivity|discriminate|reflexivity].
Defined.

(** ** The exchange rate refresh *)

Lemma map_fixed {A} (f : A -> A) (l : list A) : (forall x, f x = x) -> map f l = l.
Proof. intros Hf. induction l as [|x l IH]; simpl; [done|]. by rewrite Hf, IH. Qed.

Lemma existsb_eqb_In (c : string) (l : list string) :
  existsb (String.eqb c) l = true <-> In c l.
Proof.
  rewrite existsb_exists. split.
  - intros (x & Hx & Heq). apply String.eqb_eq in Heq. by subst.
  - intros H. exists c. split; [done|apply String.eqb_refl].
Qed.

Section ExchangeRefreshFacts.
Variable getExchangeRate : string -> string -> string + num.

Lemma refreshAll_spec (currencies : list string) (store : Store) :
  List.NoDup currencies ->
  exists seen err,
    refreshAll getExchangeRate currencies store
    = (map (fun e => if existsb (String.eqb (Entry.currency e)) seen
                     then refreshed getExchangeRate e else e) store, err)
    /\ (forall c, In c seen ->
          In c currencies /\ (exists r, getExchangeRate c "INR" = inr r))
    /\ (err = None -> seen = currencies)
    /\ (forall m, err = Some m ->
          exists c, In c currencies /\ ~ In c seen /\ getExchangeRate c "INR" = inl m).
Proof.
  revert store. induction currencies as [|c rest IH]; intros store Hnd.
  - exists [], None. cbn [refreshAll]. split.
    + f_equal. symmetry. by apply map_fixed.
    + split; [intros c []|]. split; [done|]. intros m; discriminate.
  - inversion Hnd as [|? ? Hc Hnd']; subst. cbn [refreshAll].
    destruct (getExchangeRate c "INR") as [message|rate] eqn:Hrate.
    + exists [], (Some message). split.
      * f_equal. symmetry. by apply map_fixed.
      * split; [intros c' []|]. split; [discriminate|].
        intros m [= <-]. exists c. split; [by left|]. split; [intros []|done].
    + destruct (IH (refreshCurrency c rate store) Hnd')
        as (seen & err & Heq & Hseen & Hnone & Hsome).
      exists (c :: seen), err. split.
      * rewrite Heq. f_equal. unfold refreshCurrency. rewrite map_map.
        apply map_ext. intros e. cbn [existsb].
        destruct (String.eqb_spec (Entry.currency e) c) as [Hec|Hne].
        -- cbn [setRate Entry.currency orb]. rewrite Hec.
           assert (Hnot : existsb (String.eqb c) seen = false).
           { apply not_true_is_false. intros Hin. apply existsb_eqb_In in Hin.
             apply Hc. by apply Hseen. }
           rewrite Hnot. unfold refreshed. by rewrite Hec, Hrate.
        -- reflexivity.
      * split.
        -- intros c' [<-|Hc']; [split; [by left|eauto]|].
           destruct (Hseen c' Hc') as [Hin Hr]. split; [by right|done].
        -- split; [intros He; by rewrite (Hnone He)|].
           intros m Hm. destruct (Hsome m Hm) as (c' & Hin & Hnot & Hr).
           exists c'. split; [by right|]. split; [|done].
           intros [<-|Hin']; [congruence|done].
Qed.

Lemma distinctCurrencies_spec (store : Store) :
  List.NoDup (distinctCurrencies store)
  /\ (forall c, In c (distinctCurrencies store) <-> exists e, In e store /\ Entry.currency e = c).
Proof.
  unfold distinctCurrencies. split.
  - apply NoDup_ListNoDup, NoDup_remove_dups.
  - intros c. rewrite <- list_elem_of_In, elem_of_remove_dups, list_elem_of_In, in_map_iff.
    split; intros (e & H1 & H2); exists e; done.
Qed.

Lemma refresh_run_spec (store store' : Store) (err : option string) :
  runExchangeRateRefreshOnce getExchangeRate store = (store', err) ->
  Forall2 (fun e e' => e' = e \/ e' = refreshed getExchangeRate e) store store'
  /\ (err = None <->
      forall e, In e store -> exists r, getExchangeRate (Entry.currency e) "INR" = inr r)
  /\ (err = None -> store' = map (refreshed getExchangeRate) store)
  /\ (forall m, err = Some m ->
        exists e, In e store /\ getExchangeRate (Entry.currency e) "INR" = inl m).
Proof.
  intros Hrun.
  destruct (distinctCurrencies_spec store) as [Hnd Hcur].
  destruct (refreshAll_spec (distinctCurrencies store) store Hnd)
    as (seen & err0 & Heq & Hseen & Hnone & Hsome).
  assert (Hrun' : (store', err)
            = (map (fun e => if existsb (String.eqb (Entry.currency e)) seen
                             then refreshed getExchangeRate e else e) store, err0)).
  { rewrite <- Hrun, <- Heq. unfold runExchangeRateRefreshOnce.
    by destruct (distinctCurrencies store). }
  injection Hrun' as -> ->. clear Hrun Heq.
  split; [|split; [|split]].
  - clear. induction store as [|e store IH]; cbn [map]; constructor; [|exact IH].
    destruct (existsb (String.eqb (Entry.currency e)) seen); [right|left]; reflexivity.
  - split.
    + intros He e Hin. rewrite (Hnone He) in Hseen.
      apply (Hseen (Entry.currency e)), Hcur. eauto.
    + intros Hall. destruct err0 as [m|]; [|done].
      destruct (Hsome m eq_refl) as (c & Hin & _ & Hr).
      apply Hcur in Hin as (e & Hine & <-).
      destruct (Hall e Hine) as (r & Hr'). congruence.
  - intros He. rewrite (Hnone He). apply map_ext_in. intros e Hin.
    assert (Hc : existsb (String.eqb (Entry.currency e)) (distinctCurrencies store) = true).
    { apply existsb_eqb_In, Hcur. eauto. }
    by rewrite Hc.
  - intros m Hm. destruct (Hsome m Hm) as (c & Hin & _ & Hr).
    apply Hcur in Hin as (e & Hine & <-). eauto.
Qed.

Lemma refreshed_twice (e : Entry.t) : refreshed getExchangeRate (refreshed getExchangeRate e) = refreshed getExchangeRate e.
Proof.
  unfold refreshed. destruct (getExchangeRate (Entry.currency e) "INR") as [m|r] eqn:Hr.
  - by rewrite Hr.
  - cbn [setRate Entry.currency]. by rewrite Hr.
Qed.

Lemma refreshed_currency (e : Entry.t) : Entry.currency (refreshed getExchangeRate e) = Entry.currency e.
Proof. unfold refreshed. by destruct (getExchangeRate _ _). Qed.

(** X25: the exchange rate refresh leaves every record unchanged or
    with the rate of its currency and the amount in INR computed from it;
    it completes exactly when the service has a rate for every currency
    of the store, every record is then refreshed and a second run changes
    nothing; when it fails, the error is that of a currency of the
    store. *)
Theorem exchange_refresh_outcome (store store' : Store) (err : option string) :
  runExchangeRateRefreshOnce getExchangeRate store = (store', err) ->
  Forall2 (fun e e' => e' = e \/ e' = refreshed getExchangeRate e) store store'
  /\ (err = None <->
      forall e, In e store -> exists r, getExchangeRate (Entry.currency e) "INR" = inr r)
  /\ (err = None ->
      store' = map (refreshed getExchangeRate) store
      /\ runExchangeRateRefreshOnce getExchangeRate store' = (store', None))
  /\ (forall m, err = Some m ->
        exists e, In e store /\ getExchangeRate (Entry.currency e) "INR" = inl m).
Proof.
  intros Hrun.
  destruct (refresh_run_spec store store' err Hrun) as (H2 & Hiff & Hmap & Hfail).
  split; [exact H2|]. split; [exact Hiff|]. split; [|exact Hfail].
  intros He. split; [exact (Hmap He)|].
  destruct (runExchangeRateRefreshOnce getExchangeRate store') as [store'' err']
    eqn:Hrun'.
  destruct (refresh_run_spec store' store'' err' Hrun') as (_ & Hiff' & Hmap' & _).
  assert (He' : err' = None).
  { apply Hiff'. intros e' Hin'. rewrite (Hmap He) in Hin'.
    apply in_map_iff in Hin' as (e & <- & Hin). rewrite refreshed_currency.
    by apply Hiff. }
  rewrite He'. f_equal. rewrite (Hmap' He'), (Hmap He), map_map.
  apply map_ext. intros e. apply refreshed_twice.
Qed.
End ExchangeRefreshFacts.

Lemma exchange_refresh_outcome_witness :
  runExchangeRateRefreshOnce dollarRates [demoEntry; euroEntry]
  = ([setRate (Fin 84) demoEntry; euroEntry], Some "rate unavailable")
  /\ exists e, In e [demoEntry; euroEntry]
               /\ dollarRates (Entry.currency e) "INR" = inl "rate unavailable".
Proof.
  refine (conj eq_refl _).
  destruct (exchange_refresh_outcome dollarRates [demoEntry; euroEntry]
              [setRate (Fin 84) demoEntry; euroEntry] (Some "rate unavailable") eq_refl)
    as (_ & _ & _ & Hfail).
  exact (Hfail "rate unavailable" eq_refl).
Defined.

(** ** The auto-cancellation notices *)

(** In a zone of one offset the two jobs compute the same window. *)
Lemma noticeWindow_dayWindow (h : Host) (z now days : Z) :
  fixedOffset h z ->
  noticeWindow h now days = dayWindow h now days.
Proof.
  intros Hz. unfold noticeWindow, dayWindow.
  destruct (JsDate.setDate _ _ _) as [|t]; [reflexivity|].
  rewrite !setHours_window.
  unfold JsDate.timeClip at 1 3.
  destruct (Z.abs _ <=? JsDate.maxTime) eqn:Hs; [|reflexivity].
  rewrite setHours_window.
  unfold JsDate.utcOf, JsDate.localTime. rewrite !Hz.
  replace (JsDate.day (JsDate.day (t + z) * JsDate.msPerDay
                       + JsDate.makeTime 0 0 0 0 - z + z))
    with (JsDate.day (t + z)); [reflexivity|].
  unfold JsDate.day, JsDate.makeTime, JsDate.msPerDay.
  replace ((t + z) / 86400000 * 86400000 + (0 * 3600000 + 0 * 60000 + 0 * 1000 + 0)
           - z + z) with ((t + z) / 86400000 * 86400000) by lia.
  by rewrite Z.div_mul.
Qed.











(** ** The jobs over time *)

Lemma resetEntry_not_candidate (h : Host) (now : Z) (e : Entry.t) :
  resetCandidate now (resetEntry h e) = false.
Proof.
  unfold resetCandidate, resetEntry. cbn.
  by destruct (rolledDate h e) as [[|d]|]; rewrite ?andb_false_r.
Qed.

(** X28: running the rollover twice at the same time is running it
    once, and a record that any later run rolls is one this run left as
    it was: a run never produces a record that is due for another
    rollover. *)
Theorem rollover_needs_a_new_reminder (h : Host) (now : Z) (store : Store) :
  NoDup (map Entry._id store) ->
  runRenewalFlagResetOnce h now (runRenewalFlagResetOnce h now store)
  = runRenewalFlagResetOnce h now store
  /\ (forall now' e,
        In e (runRenewalFlagResetOnce h now store) ->
        resetCandidate now' e = true ->
        In e store /\ resetCandidate now e = false).
Proof.
  intros Hnd.
  rewrite (runRenewalFlagResetOnce_map h now store Hnd).
  set (F := fun x => if resetCandidate now x then resetEntry h x else x).
  split.
  - assert (Hids : map Entry._id (map F store) = map Entry._id store).
    { rewrite map_map. apply map_ext. intros x. unfold F.
      by destruct (resetCandidate now x). }
    assert (Hnd1 : NoDup (map Entry._id (map F store))) by by rewrite Hids.
    rewrite (runRenewalFlagResetOnce_map h now (map F store) Hnd1).
    rewrite map_map. apply map_ext. intros x. unfold F.
    destruct (resetCandidate now x) eqn:Hc.
    + by rewrite resetEntry_not_candidate.
    + by rewrite Hc.
  - intros now' e Hin Hcand. apply in_map_iff in Hin as (x & <- & Hx).
    unfold F in *. destruct (resetCandidate now x) eqn:Hc.
    + by rewrite resetEntry_not_candidate in Hcand.
    + by split.
Qed.

Lemma rollover_needs_a_new_reminder_witness :
  let store := [setRenewalNotificationSent true demoEntry] in
  let later := 1736553600000 in
  runRenewalFlagResetOnce demoHost later (runRenewalFlagResetOnce demoHost later store)
  = runRenewalFlagResetOnce demoHost later store
  /\ map Entry.renewalNotificationSent (runRenewalFlagResetOnce demoHost later store)
     = [false].
Proof.
  cbv zeta. split; [|reflexivity].
  apply (rollover_needs_a_new_reminder demoHost 1736553600000
           [setRenewalNotificationSent true demoEntry]).
  apply NoDup_cons. split; [apply not_elem_of_nil|apply NoDup_nil_2].
Defined.

(** X29: the window of the auto-cancellation job is one local day.
    It runs from the instant the zone gives for 00:00:00.000 to the one it
    gives for 23:59:59.999 of the local day of the target date, which is
    today with [days] added to the day of the month; so it is 86399999 ms
    long but for the change of the offset of the zone between its two
    ends. In a zone of one offset it starts at local midnight, ends
    86399999 ms later and holds exactly the instants of the local day
    [days] days after that of [now]. *)
Theorem noticeWindow_is_one_day (h : Host) (now days lo hi : Z) :
  noticeWindow h now days = Some (lo, hi) ->
  (exists target,
      JsDate.setDate (localTZA h) (JsDate.At now)
        (JsDate.getDate (localTZA h) now + days) = JsDate.At target
      /\ let midnight :=
           JsDate.day (JsDate.localTime (localTZA h) target) * JsDate.msPerDay in
         lo = JsDate.utcOf (localTZA h) midnight
         /\ hi = JsDate.utcOf (localTZA h) (midnight + 86399999)
         /\ hi - lo = 86399999 + (localTZA h midnight false
                                  - localTZA h (midnight + 86399999) false))
  /\ (forall z, fixedOffset h z ->
        hi = lo + 86399999
        /\ JsDate.timeWithinDay (lo + z) = 0
        /\ (forall D, lo <= D <= hi
                      <-> JsDate.day (D + z) = JsDate.day (now + z) + days)).
Proof.
  intros Hw. split.
  - revert Hw. unfold noticeWindow.
    destruct (JsDate.setDate _ _ _) as [|t]; [discriminate|].
    rewrite !setHours_window.
    destruct (JsDate.timeClip _) as [|start] eqn:Hs; [discriminate|].
    destruct (JsDate.timeClip (JsDate.utcOf _ (_ + JsDate.makeTime 23 59 59 999)))
      as [|finish] eqn:Hf; [discriminate|].
    intros [= <- <-]. apply timeClip_At in Hs, Hf. subst.
    exists t. split; [reflexivity|]. cbv zeta.
    change (JsDate.makeTime 0 0 0 0) with 0. change (JsDate.makeTime 23 59 59 999) with 86399999.
    rewrite Z.add_0_r. split; [reflexivity|]. split; [reflexivity|].
    unfold JsDate.utcOf. lia.
  - intros z Hz.
    rewrite (noticeWindow_dayWindow h z now days Hz) in Hw.
    destruct (dayWindow_days h z now days lo hi Hz Hw) as [Hlen Hday].
    split; [exact Hlen|]. split; [|exact Hday].
    pose proof (proj1 (Hday lo) ltac:(lia)) as Hlo.
    pose proof (proj1 (Hday (lo + 86399999)) ltac:(lia)) as Hhi.
    pose proof (day_time_split (lo + z)) as Hsplit.
    pose proof (timeWithinDay_bounds (lo + z)) as Hb.
    apply (day_characterised _ (lo + 86399999 + z)) in Hhi.
    rewrite <- Hlo in Hhi. unfold JsDate.msPerDay in *. lia.
Qed.

Lemma noticeWindow_is_one_day_witness :
  noticeWindow demoHost (demoNow + 3 * 86400000) 2 = Some (1736467200000, 1736553599999)
  /\ 1736553599999 = 1736467200000 + 86399999
  /\ JsDate.timeWithinDay (1736467200000 + 0) = 0.
Proof.
  refine (conj eq_refl _).
  destruct (noticeWindow_is_one_day demoHost (demoNow + 3 * 86400000) 2
              1736467200000 1736553599999 eq_refl) as (_ & Hfixed).
  destruct (Hfixed 0 (fun _ _ => eq_refl)) as (Hlen & Hstart & _).
  exact (conj Hlen Hstart).
Defined.

(** On the day summer time starts the window is an hour short. *)
Example noticeWindow_on_a_change_day :
  noticeWindow berlinHost 1743156000000 2 = Some (1743289200000, 1743371999999)
  /\ 1743371999999 - 1743289200000 = 86399999 - 3600000.
Proof. vm_compute. auto. Qed.

(** ** Approval links *)

Section ApprovalFacts.
Variable approvalToken : nat -> option string.

Lemma findByToken_updated (store : Store) (token s : string) (e : Entry.t) :
  findByToken approvalToken store token = Some e ->
  findByToken approvalToken (updateById (Entry._id e) (setEntryStatus s) store) token
  = Some (setEntryStatus s e).
Proof.
  intros Hfind. unfold findByToken, updateById in *.
  rewrite find_map_preserving.
  - rewrite Hfind. simpl. by rewrite Nat.eqb_refl.
  - intros x. by destruct (Nat.eqb _ _).
Qed.

(** X30: an approval link works once: approving or rejecting
    succeeds only for a Pending entry found by the token and sets it to
    Accepted or Rejected; after either, both links answer that the entry
    has already been processed and change nothing; a token that matches
    no entry is answered as not found. *)
Theorem approval_link_used_once (token : string) (users : list User) (store : Store) :
  (forall store1 sent,
      approveExpenseEntry approvalToken token users store = (LinkDone, store1, sent) ->
      (exists e, findByToken approvalToken store token = Some e
                 /\ Entry.entryStatus e = "Pending"
                 /\ store1 = updateById (Entry._id e) (setEntryStatus "Accepted") store)
      /\ (forall users',
            approveExpenseEntry approvalToken token users' store1
            = (AlreadyProcessed, store1, []))
      /\ rejectExpenseEntry approvalToken token store1 = (AlreadyProcessed, store1))
  /\ (forall store1,
        rejectExpenseEntry approvalToken token store = (LinkDone, store1) ->
        (exists e, findByToken approvalToken store token = Some e
                   /\ Entry.entryStatus e = "Pending"
                   /\ store1 = updateById (Entry._id e) (setEntryStatus "Rejected") store)
        /\ (forall users',
              approveExpenseEntry approvalToken token users' store1
              = (AlreadyProcessed, store1, []))
        /\ rejectExpenseEntry approvalToken token store1 = (AlreadyProcessed, store1))
  /\ (findByToken approvalToken store token = None ->
      approveExpenseEntry approvalToken token users store = (LinkNotFound, store, [])
      /\ rejectExpenseEntry approvalToken token store = (LinkNotFound, store)).
Proof.
  split; [|split].
  - intros store1 sent. unfold approveExpenseEntry at 1.
    destruct (findByToken approvalToken store token) as [e|] eqn:Hfind; [|discriminate].
    destruct (String.eqb_spec (Entry.entryStatus e) "Pending") as [Hp|Hp];
      cbn [negb]; [|discriminate].
    intros [= <- _].
    split; [exists e; by repeat split|].
    pose proof (findByToken_updated store token "Accepted" e Hfind) as Hf.
    split.
    + intros users'. unfold approveExpenseEntry. by rewrite Hf.
    + unfold rejectExpenseEntry. by rewrite Hf.
  - intros store1. unfold rejectExpenseEntry at 1.
    destruct (findByToken approvalToken store token) as [e|] eqn:Hfind; [|discriminate].
    destruct (String.eqb_spec (Entry.entryStatus e) "Pending") as [Hp|Hp];
      cbn [negb]; [|discriminate].
    intros [= <-].
    split; [exists e; by repeat split|].
    pose proof (findByToken_updated store token "Rejected" e Hfind) as Hf.
    split.
    + intros users'. unfold approveExpenseEntry. by rewrite Hf.
    + unfold rejectExpenseEntry. by rewrite Hf.
  - intros Hnone. unfold approveExpenseEntry, rejectExpenseEntry. by rewrite Hnone.
Qed.
End ApprovalFacts.

